(** * Nexus: intent classifier, model router, streaming orchestrator and
      conversation store

    A shallow embedding of

    - [backend/model_router.py]  ([TaskType], [ModelRouter]),
    - [backend/nexus_core.py]    ([NexusCore.generate_response] and helpers),
    - [backend/chat_manager.py]  ([ChatManager], the SQLite store),
    - the [/chat] handler of [api.py],

    followed by the properties of the specification proved (or refuted)
    on it. *)

From Stdlib Require Import List String Ascii Bool Arith ZArith Lia.
From Stdlib Require Import Permutation Sorted.
Import ListNotations.

Local Open Scope string_scope.
Local Open Scope list_scope.

Set Implicit Arguments.

(* ================================================================== *)
(** * Python values and exceptions *)
(* ================================================================== *)

(** The objects that [json.loads] and [yaml.safe_load] build.  A [dict]
    is kept as its item list in insertion order (keys are unique in a
    Python dict; lookup below returns the first binding). *)
#[warnings="-register-all"]
Inductive pyval : Type :=
| PNone
| PBool (b : bool)
| PInt (n : Z)
| PFloat (mantissa exponent : Z)      (* mantissa * 10 ^ exponent *)
| PStr (s : string)
| PList (l : list pyval)
| PDict (items : list (string * pyval)).

(** The exceptions that the modelled code can meet. *)
Inductive py_exn : Type :=
| KeyError (key : string)
| TypeError
| AttributeError
| StopIteration
| TransportError (msg : string)       (* httpx: connect, read, timeout *)
| OperationalError                    (* sqlite3: malformed MATCH expression *)
| RecursionError
| ValueError
| RuntimeError (msg : string).

(** Fallible computations: [inl e] is a raised exception. *)
Definition result (A : Type) : Type := (py_exn + A)%type.
Definition ret {A} (a : A) : result A := inr a.
Definition raise {A} (e : py_exn) : result A := inl e.
Definition bind {A B} (m : result A) (f : A -> result B) : result B :=
  match m with
  | inl e => inl e
  | inr a => f a
  end.

Notation "'let?' x ':=' m 'in' k" := (bind m (fun x => k))
  (at level 10, x name, m at level 100, k at level 200).

(** What [json.loads] does with a text: it returns the value, it raises
    [json.JSONDecodeError], or it raises something else ([RecursionError]
    on brackets nested too deep, [ValueError] on an integer literal with
    more digits than the conversion limit). *)
Inductive decoded : Type :=
| Decoded (value : pyval)
| JSONDecodeError
| DecodeRaised (e : py_exn).

(** [bool(v)]: Python truth value. *)
Definition truthy (v : pyval) : bool :=
  match v with
  | PNone => false
  | PBool b => b
  | PInt n => negb (Z.eqb n 0)
  | PFloat m _ => negb (Z.eqb m 0)
  | PStr s => negb (String.eqb s EmptyString)
  | PList l => match l with [] => false | _ => true end
  | PDict d => match d with [] => false | _ => true end
  end.

(** Lookup in a dict's item list. *)
Fixpoint assoc {A} (k : string) (d : list (string * A)) : option A :=
  match d with
  | [] => None
  | (k', v) :: d' => if String.eqb k k' then Some v else assoc k d'
  end.

(** [d.get(k, default)] on an arbitrary object: only a dict has [get]. *)
Definition py_get (v : pyval) (k : string) (default : pyval) : result pyval :=
  match v with
  | PDict d => ret (match assoc k d with Some x => x | None => default end)
  | _ => raise AttributeError
  end.

(** [v[k]] with a string key. *)
Definition py_getitem (v : pyval) (k : string) : result pyval :=
  match v with
  | PDict d => match assoc k d with Some x => ret x | None => raise (KeyError k) end
  | _ => raise TypeError
  end.

(** Equality of Python values restricted to what [k in list] needs when
    [k] is a string: only a [PStr] element can be equal to it. *)
Definition py_eq_str (k : string) (v : pyval) : bool :=
  match v with
  | PStr s => String.eqb k s
  | _ => false
  end.

(** Is [sub] a prefix of / contained in [s] ([sub in s] on strings). *)
Fixpoint prefixb (sub s : list ascii) : bool :=
  match sub, s with
  | [], _ => true
  | a :: sub', b :: s' => Ascii.eqb a b && prefixb sub' s'
  | _ :: _, [] => false
  end.

Fixpoint containsb (sub s : list ascii) : bool :=
  prefixb sub s ||
  match s with
  | [] => false
  | _ :: s' => containsb sub s'
  end.

(** [k in v] for a string [k]. *)
Definition py_contains (k : string) (v : pyval) : result bool :=
  match v with
  | PDict d => ret (match assoc k d with Some _ => true | None => false end)
  | PList l => ret (existsb (py_eq_str k) l)
  | PStr s => ret (containsb (list_ascii_of_string k) (list_ascii_of_string s))
  | _ => raise TypeError
  end.

(* ================================================================== *)
(** * Regular expressions ([re.search] on the router's patterns) *)
(* ================================================================== *)

Module Re.

(** Character sets used by the patterns of [ModelRouter.__init__]. *)
Inductive cset : Type :=
| Dot                     (* .   any character but a newline *)
| WordChar.               (* \w  *)

(** The fragment of Python's [re] syntax that the patterns use.  Repetition
    is only ever applied to a character set. *)
Inductive regex : Type :=
| Eps
| Chr (c : ascii)                    (* a literal character *)
| Star (cs : cset)                   (* cs*      *)
| Rep (cs : cset) (lo hi : nat)      (* cs{lo,hi} *)
| Bound                              (* \b *)
| Bol                                (* ^  *)
| Eol                                (* $  *)
| Seq (r1 r2 : regex)
| Alt (r1 r2 : regex).

Definition nat_in (lo hi : nat) (n : nat) : bool :=
  Nat.leb lo n && Nat.leb n hi.

(** ASCII letters are folded by [str.lower] and by [re.IGNORECASE]. *)
Definition lower_ascii (a : ascii) : ascii :=
  let n := nat_of_ascii a in
  if nat_in 65 90 n then ascii_of_nat (n + 32) else a.

(** [\w] on ASCII text: letters, digits and the underscore. *)
Definition is_word (a : ascii) : bool :=
  let n := nat_of_ascii a in
  nat_in 97 122 n || nat_in 65 90 n || nat_in 48 57 n || Nat.eqb n 95.

Definition newline : ascii := ascii_of_nat 10.

Definition cset_mem (cs : cset) (a : ascii) : bool :=
  match cs with
  | Dot => negb (Ascii.eqb a newline)
  | WordChar => is_word a
  end.

(** A literal matches modulo case ([re.IGNORECASE]). *)
Definition chr_eq (c a : ascii) : bool :=
  Ascii.eqb (lower_ascii c) (lower_ascii a).

Definition word_before (prev : option ascii) : bool :=
  match prev with Some a => is_word a | None => false end.

Definition word_after (s : list ascii) : bool :=
  match s with a :: _ => is_word a | [] => false end.

(** [\b]: exactly one of the two neighbours is a word character. *)
Definition at_boundary (prev : option ascii) (s : list ascii) : bool :=
  xorb (word_before prev) (word_after s).

(** [$] without [re.MULTILINE]: at the end, or before a final newline. *)
Definition at_eol (s : list ascii) : bool :=
  match s with
  | [] => true
  | [a] => Ascii.eqb a newline
  | _ => false
  end.

(** [cs{lo,hi}] followed by the continuation [k]; [hi] bounds the number
    of characters taken. *)
Fixpoint rep_match (cs : cset) (lo hi : nat) (prev : option ascii)
    (s : list ascii) (k : option ascii -> list ascii -> bool) : bool :=
  (Nat.eqb lo 0 && k prev s) ||
  match hi, s with
  | S hi', a :: s' => cset_mem cs a && rep_match cs (pred lo) hi' (Some a) s' k
  | _, _ => false
  end.

(** [cs*] followed by the continuation [k]. *)
Fixpoint star_match (cs : cset) (prev : option ascii) (s : list ascii)
    (k : option ascii -> list ascii -> bool) : bool :=
  k prev s ||
  match s with
  | a :: s' => cset_mem cs a && star_match cs (Some a) s' k
  | [] => false
  end.

(** [rmatch r prev s k]: some match of [r] at the current position ([prev]
    is the character just before it, [s] the rest of the subject) leaves a
    position that [k] accepts.  Backtracking explores every alternative, so
    the result is whether a match exists. *)
Fixpoint rmatch (r : regex) (prev : option ascii) (s : list ascii)
    (k : option ascii -> list ascii -> bool) : bool :=
  match r with
  | Eps => k prev s
  | Chr c =>
      match s with
      | a :: s' => chr_eq c a && k (Some a) s'
      | [] => false
      end
  | Star cs => star_match cs prev s k
  | Rep cs lo hi => rep_match cs lo hi prev s k
  | Bound => at_boundary prev s && k prev s
  | Bol => match prev with None => k prev s | Some _ => false end
  | Eol => at_eol s && k prev s
  | Seq r1 r2 => rmatch r1 prev s (fun p t => rmatch r2 p t k)
  | Alt r1 r2 => rmatch r1 prev s k || rmatch r2 prev s k
  end.

Definition accept (_ : option ascii) (_ : list ascii) : bool := true.

(** Try every start position, from left to right, the end included. *)
Fixpoint search_from (r : regex) (prev : option ascii) (s : list ascii) : bool :=
  rmatch r prev s accept ||
  match s with
  | a :: s' => search_from r (Some a) s'
  | [] => false
  end.

(** [bool(re.search(pattern, subject, re.IGNORECASE))]. *)
Definition search (r : regex) (subject : string) : bool :=
  search_from r None (list_ascii_of_string subject).

(** Pattern builders. *)
Fixpoint lit_chars (l : list ascii) : regex :=
  match l with
  | [] => Eps
  | [c] => Chr c
  | c :: l' => Seq (Chr c) (lit_chars l')
  end.

Definition lit (s : string) : regex := lit_chars (list_ascii_of_string s).

Fixpoint alts (l : list regex) : regex :=
  match l with
  | [] => Eps
  | [r] => r
  | r :: l' => Alt r (alts l')
  end.

Fixpoint seqs (l : list regex) : regex :=
  match l with
  | [] => Eps
  | [r] => r
  | r :: l' => Seq r (seqs l')
  end.

(** [\b(w1|w2|...)\b] *)
Definition words (l : list regex) : regex := seqs [Bound; alts l; Bound].

(** [a.*b] *)
Definition gap (a b : string) : regex := seqs [lit a; Star Dot; lit b].

End Re.

(** [str.lower] on ASCII text. *)
Definition lower (s : string) : string :=
  string_of_list_ascii (map Re.lower_ascii (list_ascii_of_string s)).

(* ================================================================== *)
(** * model_router.py *)
(* ================================================================== *)

(** [class TaskType(Enum)], in declaration order. *)
Inductive TaskType : Type := CODE | RESEARCH | PLANNING | QUICK | GENERAL.

(** [TaskType.value] *)
Definition task_value (t : TaskType) : string :=
  match t with
  | CODE => "code"
  | RESEARCH => "research"
  | PLANNING => "planning"
  | QUICK => "quick"
  | GENERAL => "general"
  end.

(** Iteration order of [for task_type in TaskType]. *)
Definition all_task_types : list TaskType :=
  [CODE; RESEARCH; PLANNING; QUICK; GENERAL].

Definition task_eqb (a b : TaskType) : bool :=
  match a, b with
  | CODE, CODE | RESEARCH, RESEARCH | PLANNING, PLANNING
  | QUICK, QUICK | GENERAL, GENERAL => true
  | _, _ => false
  end.

Module Patterns.
Import Re.

Definition backtick : ascii := ascii_of_nat 96.
Definition plus : ascii := ascii_of_nat 43.
Definition qmark : ascii := ascii_of_nat 63.

(** [r'\b(code|program|function|class|debug|error|bug|implement|script|algorithm)\b'] *)
Definition code_1 : regex :=
  words (map lit ["code"; "program"; "function"; "class"; "debug"; "error";
                  "bug"; "implement"; "script"; "algorithm"]).

(** [r'\b(python|javascript|java|c\+\+|rust|go|typescript)\b'] *)
Definition code_2 : regex :=
  words [lit "python"; lit "javascript"; lit "java";
         seqs [Chr "c"; Chr plus; Chr plus];
         lit "rust"; lit "go"; lit "typescript"].

(** [r'\b(write.*code|generate.*code|create.*function|fix.*bug)\b'] *)
Definition code_3 : regex :=
  words [gap "write" "code"; gap "generate" "code";
         gap "create" "function"; gap "fix" "bug"].

(** [r'```[\w]*\n'] *)
Definition code_4 : regex :=
  seqs [Chr backtick; Chr backtick; Chr backtick; Star WordChar; Chr newline].

(** [r'\b(research|explain|analyze|compare|study|investigate|explore)\b'] *)
Definition research_1 : regex :=
  words (map lit ["research"; "explain"; "analyze"; "compare"; "study";
                  "investigate"; "explore"]).

(** [r'\b(what is|how does|why|tell me about|detailed|comprehensive)\b'] *)
Definition research_2 : regex :=
  words (map lit ["what is"; "how does"; "why"; "tell me about"; "detailed";
                  "comprehensive"]).

(** [r'\b(history|background|overview|summary|breakdown)\b'] *)
Definition research_3 : regex :=
  words (map lit ["history"; "background"; "overview"; "summary"; "breakdown"]).

(** [r'\b(plan|strategy|approach|design|architect|organize|structure)\b'] *)
Definition planning_1 : regex :=
  words (map lit ["plan"; "strategy"; "approach"; "design"; "architect";
                  "organize"; "structure"]).

(** [r'\b(steps|roadmap|workflow|process|methodology)\b'] *)
Definition planning_2 : regex :=
  words (map lit ["steps"; "roadmap"; "workflow"; "process"; "methodology"]).

(** [r'\b(how to|how should|what should|best way)\b'] *)
Definition planning_3 : regex :=
  words (map lit ["how to"; "how should"; "what should"; "best way"]).

(** [r'^\w{1,20}\?$'] *)
Definition quick_1 : regex :=
  seqs [Bol; Rep WordChar 1 20; Chr qmark; Eol].

(** [r'\b(quick|simple|just|only)\b'] *)
Definition quick_2 : regex :=
  words (map lit ["quick"; "simple"; "just"; "only"]).

(** [r'^(yes|no|ok|thanks|hello|hi)\b'] *)
Definition quick_3 : regex :=
  seqs [Bol; alts (map lit ["yes"; "no"; "ok"; "thanks"; "hello"; "hi"]); Bound].

End Patterns.

(** [self.intent_patterns], a dict literal: its items in insertion order. *)
Definition intent_patterns : list (TaskType * list Re.regex) :=
  [ (CODE,     [Patterns.code_1; Patterns.code_2; Patterns.code_3; Patterns.code_4]);
    (RESEARCH, [Patterns.research_1; Patterns.research_2; Patterns.research_3]);
    (PLANNING, [Patterns.planning_1; Patterns.planning_2; Patterns.planning_3]);
    (QUICK,    [Patterns.quick_1; Patterns.quick_2; Patterns.quick_3]) ].

(** [scores[task_type] += 1]: the dict keeps the position of the key. *)
Fixpoint dict_incr (t : TaskType) (scores : list (TaskType * nat))
    : list (TaskType * nat) :=
  match scores with
  | [] => []
  | (t', n) :: rest =>
      if task_eqb t t' then (t', S n) :: rest else (t', n) :: dict_incr t rest
  end.

(** [max(iterable, key=...)] keeps the first of the greatest items: the
    current best is replaced only by a strictly greater one. *)
Fixpoint max_item_from (best : TaskType * nat) (items : list (TaskType * nat))
    : TaskType * nat :=
  match items with
  | [] => best
  | x :: rest =>
      max_item_from (if Nat.ltb (snd best) (snd x) then x else best) rest
  end.

Section Scoring.
(** The scoring loop, for any matcher. *)
Variable matches : Re.regex -> bool.

(** The inner loop [for pattern in patterns]. *)
Definition score_patterns (t : TaskType) (patterns : list Re.regex)
    (scores : list (TaskType * nat)) : list (TaskType * nat) :=
  fold_left (fun sc p => if matches p then dict_incr t sc else sc)
            patterns scores.

(** The outer loop [for task_type, patterns in self.intent_patterns.items()]. *)
Definition score_all (table : list (TaskType * list Re.regex))
    (scores : list (TaskType * nat)) : list (TaskType * nat) :=
  fold_left (fun sc tp => score_patterns (fst tp) (snd tp) sc) table scores.

(** Lines 63-77 of [analyze_intent], after [query_lower] is fixed. *)
Definition pick_intent : TaskType :=
  let scores0 := map (fun t => (t, 0)) all_task_types in
  let scores := score_all intent_patterns scores0 in
  let max_score := fold_right Nat.max 0 (map snd scores) in
  if Nat.eqb max_score 0 then GENERAL
  else
    match scores with
    | [] => GENERAL                     (* unreachable: five keys *)
    | x :: rest => fst (max_item_from x rest)
    end.
End Scoring.

(** [ModelRouter.analyze_intent] *)
Definition analyze_intent (query : string) : TaskType :=
  let query_lower := lower query in
  pick_intent (fun pattern => Re.search pattern query_lower).

(** The registry [self.models = config['ollama']['models']]: a dict from
    logical key to descriptor, as its items in insertion order. *)
Definition registry : Type := list (string * pyval).

(** [self.models.get('default') or next(iter(self.models.values()))] *)
Definition default_model_info (models : registry) : result pyval :=
  match assoc "default" models with
  | Some info => if truthy info then ret info else
      match models with
      | (_, first) :: _ => ret first
      | [] => raise StopIteration
      end
  | None =>
      match models with
      | (_, first) :: _ => ret first
      | [] => raise StopIteration
      end
  end.

(** [ModelRouter.select_model] *)
Definition select_model (models : registry) (query : string)
    : result (pyval * pyval * TaskType) :=
  let task_type := analyze_intent query in
  let? model_info := default_model_info models in
  let? name := py_getitem model_info "name" in
  let? role := py_getitem model_info "role" in
  ret (name, role, task_type).


(** [ModelRouter.get_all_models] *)
Fixpoint get_all_models (models : registry) : result (list pyval) :=
  match models with
  | [] => ret []
  | (key, info) :: rest =>
      let? name := py_getitem info "name" in
      let? role := py_getitem info "role" in
      let? use_for := py_getitem info "use_for" in
      let? others := get_all_models rest in
      ret (PDict [("key", PStr key); ("name", name); ("role", role);
                  ("use_for", use_for)] :: others)
  end.

(* ================================================================== *)
(** * nexus_core.py *)
(* ================================================================== *)

(** An entry of [conversation_history]: [{'role': ..., 'content': ...}]. *)
Record message : Type := Message { role : string; content : string }.

(** What the orchestrator reads from [config.yaml]. [temperature] is
    [config['agents']['temperature']]: [None] when either key is missing,
    in which case the subscript raises [KeyError] (reported below with the
    outer key). *)
Record Config : Type := {
  models : registry;
  base_url : string;
  temperature : option pyval
}.

(** The attributes of a [NexusCore] instance that change. *)
Record NexusCore : Type := {
  conversation_history : list message;
  current_model : option pyval
}.

(** The dicts yielded by [generate_response], by their ['type']. *)
Inductive event : Type :=
| ModelSelected (model role : pyval) (task_type : string)
| Content (text : string) (done : pyval)
| Complete (full_response : string) (model : pyval)
| Error (error : py_exn) (model : pyval).

(** The JSON body of the POST to [/api/chat]. *)
Record payload : Type := {
  p_model : pyval;
  p_messages : list message;
  p_stream : bool;
  p_temperature : pyval
}.

(** What the backend does with one request: the lines that
    [response.aiter_lines()] delivers, then either a clean end of stream
    ([failure = None]) or an exception raised by the transport (connection
    refused or reset, read timeout).  A call that cannot even be opened has
    no lines and a failure. *)
Record response : Type := {
  lines : list string;
  failure : option string
}.

(** The state that a run of the generator reads and writes: the instance
    and the requests that have reached the backend. *)
Record session : Type := {
  self : NexusCore;
  posted : list payload
}.

(** ** The generator monad

    A computation may yield events, change the session, and either return
    or raise.  Events yielded and state written before an exception stay. *)
Definition gen (A : Type) : Type :=
  session -> list event * session * result A.

Definition gret {A} (a : A) : gen A := fun s => ([], s, inr a).

Definition gbind {A B} (m : gen A) (f : A -> gen B) : gen B :=
  fun s =>
    match m s with
    | (ev1, s1, inl e) => (ev1, s1, inl e)
    | (ev1, s1, inr a) =>
        match f a s1 with
        | (ev2, s2, r) => (ev1 ++ ev2, s2, r)
        end
    end.

Notation "x <- m ;; k" := (gbind m (fun x => k))
  (at level 61, m at next level, right associativity).
Notation "m ;; k" := (gbind m (fun _ => k))
  (at level 61, right associativity).

Definition yield (e : event) : gen unit := fun s => ([e], s, inr tt).
Definition graise {A} (e : py_exn) : gen A := fun s => ([], s, inl e).
Definition lift {A} (r : result A) : gen A := fun s => ([], s, r).
Definition gets {A} (f : session -> A) : gen A := fun s => ([], s, inr (f s)).
Definition modify (f : session -> session) : gen unit :=
  fun s => ([], f s, inr tt).

(** [try: body except Exception as e: handler(e)] *)
Definition try_except {A} (body : gen A) (handler : py_exn -> gen A) : gen A :=
  fun s =>
    match body s with
    | (ev1, s1, inl e) =>
        match handler e s1 with
        | (ev2, s2, r) => (ev1 ++ ev2, s2, r)
        end
    | (ev1, s1, inr a) => (ev1, s1, inr a)
    end.

(** What leaves the body of an async generator: a [StopIteration] raised
    in the body comes out as a [RuntimeError] (PEP 479, PEP 525). *)
Definition leaving_generator (e : py_exn) : py_exn :=
  match e with
  | StopIteration => RuntimeError "async generator raised StopIteration"
  | _ => e
  end.

Definition async_generator {A} (body : gen A) : gen A :=
  fun s =>
    match body s with
    | (evs, s1, inl e) => (evs, s1, inl (leaving_generator e))
    | (evs, s1, inr a) => (evs, s1, inr a)
    end.

(** [self.conversation_history.append(m)] *)
Definition history_append (m : message) : gen unit :=
  modify (fun s =>
    {| self := {| conversation_history := conversation_history (self s) ++ [m];
                  current_model := current_model (self s) |};
       posted := posted s |}).

(** [self.current_model = model_name] *)
Definition set_current_model (model_name : pyval) : gen unit :=
  modify (fun s =>
    {| self := {| conversation_history := conversation_history (self s);
                  current_model := Some model_name |};
       posted := posted s |}).

(** [client.stream('POST', ..., json=payload)]: the request leaves. *)
Definition post (p : payload) : gen unit :=
  modify (fun s => {| self := self s; posted := posted s ++ [p] |}).

(** [l[-n:]] *)
Definition last_n {A} (n : nat) (l : list A) : list A :=
  skipn (List.length l - n) l.

(** Whitespace for [str.strip()] within ASCII. *)
Definition is_space (a : ascii) : bool :=
  let n := nat_of_ascii a in
  Re.nat_in 9 13 n || Re.nat_in 28 32 n.

(** [not line.strip()] *)
Definition blank (line : string) : bool :=
  forallb is_space (list_ascii_of_string line).

Section Orchestrator.
(** [json.loads] on a line. *)
Variable json_loads : string -> decoded.
(** The text returned by [_get_system_prompt] (a fixed literal). *)
Variable system_prompt : string.
Variable cfg : Config.

(** [NexusCore._prepare_messages] *)
Definition _prepare_messages (core : NexusCore) : list message :=
  let messages := [Message "system" system_prompt] in
  let recent_history := last_n 10 (conversation_history core) in
  messages ++ recent_history.

(** Lines 119-140: the work done for one decoded chunk.  Takes and
    returns the local [full_response]. *)
Definition on_chunk (model_name : pyval) (chunk : pyval)
    (full_response : string) : gen string :=
  has_message <- lift (py_contains "message" chunk) ;;
  full_response <-
    (if has_message : bool then
       msg <- lift (py_getitem chunk "message") ;;
       content <- lift (py_get msg "content" (PStr EmptyString)) ;;
       if truthy content then
         match content with
         | PStr text =>
             let full_response := (full_response ++ text)%string in
             done <- lift (py_get chunk "done" (PBool false)) ;;
             yield (Content text done) ;;
             gret full_response
         | _ => graise TypeError          (* str += non-str *)
         end
       else gret full_response
     else gret full_response) ;;
  done <- lift (py_get chunk "done" (PBool false)) ;;
  if truthy done then
    history_append (Message "assistant" full_response) ;;
    yield (Complete full_response model_name) ;;
    gret full_response
  else gret full_response.

(** Lines 113-142: [async for line in response.aiter_lines()]. *)
Fixpoint stream_loop (model_name : pyval) (ls : list string)
    (full_response : string) : gen string :=
  match ls with
  | [] => gret full_response
  | line :: rest =>
      if blank line then stream_loop model_name rest full_response
      else
        match json_loads line with
        | JSONDecodeError => stream_loop model_name rest full_response
        | DecodeRaised e => graise e
        | Decoded chunk =>
            full_response <- on_chunk model_name chunk full_response ;;
            stream_loop model_name rest full_response
        end
  end.

(** [NexusCore.generate_response], run to exhaustion against the
    backend behaviour [resp]. *)
Definition generate_response (query : string) (stream : bool)
    (resp : response) : gen unit :=
  async_generator (
  sel <- lift (select_model (models cfg) query) ;;
  let '(model_name, model_role, task_type) := sel in
  set_current_model model_name ;;
  yield (ModelSelected model_name model_role (task_value task_type)) ;;
  history_append (Message "user" query) ;;
  messages <- gets (fun s => _prepare_messages (self s)) ;;
  try_except
    (temp <- lift (match temperature cfg with
                   | Some t => ret t
                   | None => raise (KeyError "agents")
                   end) ;;
     post {| p_model := model_name; p_messages := messages;
             p_stream := stream; p_temperature := temp |} ;;
     _ <- stream_loop model_name (lines resp) EmptyString ;;
     match failure resp with
     | Some msg => graise (TransportError msg)
     | None => gret tt
     end)
    (fun e => yield (Error e model_name))).

(** [NexusCore.reset_conversation] *)
Definition reset_conversation (core : NexusCore) : NexusCore :=
  {| conversation_history := []; current_model := current_model core |}.
End Orchestrator.

(* ================================================================== *)
(** * chat_manager.py *)
(* ================================================================== *)

Module Store.

(** Rows of the three tables created by [initialize].  A [TIMESTAMP] is
    the value of [CURRENT_TIMESTAMP], counted in seconds. *)
Record conversation_row : Type := {
  c_id : Z;
  c_title : string;
  c_created_at : nat;
  c_updated_at : nat;
  c_model : option string;
  c_message_count : Z
}.

Record message_row : Type := {
  m_id : Z;
  m_conversation_id : Z;
  m_role : string;
  m_content : string;
  m_model : option string;
  m_timestamp : nat
}.

Record fts_row : Type := {
  f_content : string;
  f_conversation_id : Z
}.

(** The database file: the tables in rowid order and, for the two
    [AUTOINCREMENT] keys, the largest rowid handed out so far
    ([sqlite_sequence]).  No [PRAGMA foreign_keys = ON] is ever issued, so
    the [FOREIGN KEY ... ON DELETE CASCADE] clause is not enforced. *)
Record DB : Type := {
  conversations : list conversation_row;
  messages : list message_row;
  messages_fts : list fts_row;
  seq_conversations : Z;
  seq_messages : Z
}.

(** The state after [initialize] on a fresh file. *)
Definition empty_db : DB :=
  {| conversations := []; messages := []; messages_fts := [];
     seq_conversations := 0; seq_messages := 0 |}.

(** ** Statements *)

(** [INSERT INTO conversations (title, model) VALUES (?, ?)] *)
Definition insert_conversation (now : nat) (title : string)
    (model : option string) (db : DB) : DB :=
  let id := (seq_conversations db + 1)%Z in
  {| conversations := conversations db ++
       [{| c_id := id; c_title := title; c_created_at := now;
           c_updated_at := now; c_model := model; c_message_count := 0 |}];
     messages := messages db;
     messages_fts := messages_fts db;
     seq_conversations := id;
     seq_messages := seq_messages db |}.

(** [INSERT INTO messages (conversation_id, role, content, model)
     VALUES (?, ?, ?, ?)] *)
Definition insert_message (now : nat) (conversation_id : Z)
    (role content : string) (model : option string) (db : DB) : DB :=
  let id := (seq_messages db + 1)%Z in
  {| conversations := conversations db;
     messages := messages db ++
       [{| m_id := id; m_conversation_id := conversation_id; m_role := role;
           m_content := content; m_model := model; m_timestamp := now |}];
     messages_fts := messages_fts db;
     seq_conversations := seq_conversations db;
     seq_messages := id |}.

(** [INSERT INTO messages_fts (content, conversation_id) VALUES (?, ?)] *)
Definition insert_fts (content : string) (conversation_id : Z) (db : DB) : DB :=
  {| conversations := conversations db;
     messages := messages db;
     messages_fts := messages_fts db ++
       [{| f_content := content; f_conversation_id := conversation_id |}];
     seq_conversations := seq_conversations db;
     seq_messages := seq_messages db |}.

Definition touch (now : nat) (c : conversation_row) : conversation_row :=
  {| c_id := c_id c; c_title := c_title c; c_created_at := c_created_at c;
     c_updated_at := now; c_model := c_model c;
     c_message_count := (c_message_count c + 1)%Z |}.

(** [UPDATE conversations SET updated_at = CURRENT_TIMESTAMP,
     message_count = message_count + 1 WHERE id = ?] *)
Definition update_conversation (now : nat) (conversation_id : Z) (db : DB) : DB :=
  {| conversations :=
       map (fun c => if Z.eqb (c_id c) conversation_id then touch now c else c)
           (conversations db);
     messages := messages db;
     messages_fts := messages_fts db;
     seq_conversations := seq_conversations db;
     seq_messages := seq_messages db |}.

(** [DELETE FROM conversations WHERE id = ?] *)
Definition delete_conversation_row (conversation_id : Z) (db : DB) : DB :=
  {| conversations :=
       filter (fun c => negb (Z.eqb (c_id c) conversation_id)) (conversations db);
     messages := messages db;
     messages_fts := messages_fts db;
     seq_conversations := seq_conversations db;
     seq_messages := seq_messages db |}.

(** [DELETE FROM messages WHERE conversation_id = ?] *)
Definition delete_messages (conversation_id : Z) (db : DB) : DB :=
  {| conversations := conversations db;
     messages :=
       filter (fun m => negb (Z.eqb (m_conversation_id m) conversation_id))
              (messages db);
     messages_fts := messages_fts db;
     seq_conversations := seq_conversations db;
     seq_messages := seq_messages db |}.

(** [DELETE FROM messages_fts WHERE conversation_id = ?] *)
Definition delete_fts (conversation_id : Z) (db : DB) : DB :=
  {| conversations := conversations db;
     messages := messages db;
     messages_fts :=
       filter (fun f => negb (Z.eqb (f_conversation_id f) conversation_id))
              (messages_fts db);
     seq_conversations := seq_conversations db;
     seq_messages := seq_messages db |}.

(** [DELETE FROM conversations], [DELETE FROM messages],
    [DELETE FROM messages_fts] *)
Definition delete_all_conversations (db : DB) : DB :=
  {| conversations := []; messages := messages db;
     messages_fts := messages_fts db;
     seq_conversations := seq_conversations db;
     seq_messages := seq_messages db |}.

Definition delete_all_messages (db : DB) : DB :=
  {| conversations := conversations db; messages := [];
     messages_fts := messages_fts db;
     seq_conversations := seq_conversations db;
     seq_messages := seq_messages db |}.

Definition delete_all_fts (db : DB) : DB :=
  {| conversations := conversations db; messages := messages db;
     messages_fts := [];
     seq_conversations := seq_conversations db;
     seq_messages := seq_messages db |}.

(** ** Connections and transactions

    [aiosqlite.connect] opens a connection of its own for every call.  Its
    writes go to a private view until [commit]; every other connection
    reads the committed file.  Leaving the [async with] block closes the
    connection, which drops uncommitted work. *)
Record connection : Type := {
  committed : DB;
  working : DB
}.

Inductive action : Type :=
| Execute (stmt : DB -> DB)
| Commit.

Definition connect (db : DB) : connection :=
  {| committed := db; working := db |}.

Definition perform (a : action) (c : connection) : connection :=
  match a with
  | Execute stmt => {| committed := committed c; working := stmt (working c) |}
  | Commit => {| committed := working c; working := working c |}
  end.

Definition run (script : list action) (c : connection) : connection :=
  fold_left (fun c a => perform a c) script c.

(** The file once the connection is closed. *)
Definition close (c : connection) : DB := committed c.

(** A whole method body: connect, run the script, close. *)
Definition transact (script : list action) (db : DB) : DB :=
  close (run script (connect db)).

(** What every other connection sees when the method has gone through its
    first [n] awaits only (and, if it stops there, what is left). *)
Definition visible_after (n : nat) (script : list action) (db : DB) : DB :=
  committed (run (firstn n script) (connect db)).

(** ** Methods of [ChatManager] *)

Definition create_conversation_script (now : nat) (title : string)
    (model : option string) : list action :=
  [Execute (insert_conversation now title model); Commit].

(** [create_conversation]: the new file and [cursor.lastrowid]. *)
Definition create_conversation (now : nat) (title : string)
    (model : option string) (db : DB) : DB * Z :=
  let db' := transact (create_conversation_script now title model) db in
  (db', seq_conversations db').

Definition add_message_script (now : nat) (conversation_id : Z)
    (role content : string) (model : option string) : list action :=
  [Execute (insert_message now conversation_id role content model);
   Execute (insert_fts content conversation_id);
   Execute (update_conversation now conversation_id);
   Commit].

(** [add_message] *)
Definition add_message (now : nat) (conversation_id : Z)
    (role content : string) (model : option string) (db : DB) : DB :=
  transact (add_message_script now conversation_id role content model) db.

Definition delete_conversation_script (conversation_id : Z) : list action :=
  [Execute (delete_conversation_row conversation_id);
   Execute (delete_messages conversation_id);
   Execute (delete_fts conversation_id);
   Commit].

(** [delete_conversation] *)
Definition delete_conversation (conversation_id : Z) (db : DB) : DB :=
  transact (delete_conversation_script conversation_id) db.

Definition clear_all_history_script : list action :=
  [Execute delete_all_conversations; Execute delete_all_messages;
   Execute delete_all_fts; Commit].

(** [clear_all_history] *)
Definition clear_all_history (db : DB) : DB :=
  transact clear_all_history_script db.

(** ** Queries *)

(** [ORDER BY]: [before x y] says that [x] sorts strictly before [y].  Rows
    that compare equal keep the order in which the scan produced them. *)
Fixpoint insert_sorted {A} (before : A -> A -> bool) (x : A) (l : list A)
    : list A :=
  match l with
  | [] => [x]
  | y :: l' => if before x y then x :: l else y :: insert_sorted before x l'
  end.

Definition order_by {A} (before : A -> A -> bool) (l : list A) : list A :=
  fold_left (fun acc x => insert_sorted before x acc) l [].

(** [LIMIT ?]: a negative bound means no bound. *)
Definition sql_limit {A} (limit : Z) (l : list A) : list A :=
  if Z.ltb limit 0 then l else firstn (Z.to_nat limit) l.

(** A row of [SELECT role, content, model, timestamp FROM messages]. *)
Record message_view : Type := {
  v_role : string;
  v_content : string;
  v_model : option string;
  v_timestamp : nat
}.

Definition view (m : message_row) : message_view :=
  {| v_role := m_role m; v_content := m_content m; v_model := m_model m;
     v_timestamp := m_timestamp m |}.

(** The dict returned by [get_conversation]: the columns of the
    conversation row and the key ['messages']. *)
Record conversation : Type := {
  info : conversation_row;
  conv_messages : list message_view
}.

(** [get_conversation]; [None] is Python's [None]. *)
Definition get_conversation (conversation_id : Z) (db : DB)
    : option conversation :=
  match filter (fun c => Z.eqb (c_id c) conversation_id) (conversations db) with
  | [] => None
  | conv :: _ =>
      let rows :=
        filter (fun m => Z.eqb (m_conversation_id m) conversation_id)
               (messages db) in
      let sorted :=
        order_by (fun a b => Nat.ltb (m_timestamp a) (m_timestamp b)) rows in
      Some {| info := conv; conv_messages := map view sorted |}
  end.

(** [get_conversations] *)
Definition get_conversations (limit : Z) (db : DB) : list conversation_row :=
  sql_limit limit
    (order_by (fun a b => Nat.ltb (c_updated_at b) (c_updated_at a))
              (conversations db)).

(** A row of [SELECT DISTINCT c.id, c.title, c.created_at, c.updated_at,
    c.message_count]. *)
Record hit : Type := {
  h_id : Z;
  h_title : string;
  h_created_at : nat;
  h_updated_at : nat;
  h_message_count : Z
}.

Definition hit_of (c : conversation_row) : hit :=
  {| h_id := c_id c; h_title := c_title c; h_created_at := c_created_at c;
     h_updated_at := c_updated_at c; h_message_count := c_message_count c |}.

Definition hit_eqb (a b : hit) : bool :=
  Z.eqb (h_id a) (h_id b) && String.eqb (h_title a) (h_title b) &&
  Nat.eqb (h_created_at a) (h_created_at b) &&
  Nat.eqb (h_updated_at a) (h_updated_at b) &&
  Z.eqb (h_message_count a) (h_message_count b).

(** [SELECT DISTINCT] *)
Definition distinct (l : list hit) : list hit :=
  fold_left (fun acc x => if existsb (hit_eqb x) acc then acc else acc ++ [x])
            l [].

Section Search.
(** The full-text engine: [fts5_match q] compiles the right-hand side of
    [MATCH]; [None] is a malformed expression, which makes the statement
    raise; otherwise the result tells which [content] values match. *)
Variable fts5_match : string -> option (string -> bool).

(** [conversations c JOIN messages_fts fts ON c.id = fts.conversation_id
     WHERE messages_fts MATCH ?] *)
Definition joined (matches : string -> bool) (db : DB) : list hit :=
  flat_map
    (fun c =>
       map (fun _ => hit_of c)
           (filter (fun f => Z.eqb (c_id c) (f_conversation_id f)
                             && matches (f_content f))
                   (messages_fts db)))
    (conversations db).

(** [search_conversations] *)
Definition search_conversations (query : string) (limit : Z) (db : DB)
    : result (list hit) :=
  match fts5_match query with
  | None => raise OperationalError
  | Some matches =>
      ret (sql_limit limit
             (order_by (fun a b => Nat.ltb (h_updated_at b) (h_updated_at a))
                       (distinct (joined matches db))))
  end.
End Search.

End Store.

(* ================================================================== *)
(** * api.py: the two singletons and the [/chat] route *)
(* ================================================================== *)

Module Api.

(** [nexus = NexusCore()] and [chat_manager = ChatManager()] (with the
    database file behind it). *)
Record world : Type := {
  nexus : session;
  chat_manager : Store.DB
}.

Section Routes.
Variable json_loads : string -> decoded.
Variable system_prompt : string.
Variable cfg : Config.

(** [POST /chat] (and the [/ws] loop body): every chunk of
    [nexus.generate_response(message, stream=True)] is forwarded.  The
    handler makes no call on [chat_manager]. *)
Definition chat (message : string) (resp : response) (w : world)
    : list event * world * result unit :=
  match generate_response json_loads system_prompt cfg message true resp
                          (nexus w) with
  | (evs, s', r) => (evs, {| nexus := s'; chat_manager := chat_manager w |}, r)
  end.

(** [POST /history/{conversation_id}/message] *)
Definition add_message_to_history (now : nat) (conversation_id : Z)
    (role content : string) (model : option string) (w : world) : world :=
  {| nexus := nexus w;
     chat_manager :=
       Store.add_message now conversation_id role content model
                         (chat_manager w) |}.
End Routes.

End Api.

(* ================================================================== *)
(** * A JSON decoder for concrete runs *)
(* ================================================================== *)

(** The general results below hold for any [json_loads].  Concrete runs
    use this decoder for the part of JSON that the backend's frames are
    written in: objects, arrays, strings with the two-character escapes,
    integers, [true], [false], [null].  Anything else is rejected with
    [JSONDecodeError], except that brackets nested deeper than the
    recursion limit raise [RecursionError]. *)
Module Json.

Inductive token : Type :=
| LBrace | RBrace | LBrack | RBrack | Colon | Comma
| TStr (s : string)
| TInt (n : Z)
| TWord (w : string).

Definition dquote : ascii := ascii_of_nat 34.
Definition backslash : ascii := ascii_of_nat 92.

Definition is_digit (a : ascii) : bool := Re.nat_in 48 57 (nat_of_ascii a).
Definition is_letter (a : ascii) : bool := Re.nat_in 97 122 (nat_of_ascii a).
Definition is_ws (a : ascii) : bool :=
  let n := nat_of_ascii a in
  Nat.eqb n 32 || Nat.eqb n 9 || Nat.eqb n 10 || Nat.eqb n 13.

Definition unescape (a : ascii) : option ascii :=
  let n := nat_of_ascii a in
  if Nat.eqb n 34 || Nat.eqb n 92 || Nat.eqb n 47 then Some a
  else if Nat.eqb n 110 then Some (ascii_of_nat 10)
  else if Nat.eqb n 116 then Some (ascii_of_nat 9)
  else if Nat.eqb n 114 then Some (ascii_of_nat 13)
  else if Nat.eqb n 98 then Some (ascii_of_nat 8)
  else if Nat.eqb n 102 then Some (ascii_of_nat 12)
  else None.

(** The characters of a string literal after its opening quote. *)
Fixpoint lex_string (s : list ascii) (acc : list ascii)
    : option (string * list ascii) :=
  match s with
  | [] => None
  | a :: s' =>
      if Ascii.eqb a dquote then Some (string_of_list_ascii (rev acc), s')
      else if Ascii.eqb a backslash then
        match s' with
        | b :: s'' =>
            match unescape b with
            | Some c => lex_string s'' (c :: acc)
            | None => None
            end
        | [] => None
        end
      else if Nat.ltb (nat_of_ascii a) 32 then None
      else lex_string s' (a :: acc)
  end.

Fixpoint lex_digits (s : list ascii) (acc : Z) : Z * list ascii :=
  match s with
  | a :: s' =>
      if is_digit a
      then lex_digits s' (acc * 10 + Z.of_nat (nat_of_ascii a - 48))%Z
      else (acc, s)
  | [] => (acc, s)
  end.

Fixpoint lex_letters (s : list ascii) (acc : list ascii) : string * list ascii :=
  match s with
  | a :: s' =>
      if is_letter a then lex_letters s' (a :: acc)
      else (string_of_list_ascii (rev acc), s)
  | [] => (string_of_list_ascii (rev acc), s)
  end.

Definition punct (a : ascii) : option token :=
  let n := nat_of_ascii a in
  if Nat.eqb n 123 then Some LBrace
  else if Nat.eqb n 125 then Some RBrace
  else if Nat.eqb n 91 then Some LBrack
  else if Nat.eqb n 93 then Some RBrack
  else if Nat.eqb n 58 then Some Colon
  else if Nat.eqb n 44 then Some Comma
  else None.

Fixpoint lex (fuel : nat) (s : list ascii) : option (list token) :=
  match fuel with
  | 0 => None
  | S fuel =>
      match s with
      | [] => Some []
      | a :: s' =>
          if is_ws a then lex fuel s'
          else match punct a with
          | Some t => option_map (cons t) (lex fuel s')
          | None =>
              if Ascii.eqb a dquote then
                match lex_string s' [] with
                | Some (str, rest) => option_map (cons (TStr str)) (lex fuel rest)
                | None => None
                end
              else if is_digit a then
                let '(n, rest) := lex_digits s 0%Z in
                option_map (cons (TInt n)) (lex fuel rest)
              else if Nat.eqb (nat_of_ascii a) 45 then
                match s' with
                | d :: _ =>
                    if is_digit d then
                      let '(n, rest) := lex_digits s' 0%Z in
                      option_map (cons (TInt (- n)%Z)) (lex fuel rest)
                    else None
                | [] => None
                end
              else if is_letter a then
                let '(w, rest) := lex_letters s [] in
                option_map (cons (TWord w)) (lex fuel rest)
              else None
          end
      end
  end.

(** [d[k] = v] *)
Fixpoint dict_set (k : string) (v : pyval) (d : list (string * pyval))
    : list (string * pyval) :=
  match d with
  | [] => [(k, v)]
  | (k', v') :: d' =>
      if String.eqb k k' then (k', v) :: d' else (k', v') :: dict_set k v d'
  end.

Fixpoint parse (fuel : nat) (ts : list token) : option (pyval * list token) :=
  match fuel with
  | 0 => None
  | S fuel =>
      match ts with
      | TStr s :: r => Some (PStr s, r)
      | TInt n :: r => Some (PInt n, r)
      | TWord w :: r =>
          if String.eqb w "true" then Some (PBool true, r)
          else if String.eqb w "false" then Some (PBool false, r)
          else if String.eqb w "null" then Some (PNone, r)
          else None
      | LBrack :: RBrack :: r => Some (PList [], r)
      | LBrack :: r =>
          (fix elements (n : nat) (ts : list token) (acc : list pyval)
             : option (pyval * list token) :=
             match n with
             | 0 => None
             | S n =>
                 match parse fuel ts with
                 | Some (v, Comma :: r') => elements n r' (v :: acc)
                 | Some (v, RBrack :: r') => Some (PList (rev (v :: acc)), r')
                 | _ => None
                 end
             end) fuel r []
      | LBrace :: RBrace :: r => Some (PDict [], r)
      | LBrace :: r =>
          (fix members (n : nat) (ts : list token) (acc : list (string * pyval))
             : option (pyval * list token) :=
             match n with
             | 0 => None
             | S n =>
                 match ts with
                 | TStr k :: Colon :: r' =>
                     match parse fuel r' with
                     | Some (v, Comma :: r'') => members n r'' (dict_set k v acc)
                     | Some (v, RBrace :: r'') => Some (PDict (dict_set k v acc), r'')
                     | _ => None
                     end
                 | _ => None
                 end
             end) fuel r []
      | _ => None
      end
  end.

(** Python's default recursion limit. *)
Definition recursion_limit : nat := 1000.

(** The deepest nesting of open brackets and braces among the tokens. *)
Fixpoint nesting (ts : list token) (depth deepest : nat) : nat :=
  match ts with
  | [] => deepest
  | (LBrack | LBrace) :: r => nesting r (S depth) (Nat.max deepest (S depth))
  | (RBrack | RBrace) :: r => nesting r (Nat.pred depth) deepest
  | _ :: r => nesting r depth deepest
  end.

(** [json.loads] on the supported fragment. *)
Definition json_loads (line : string) : decoded :=
  let chars := list_ascii_of_string line in
  match lex (S (List.length chars)) chars with
  | Some ts =>
      if Nat.ltb recursion_limit (nesting ts 0 0) then DecodeRaised RecursionError
      else
        match parse (S (List.length ts)) ts with
        | Some (v, []) => Decoded v
        | _ => JSONDecodeError
        end
  | None => JSONDecodeError
  end.

(** Writing frames: a string literal, a one-key object. *)
Definition quoted (s : string) : string :=
  (String dquote s ++ String dquote EmptyString)%string.

Definition member (k v : string) : string :=
  ("{" ++ quoted k ++ ":" ++ v ++ "}")%string.

(** [{"message":{"content":"<text>"}}] *)
Definition content_frame (text : string) : string :=
  member "message" (member "content" (quoted text)).

(** [{"done":true}] *)
Definition done_frame : string := member "done" "true".

End Json.

(* ================================================================== *)
(** * Vocabulary of the properties *)
(* ================================================================== *)

(** ** Classifier *)

(** The four scored categories in the order of the pattern table. *)
Definition categories : list TaskType := [CODE; RESEARCH; PLANNING; QUICK].

(** Position in the declaration order of [TaskType]. *)
Definition rank (t : TaskType) : nat :=
  match t with
  | CODE => 0 | RESEARCH => 1 | PLANNING => 2 | QUICK => 3 | GENERAL => 4
  end.

Fixpoint patterns_in (table : list (TaskType * list Re.regex)) (t : TaskType)
    : list Re.regex :=
  match table with
  | [] => []
  | (t', ps) :: rest => if task_eqb t t' then ps else patterns_in rest t
  end.

(** The pattern-match count of a category: how many of its rules are found
    in the lower-cased query. *)
Definition match_count (query : string) (t : TaskType) : nat :=
  List.length
    (filter (fun p => Re.search p (lower query)) (patterns_in intent_patterns t)).

Section Counting.
(** Counting for any matcher. *)
Variable matches : Re.regex -> bool.

Definition hits (ps : list Re.regex) : nat := List.length (filter matches ps).

(** [max] over the five items, by the four counts. *)
Definition count4 (a b c d : nat) (t : TaskType) : nat :=
  match t with
  | CODE => a | RESEARCH => b | PLANNING => c | QUICK => d | GENERAL => 0
  end.

Definition count_of (t : TaskType) : nat := hits (patterns_in intent_patterns t).
End Counting.

(** ** Events and sessions *)

(** Reading the triple that a generator run produces. *)
Definition events_of {S A} (x : list event * S * result A) : list event :=
  fst (fst x).
Definition state_of {S A} (x : list event * S * result A) : S :=
  snd (fst x).
Definition outcome_of {S A} (x : list event * S * result A) : result A :=
  snd x.

Definition is_error (e : event) : bool :=
  match e with Error _ _ => true | _ => false end.
Definition is_complete (e : event) : bool :=
  match e with Complete _ _ => true | _ => false end.
Definition is_content (e : event) : bool :=
  match e with Content _ _ => true | _ => false end.
Definition is_model_selected (e : event) : bool :=
  match e with ModelSelected _ _ _ => true | _ => false end.

Definition count_errors (evs : list event) : nat :=
  List.length (filter is_error evs).
Definition count_completes (evs : list event) : nat :=
  List.length (filter is_complete evs).

(** The last event is an [Error]. *)
Definition ends_with_error (evs : list event) : bool :=
  match rev evs with
  | e :: _ => is_error e
  | [] => false
  end.

(** The texts carried by the [Complete] events. *)
Definition completes (evs : list event) : list string :=
  flat_map (fun e => match e with Complete f _ => [f] | _ => [] end) evs.



(** Events of the loop body. *)
Definition body_event (e : event) : bool := is_content e || is_complete e.

(** What one decoded chunk says, without the effects: the text it carries
    with the raw [done] value shown next to it, and whether it is
    terminal.  Either reading can raise on an ill-typed chunk. *)
Definition chunk_text (chunk : pyval) : result (option (string * pyval)) :=
  let? has_message := py_contains "message" chunk in
  if has_message : bool then
    let? msg := py_getitem chunk "message" in
    let? content := py_get msg "content" (PStr EmptyString) in
    if truthy content then
      match content with
      | PStr text =>
          let? done := py_get chunk "done" (PBool false) in
          ret (Some (text, done))
      | _ => raise TypeError
      end
    else ret None
  else ret None.

Definition chunk_done (chunk : pyval) : result bool :=
  let? done := py_get chunk "done" (PBool false) in
  ret (truthy done).

(** The session after [self.conversation_history.append(assistant turn)]. *)
Definition committed_turn (full_response : string) (s : session) : session :=
  {| self := {| conversation_history :=
                  conversation_history (self s) ++ [Message "assistant" full_response];
                current_model := current_model (self s) |};
     posted := posted s |}.

(** The session once the user turn is in the history (lines 75-89). *)
Definition started (model_name : pyval) (query : string) (s : session) : session :=
  {| self := {| conversation_history :=
                  conversation_history (self s) ++ [Message "user" query];
                current_model := Some model_name |};
     posted := posted s |}.

Definition sent (p : payload) (s : session) : session :=
  {| self := self s; posted := posted s ++ [p] |}.

Section Frames.
Variable json_loads : string -> decoded.

(** The chunk that the loop body works on, if any: there is none for a
    blank line and for a line on which [json.loads] raises. *)
Definition frame_of (line : string) : option pyval :=
  if blank line then None
  else match json_loads line with
       | Decoded chunk => Some chunk
       | _ => None
       end.

(** What [json.loads] raises on the line other than [JSONDecodeError],
    if the line gets that far. *)
Definition decode_raises (line : string) : option py_exn :=
  if blank line then None
  else match json_loads line with
       | DecodeRaised e => Some e
       | _ => None
       end.

(** The line delivers a frame with a true [done]. *)
Definition done_line (line : string) : bool :=
  match frame_of line with
  | Some chunk => match chunk_done chunk with inr true => true | _ => false end
  | None => false
  end.

(** Handling the line raises: [json.loads] raises something other than
    [JSONDecodeError], or the frame is ill-typed. *)
Definition faulty_line (line : string) : bool :=
  match decode_raises line with
  | Some _ => true
  | None =>
      match frame_of line with
      | Some chunk =>
          match chunk_text chunk, chunk_done chunk with
          | inr _, inr _ => false
          | _, _ => true
          end
      | None => false
      end
  end.

(** The text fragment of a line, with the [done] value shown with it. *)
Definition line_content (line : string) : list (string * pyval) :=
  match frame_of line with
  | Some chunk =>
      match chunk_text chunk with
      | inr (Some td) => [td]
      | _ => []
      end
  | None => []
  end.

Definition content_events (ls : list string) : list event :=
  map (fun td => Content (fst td) (snd td)) (flat_map line_content ls).

(** [full_response] after the fragments of [ls] have been added to [full]. *)
Definition accumulate (full : string) (ls : list string) : string :=
  fold_left String.append (map fst (flat_map line_content ls)) full.

Definition no_done (ls : list string) : bool :=
  forallb (fun l => negb (done_line l)) ls.

Definition no_faulty (ls : list string) : bool :=
  forallb (fun l => negb (faulty_line l)) ls.

(** [json.loads] does not raise [JSONDecodeError] on the line. *)
Definition decodable (line : string) : bool :=
  match json_loads line with JSONDecodeError => false | _ => true end.
End Frames.

(** The request body built from that session (lines 92-104). *)
Definition request (system_prompt : string) (model_name : pyval)
    (stream : bool) (temp : pyval) (s : session) : payload :=
  {| p_model := model_name;
     p_messages := _prepare_messages system_prompt (self s);
     p_stream := stream;
     p_temperature := temp |}.

(** ** Store *)

Module StoreSpec.
Import Store.

(** The message row that [add_message] inserts. *)
Definition new_message (now : nat) (conversation_id : Z) (role content : string)
    (model : option string) (db : DB) : message_row :=
  {| m_id := (seq_messages db + 1)%Z; m_conversation_id := conversation_id;
     m_role := role; m_content := content; m_model := model;
     m_timestamp := now |}.

(** No stored timestamp is later than [now]: the clock that stamps the
    rows does not run backwards. *)
Definition clock_ok (now : nat) (db : DB) : Prop :=
  Forall (fun m => m_timestamp m <= now) (messages db) /\
  Forall (fun c => c_updated_at c <= now) (conversations db).

(** The index holds one row for each stored message, with its content and
    conversation, in the same order. *)
Definition index_consistent (db : DB) : Prop :=
  messages_fts db
  = map (fun m => {| f_content := m_content m;
                     f_conversation_id := m_conversation_id m |})
        (messages db).

Definition has_conversation (conversation_id : Z) (db : DB) : bool :=
  existsb (fun c => Z.eqb (c_id c) conversation_id) (conversations db).

(** The calls that change the database. *)
Inductive op : Type :=
| Create (title : string) (model : option string)
| Add (conversation_id : Z) (role content : string) (model : option string)
| Delete (conversation_id : Z)
| Clear.

Definition apply_op (now : nat) (o : op) (db : DB) : DB :=
  match o with
  | Create title model => fst (create_conversation now title model db)
  | Add cid role content model => add_message now cid role content model db
  | Delete cid => delete_conversation cid db
  | Clear => clear_all_history db
  end.

End StoreSpec.

(** ** A stand-in for the full-text engine on one-word queries *)

Module SampleFts.

Definition is_alnum (a : ascii) : bool :=
  let n := nat_of_ascii a in
  Re.nat_in 97 122 n || Re.nat_in 65 90 n || Re.nat_in 48 57 n.

(** The words of a text: maximal runs of letters and digits, lower-cased. *)
Fixpoint words_of (s : list ascii) (cur : list ascii) : list (list ascii) :=
  match s with
  | [] => match cur with [] => [] | _ => [rev cur] end
  | a :: s' =>
      if is_alnum a then words_of s' (Re.lower_ascii a :: cur)
      else match cur with
           | [] => words_of s' []
           | _ => rev cur :: words_of s' []
           end
  end.

Fixpoint chars_eqb (a b : list ascii) : bool :=
  match a, b with
  | [], [] => true
  | x :: a', y :: b' => Ascii.eqb x y && chars_eqb a' b'
  | _, _ => false
  end.

Definition has_word (query content : string) : bool :=
  existsb (chars_eqb (map Re.lower_ascii (list_ascii_of_string query)))
          (words_of (list_ascii_of_string content) []).

(** A query of letters and digits is accepted and matches the contents
    that have it as a word; any other query is rejected. *)
Definition fts5_match (query : string) : option (string -> bool) :=
  let chars := list_ascii_of_string query in
  match chars with
  | [] => None
  | _ => if forallb is_alnum chars then Some (has_word query) else None
  end.

End SampleFts.

(** ** Data for concrete runs *)

(** A configuration for concrete runs: the registry that [nexus_chat.py]
    falls back to, and a temperature. *)
Definition sample_registry : registry :=
  [("default", PDict [("name", PStr "deepseek-v3.1:671b-cloud");
                      ("role", PStr "Core Intelligence Brain")])].

Definition sample_config : Config :=
  {| models := sample_registry;
     base_url := "http://localhost:11434";
     temperature := Some (PFloat 7 (-1)) |}.

Definition fresh_core : NexusCore :=
  {| conversation_history := []; current_model := None |}.

Definition fresh_session : session :=
  {| self := fresh_core; posted := [] |}.

Definition fresh_world : Api.world :=
  {| Api.nexus := fresh_session; Api.chat_manager := Store.empty_db |}.

Definition sample_prompt : string := "You are NEXUS.".

Definition sample_name : pyval := PStr "deepseek-v3.1:671b-cloud".
Definition sample_role : pyval := PStr "Core Intelligence Brain".

(** The spec's two simulated backends, and some more. *)
Definition hello_stream : response :=
  {| lines := [Json.content_frame "Hel"; Json.content_frame "lo"; Json.done_frame];
     failure := None |}.

Definition partial_stream : response :=
  {| lines := [Json.content_frame "Hel"]; failure := None |}.

Definition timed_out_stream : response :=
  {| lines := [Json.content_frame "Hel"]; failure := Some "timed out" |}.

Definition twice_done_stream : response :=
  {| lines := [Json.done_frame; Json.done_frame]; failure := None |}.

Definition garbled_stream : response :=
  {| lines := [Json.content_frame "Hel"; "{not json"; Json.content_frame "lo";
               Json.done_frame];
     failure := None |}.

(** A line of 2000 opening brackets: [json.loads] raises [RecursionError]
    on it. *)
Definition deep_line : string :=
  string_of_list_ascii (repeat "["%char 2000).

Definition deep_stream : response :=
  {| lines := [Json.content_frame "Hel"; deep_line; Json.content_frame "lo";
               Json.done_frame];
     failure := None |}.

(** Nine terminal frames, then the connection breaks. *)
Definition nine_done_stream : response :=
  {| lines := repeat Json.done_frame 9; failure := Some "timed out" |}.

Definition sample_chat (message : string) (resp : response) (w : Api.world)
    : list event * Api.world * result unit :=
  Api.chat Json.json_loads sample_prompt sample_config message resp w.

Definition sample_generate (query : string) (resp : response) (s : session)
    : list event * session * result unit :=
  generate_response Json.json_loads sample_prompt sample_config query true resp s.

(** A database with one conversation and one earlier message. *)
Definition one_conversation : Store.DB :=
  Store.add_message 3 1 "user" "first" None
    (fst (Store.create_conversation 2 "Greetings" None Store.empty_db)).

(* ================================================================== *)
(** * More of the code: vocabulary for the store *)
(* ================================================================== *)

Module StoreInv.
Import Store StoreSpec.

(** [a] may stand before [b] in the result of [order_by before]: [b] does
    not sort strictly before [a]. *)
Definition in_order {A} (before : A -> A -> bool) (a b : A) : Prop :=
  before b a = false.

(** Conversation ids are positive, not above the [AUTOINCREMENT] counter,
    and pairwise different ([id INTEGER PRIMARY KEY AUTOINCREMENT]). *)
Definition ids_ok (db : DB) : Prop :=
  (0 <= seq_conversations db)%Z /\
  Forall (fun c => (0 < c_id c <= seq_conversations db)%Z) (conversations db) /\
  NoDup (map c_id (conversations db)).

(** The messages stored for a conversation id. *)
Definition messages_of (conversation_id : Z) (db : DB) : list message_row :=
  filter (fun m => Z.eqb (m_conversation_id m) conversation_id) (messages db).

(** Every conversation row counts its stored messages. *)
Definition counts_ok (db : DB) : Prop :=
  Forall (fun c => c_message_count c
                   = Z.of_nat (List.length (messages_of (c_id c) db)))
         (conversations db).

(** Every message belongs to a stored conversation. *)
Definition no_orphans (db : DB) : Prop :=
  Forall (fun m => has_conversation (m_conversation_id m) db = true)
         (messages db).

Definition store_ok (db : DB) : Prop :=
  ids_ok db /\ counts_ok db /\ no_orphans db.

(** The call does not add a message to a conversation that is missing. *)
Definition targets_existing (o : op) (db : DB) : bool :=
  match o with
  | Add conversation_id _ _ _ => has_conversation conversation_id db
  | _ => true
  end.

(** A history of calls, each with the time at which it runs. *)
Fixpoint replay (log : list (nat * op)) (db : DB) : DB :=
  match log with
  | [] => db
  | (now, o) :: rest => replay rest (apply_op now o db)
  end.

Fixpoint adds_to_existing (log : list (nat * op)) (db : DB) : bool :=
  match log with
  | [] => true
  | (now, o) :: rest =>
      targets_existing o db && adds_to_existing rest (apply_op now o db)
  end.

(** The ids that the [create_conversation] calls of a history return. *)
Fixpoint created_ids (log : list (nat * op)) (db : DB) : list Z :=
  match log with
  | [] => []
  | (now, o) :: rest =>
      match o with
      | Create title model =>
          snd (create_conversation now title model db)
            :: created_ids rest (apply_op now o db)
      | _ => created_ids rest (apply_op now o db)
      end
  end.

(** A history for concrete runs: two conversations, messages in both, the
    first one deleted, a third one created. *)
Definition sample_log : list (nat * op) :=
  [ (1, Create "first" None);
    (2, Add 1 "user" "hello" None);
    (2, Create "second" (Some "m"));
    (3, Add 2 "user" "question" None);
    (3, Add 2 "assistant" "answer" (Some "m"));
    (4, Add 1 "assistant" "hi" None);
    (5, Delete 1);
    (6, Create "third" None) ].

End StoreInv.

(* ================================================================== *)
(** * More of the code: core, routes, command-line chatbot *)
(* ================================================================== *)

(** ** nexus_core.py: the other methods *)

Module Core.

(** The dict returned by [get_stats]. *)
Record stats : Type := {
  total_messages : nat;
  stats_current_model : option pyval;
  models_config : list pyval
}.

(** [NexusCore.get_stats] *)
Definition get_stats (cfg : Config) (core : NexusCore) : result stats :=
  let total := List.length (conversation_history core) in
  let current := current_model core in
  let? all := get_all_models (models cfg) in
  ret {| total_messages := total; stats_current_model := current;
         models_config := all |}.






Section Status.
(** Python's [==] on the values at hand, as [in] applies it. *)
Variable py_eq : pyval -> pyval -> bool.



End Status.

End Core.

(** ** What the events say about the text *)

(** The fragments of the [Content] events, in order. *)
Definition texts_of (evs : list event) : list string :=
  flat_map (fun e => match e with Content t _ => [t] | _ => [] end) evs.

(** The fragments joined onto [acc]. *)
Definition joined_text (acc : string) (evs : list event) : string :=
  fold_left String.append (texts_of evs) acc.

(** Every [Complete] carries the fragments joined so far, starting from
    [acc]. *)
Fixpoint completes_carry (acc : string) (evs : list event) : Prop :=
  match evs with
  | [] => True
  | Content t _ :: rest => completes_carry (acc ++ t)%string rest
  | Complete f _ :: rest => f = acc /\ completes_carry acc rest
  | _ :: rest => completes_carry acc rest
  end.

(** ** api.py: the other routes *)

Module ApiRoutes.

(** The three locals from which [POST /chat] with [stream = False] builds
    its [ChatResponse]. *)
Record chat_answer : Type := {
  answer_text : string;
  answer_model : option pyval;
  answer_task_type : option string
}.

(** One turn of the loop over the chunks. *)
Definition absorb (a : chat_answer) (chunk : event) : chat_answer :=
  match chunk with
  | ModelSelected model _ task_type =>
      {| answer_text := answer_text a; answer_model := Some model;
         answer_task_type := Some task_type |}
  | Content text _ =>
      {| answer_text := (answer_text a ++ text)%string;
         answer_model := answer_model a;
         answer_task_type := answer_task_type a |}
  | _ => a
  end.

Definition drain (evs : list event) : chat_answer :=
  fold_left absorb evs
    {| answer_text := EmptyString; answer_model := None; answer_task_type := None |}.

(** What a handler of the socket loop can be stopped by. *)
Inductive ws_error : Type :=
| BadJson
| WsRaised (e : py_exn).

(** How the socket loop ends: the client goes away, or the handler closes
    the socket after an exception. *)
Inductive ws_end : Type :=
| ClientDisconnected
| SocketClosed (e : ws_error).

Section Routes.
Variable json_loads : string -> decoded.
Variable system_prompt : string.
Variable cfg : Config.

(** [POST /chat] with [stream = False]: the generator is drained; an
    exception of the generator leaves the handler. *)
Definition chat_blocking (message : string) (resp : response) (w : Api.world)
    : result chat_answer * Api.world :=
  match generate_response json_loads system_prompt cfg message true resp
                          (Api.nexus w) with
  | (evs, s', inl e) =>
      (inl e, {| Api.nexus := s'; Api.chat_manager := Api.chat_manager w |})
  | (evs, s', inr _) =>
      (inr (drain evs),
       {| Api.nexus := s'; Api.chat_manager := Api.chat_manager w |})
  end.

(** The work of [/ws] on one received text: [None] when the loop goes on
    to the next text, [Some e] when an exception ends it.  The events are
    what is sent to the client. *)
Definition on_text (data : string) (resp : response) (s : session)
    : list event * session * option ws_error :=
  match json_loads data with
  | JSONDecodeError => ([], s, Some BadJson)
  | DecodeRaised e => ([], s, Some (WsRaised e))
  | Decoded message_data =>
      match py_get message_data "message" (PStr EmptyString) with
      | inl e => ([], s, Some (WsRaised e))
      | inr query =>
          if truthy query then
            match query with
            | PStr q =>
                match generate_response json_loads system_prompt cfg q true
                                        resp s with
                | (evs, s', inl e) => (evs, s', Some (WsRaised e))
                | (evs, s', inr _) => (evs, s', None)
                end
            | _ => ([], s, Some (WsRaised AttributeError))   (* query.lower() *)
            end
          else ([], s, None)
      end
  end.

(** [websocket_endpoint]: the texts that the client sends, each with what
    the backend would answer to the call it may cause. *)
Fixpoint websocket_endpoint (incoming : list (string * response)) (s : session)
    : list event * session * ws_end :=
  match incoming with
  | [] => ([], s, ClientDisconnected)
  | (data, resp) :: rest =>
      match on_text data resp s with
      | (evs, s', Some e) => (evs, s', SocketClosed e)
      | (evs, s', None) =>
          match websocket_endpoint rest s' with
          | (evs', s'', fin) => (evs ++ evs', s'', fin)
          end
      end
  end.
End Routes.

End ApiRoutes.

(** ** nexus_chat.py: [NexusChatbot.chat] *)

Module Cli.

(** What [chat] prints. *)
Inductive output : Type :=
| PrintHeader (model : pyval)
| PrintText (content : pyval)
| PrintEnd
| PrintError (e : py_exn).

(** The request body: no [options] here. *)
Record cli_payload : Type := {
  c_model : pyval;
  c_messages : list message;
  c_stream : bool
}.

(** What the backend does with the request: the streaming call cannot be
    opened, or it is opened and answers as [resp] says. *)
Inductive backend : Type :=
| Refused (msg : string)
| Opened (resp : response).

(** The chatbot, its terminal and the requests it has issued. *)
Record chatbot : Type := {
  history : list message;
  model : pyval;
  printed : list output;
  requests : list cli_payload
}.

(** Lines 95-100: the work done for one decoded chunk; the local
    [full_response] goes in and comes out. *)
Definition on_chunk (chunk : pyval) (full_response : string)
    (out : list output) : list output * result string :=
  match py_contains "message" chunk with
  | inl e => (out, inl e)
  | inr false => (out, inr full_response)
  | inr true =>
      match py_getitem chunk "message" with
      | inl e => (out, inl e)
      | inr msg =>
          match py_get msg "content" (PStr EmptyString) with
          | inl e => (out, inl e)
          | inr content =>
              if truthy content then
                match content with
                | PStr text =>
                    (out ++ [PrintText content],
                     inr (full_response ++ text)%string)
                | _ => (out ++ [PrintText content], inl TypeError)
                end
              else (out, inr full_response)
          end
      end
  end.

Section Chat.
Variable json_loads : string -> decoded.
(** The text returned by [get_system_prompt]. *)
Variable system_prompt : string.

(** Lines 92-102: the loop over the lines. *)
Fixpoint stream_loop (ls : list string) (full_response : string)
    (out : list output) : list output * result string :=
  match ls with
  | [] => (out, inr full_response)
  | line :: rest =>
      if blank line then stream_loop rest full_response out
      else
        match json_loads line with
        | JSONDecodeError => stream_loop rest full_response out
        | DecodeRaised e => (out, inl e)
        | Decoded chunk =>
            match on_chunk chunk full_response out with
            | (out', inl e) => (out', inl e)
            | (out', inr full_response') => stream_loop rest full_response' out'
            end
        end
  end.

(** [NexusChatbot.chat] *)
Definition chat (user_message : string) (b : backend) (bot : chatbot)
    : chatbot :=
  let history1 := history bot ++ [Message "user" user_message] in
  let messages := [Message "system" system_prompt] ++ last_n 10 history1 in
  let request := {| c_model := model bot; c_messages := messages;
                    c_stream := true |} in
  let requests1 := requests bot ++ [request] in
  match b with
  | Refused msg =>
      {| history := history1; model := model bot;
         printed := printed bot ++ [PrintError (TransportError msg)];
         requests := requests1 |}
  | Opened resp =>
      let out0 := printed bot ++ [PrintHeader (model bot)] in
      match stream_loop (lines resp) EmptyString out0 with
      | (out, inl e) =>
          {| history := history1; model := model bot;
             printed := out ++ [PrintError e]; requests := requests1 |}
      | (out, inr full_response) =>
          match failure resp with
          | Some msg =>
              {| history := history1; model := model bot;
                 printed := out ++ [PrintError (TransportError msg)];
                 requests := requests1 |}
          | None =>
              {| history := history1 ++ [Message "assistant" full_response];
                 model := model bot;
                 printed := out ++ [PrintEnd]; requests := requests1 |}
          end
      end
  end.
End Chat.

(** *** [NexusChatbot.select_model] *)

(** What the menu prints. *)
Inductive menu_output : Type :=
| PrintMenuHeader
| PrintOption (i : nat) (model_name role : pyval)
| PrintPrompt
| PrintInvalid
| PrintExiting.

(** What [input()] does each time it is called: a line is typed, or the
    user presses Ctrl-C. *)
Inductive keyboard : Type :=
| Typed (line : string)
| CtrlC.

(** How [select_model] ends: it returns a model, it returns [None], it
    raises, or it is still waiting for a line when the input at hand is
    used up. *)
Inductive selection : Type :=
| Selected (model_name : pyval)
| NoSelection
| SelectionRaised (e : py_exn)
| WaitingForInput.

Section Menu.
(** Python's [==] on the values at hand. *)
Variable py_eq : pyval -> pyval -> bool.
(** [key.title()], [choice.strip()], and [int(choice)] ([None] for
    [ValueError]). *)
Variable title : string -> string.
Variable strip : string -> string.
Variable py_int : string -> option Z.

(** [self.config['ollama']['models'].get('default', {}).get('name')] *)
Definition default_name (models : registry) : result pyval :=
  let default := match assoc "default" models with
                 | Some info => info
                 | None => PDict []
                 end in
  py_get default "name" PNone.

(** Lines 129-133: the role shown next to a model. *)
Fixpoint role_of (model_name : pyval) (models : registry) : result pyval :=
  match models with
  | [] => ret (PStr "AI Model")
  | (key, info) :: rest =>
      let? name := py_get info "name" PNone in
      if py_eq name model_name then py_get info "role" (PStr (title key))
      else role_of model_name rest
  end.

(** Lines 126-136: the loop that prints the options and collects them. *)
Fixpoint list_options (i : nat) (available_models : list pyval)
    (models : registry) (model_options : list pyval) (out : list menu_output)
    : list menu_output * result (list pyval) :=
  match available_models with
  | [] => (out, ret model_options)
  | model_name :: rest =>
      match role_of model_name models with
      | inl e => (out, inl e)
      | inr role =>
          list_options (S i) rest models (model_options ++ [model_name])
                       (out ++ [PrintOption i model_name role])
      end
  end.

(** Lines 141-150: the loop that asks for a number.  The subscript
    [model_options[idx]] is within bounds where it is evaluated. *)
Fixpoint ask (keys : list keyboard) (model_options : list pyval)
    (out : list menu_output) : list menu_output * selection :=
  match keys with
  | [] => (out ++ [PrintPrompt], WaitingForInput)
  | CtrlC :: _ => (out ++ [PrintPrompt; PrintExiting], NoSelection)
  | Typed line :: rest =>
      match py_int (strip line) with
      | None => (out ++ [PrintPrompt; PrintExiting], NoSelection)
      | Some n =>
          let idx := (n - 1)%Z in
          if Z.leb 0 idx && Z.ltb idx (Z.of_nat (List.length model_options))
          then (out ++ [PrintPrompt],
                Selected (nth (Z.to_nat idx) model_options PNone))
          else ask rest model_options (out ++ [PrintPrompt; PrintInvalid])
      end
  end.

(** [NexusChatbot.select_model] *)
Definition select_model (models : registry) (available_models : list pyval)
    (keys : list keyboard) : list menu_output * selection :=
  match default_name models with
  | inl e => ([], SelectionRaised e)
  | inr default_model =>
      if existsb (py_eq default_model) available_models
      then ([], Selected default_model)
      else
        match list_options 1 available_models models [] [PrintMenuHeader] with
        | (out, inl e) => (out, SelectionRaised e)
        | (out, inr model_options) =>
            match model_options with
            | [only] => (out, Selected only)
            | _ => ask keys model_options out
            end
        end
  end.
End Menu.

End Cli.

(** ** file_handler.py, and the upload route *)

Module Files.

(** A [str]: its code points.  A [bytes]: its bytes. *)
Definition text : Type := list N.
Definition bytes : Type := list Byte.byte.

Definition SUPPORTED_TEXT : list string :=
  [".txt"; ".md"; ".py"; ".js"; ".json"; ".yaml"; ".yml"; ".xml"; ".html"; ".css"].
Definition SUPPORTED_DOCS : list string := [".pdf"; ".docx"].
Definition SUPPORTED_IMAGES : list string :=
  [".jpg"; ".jpeg"; ".png"; ".gif"; ".webp"; ".bmp"].

(** [suffix in set] *)
Definition mem (suffix : string) (set : list string) : bool :=
  existsb (String.eqb suffix) set.

(** ['...'] and ['\n\n'] *)
Definition dots : text := [46%N; 46%N; 46%N].
Definition blank_line : text := [10%N; 10%N].

(** [text[:500] + ('...' if len(text) > 500 else '')] *)
Definition preview_of (t : text) : text :=
  firstn 500 t ++ (if Nat.ltb 500 (List.length t) then dots else []).

(** [sep.join(parts)] *)
Fixpoint join (sep : text) (parts : list text) : text :=
  match parts with
  | [] => []
  | [p] => p
  | p :: rest => p ++ sep ++ join sep rest
  end.

(** [content.decode('latin-1')]: every byte is the code point of the
    same value. *)
Definition decode_latin1 (content : bytes) : option text :=
  Some (map Byte.to_N content).

(** The dicts with ['success': True], by their ['type'].  For an image,
    ['content'] and ['preview'] are formatted from the fields shown. *)
Inductive file_info : Type :=
| TextInfo (filename : string) (content : text) (size : nat) (preview : text)
| PdfInfo (filename : string) (content : text) (pages : nat) (size : nat)
          (preview : text)
| DocxInfo (filename : string) (content : text) (paragraphs : nat) (size : nat)
           (preview : text)
| ImageInfo (filename : string) (width height : nat) (format : string)
            (size : nat).

Section Handler.
(** What the libraries raise. *)
Variable lib_error : Type.
(** [Path(filename).suffix.lower()] *)
Variable suffix_lower : string -> string.
(** [content.decode('utf-8')] and [content.decode('cp1252')]: [None] when
    they raise. *)
Variable decode_utf8 : bytes -> option text.
Variable decode_cp1252 : bytes -> option text.
(** The [UnicodeDecodeError] of the first attempt, as re-raised by the
    bare [raise]. *)
Variable unicode_decode_error : bytes -> lib_error.
(** [[page.extract_text() for page in PdfReader(...).pages]] *)
Variable pdf_pages : bytes -> lib_error + list text.
(** [[para.text for para in Document(...).paragraphs]] *)
Variable docx_paragraphs : bytes -> lib_error + list text.
(** [t.strip()] is empty *)
Variable blank_text : text -> bool.
(** [Image.open(...)]: width, height and format *)
Variable image_open : bytes -> lib_error + (nat * nat * string).

(** What [process_file] returns: a success dict, or one of the two dicts
    with ['success': False]. *)
Inductive file_result : Type :=
| Success (info : file_info)
| Unsupported (suffix : string)
| ProcessingFailed (e : lib_error).

(** Lines 61-74: the loop over the other encodings. *)
Fixpoint try_encodings (encodings : list (bytes -> option text))
    (filename : string) (content : bytes) : lib_error + file_info :=
  match encodings with
  | [] => inl (unicode_decode_error content)
  | decode :: rest =>
      match decode content with
      | Some t =>
          inr (TextInfo filename t (List.length content) (preview_of t))
      | None => try_encodings rest filename content
      end
  end.

(** [FileHandler._process_text] *)
Definition _process_text (filename : string) (content : bytes)
    : lib_error + file_info :=
  match decode_utf8 content with
  | Some t => inr (TextInfo filename t (List.length content) (preview_of t))
  | None => try_encodings [decode_latin1; decode_cp1252] filename content
  end.

(** [FileHandler._process_pdf] *)
Definition _process_pdf (filename : string) (content : bytes)
    : lib_error + file_info :=
  match pdf_pages content with
  | inl e => inl e
  | inr text_parts =>
      let full_text := join blank_line text_parts in
      inr (PdfInfo filename full_text (List.length text_parts)
                   (List.length content) (preview_of full_text))
  end.

(** [FileHandler._process_docx] *)
Definition _process_docx (filename : string) (content : bytes)
    : lib_error + file_info :=
  match docx_paragraphs content with
  | inl e => inl e
  | inr paragraphs =>
      let text_parts := filter (fun t => negb (blank_text t)) paragraphs in
      let full_text := join blank_line text_parts in
      inr (DocxInfo filename full_text (List.length text_parts)
                    (List.length content) (preview_of full_text))
  end.

(** [FileHandler._process_image] *)
Definition _process_image (filename : string) (content : bytes)
    : lib_error + file_info :=
  match image_open content with
  | inl e => inl e
  | inr (width, height, format) =>
      inr (ImageInfo filename width height format (List.length content))
  end.

(** The [try] block of [process_file]. *)
Definition dispatch (filename : string) (content : bytes)
    : lib_error + file_result :=
  let suffix := suffix_lower filename in
  let done (r : lib_error + file_info) : lib_error + file_result :=
    match r with
    | inl e => inl e
    | inr info => inr (Success info)
    end in
  if mem suffix SUPPORTED_TEXT then done (_process_text filename content)
  else if String.eqb suffix ".pdf" then done (_process_pdf filename content)
  else if String.eqb suffix ".docx" then done (_process_docx filename content)
  else if mem suffix SUPPORTED_IMAGES then done (_process_image filename content)
  else inr (Unsupported suffix).

(** [FileHandler.process_file] *)
Definition process_file (filename : string) (content : bytes) : file_result :=
  match dispatch filename content with
  | inl e => ProcessingFailed e
  | inr r => r
  end.

(** [FileHandler.is_supported] *)
Definition is_supported (filename : string) : bool :=
  let suffix := suffix_lower filename in
  mem suffix (SUPPORTED_TEXT ++ SUPPORTED_DOCS ++ SUPPORTED_IMAGES).

(** [POST /upload] in [api.py]: status 400, or what [process_file]
    returns. *)
Inductive upload_answer : Type :=
| Rejected
| Processed (r : file_result).

Definition upload_file (filename : string) (content : bytes) : upload_answer :=
  if negb (is_supported filename) then Rejected
  else Processed (process_file filename content).
End Handler.

(** The text and the preview of a success dict that carries a text. *)
Definition content_of (info : file_info) : option (text * text) :=
  match info with
  | TextInfo _ c _ p | PdfInfo _ c _ _ p | DocxInfo _ c _ _ p => Some (c, p)
  | ImageInfo _ _ _ _ _ => None
  end.

Definition size_of (info : file_info) : nat :=
  match info with
  | TextInfo _ _ n _ | PdfInfo _ _ _ n _ | DocxInfo _ _ _ n _
  | ImageInfo _ _ _ _ n => n
  end.

End Files.

(** ** pdf_generator.py: the text handed to [Paragraph] *)

Module Pdf.

(** [s.replace(old, new)] where [old] is one character. *)
Fixpoint replace_char (old : ascii) (new : string) (s : string) : string :=
  match s with
  | EmptyString => EmptyString
  | String c rest =>
      if Ascii.eqb c old then (new ++ replace_char old new rest)%string
      else String c (replace_char old new rest)
  end.

Definition newline : ascii := ascii_of_nat 10.

(** Lines 129-130 of [generate_chat_pdf]. *)
Definition safe_content (content : string) : string :=
  let safe_content :=
    replace_char ">" "&gt;"
      (replace_char "<" "&lt;" (replace_char "&" "&amp;" content)) in
  replace_char newline "<br/>" safe_content.

(** What one character of a message becomes. *)
Definition escape_char (c : ascii) : string :=
  if Ascii.eqb c "&" then "&amp;"
  else if Ascii.eqb c "<" then "&lt;"
  else if Ascii.eqb c ">" then "&gt;"
  else if Ascii.eqb c newline then "<br/>"
  else String c EmptyString.

Fixpoint escape_all (s : string) : string :=
  match s with
  | EmptyString => EmptyString
  | String c rest => (escape_char c ++ escape_all rest)%string
  end.

End Pdf.

(** ** Vocabulary for the socket loop *)

Section SocketTexts.
Variable json_loads : string -> decoded.

(** The text decodes to a dict whose ['message'] is missing or falsy: the
    loop goes on to the next text. *)
Definition skipped_text (data : string) : bool :=
  match json_loads data with
  | Decoded (PDict d) =>
      negb (truthy (match assoc "message" d with
                    | Some v => v
                    | None => PStr EmptyString
                    end))
  | _ => false
  end.

(** The text decodes to a dict whose ['message'] is a string, or is
    missing or falsy. *)
Definition well_formed_text (data : string) : bool :=
  match json_loads data with
  | Decoded (PDict d) =>
      match assoc "message" d with
      | Some (PStr _) => true
      | Some v => negb (truthy v)
      | None => true
      end
  | _ => false
  end.
End SocketTexts.

(** The three parts of what the socket loop returns. *)
Definition sent_of (y : list event * session * ApiRoutes.ws_end) : list event :=
  fst (fst y).
Definition session_of (y : list event * session * ApiRoutes.ws_end) : session :=
  snd (fst y).
Definition end_of (y : list event * session * ApiRoutes.ws_end)
    : ApiRoutes.ws_end :=
  snd y.

(** ** More data for concrete runs *)

(** A registry whose entry can be listed, and a configuration with it. *)
Definition listed_registry : registry :=
  [("default", PDict [("name", sample_name); ("role", sample_role);
                      ("use_for", PStr "everything")])].

Definition listed_config : Config :=
  {| models := listed_registry;
     base_url := "http://localhost:11434";
     temperature := Some (PFloat 7 (-1)) |}.

(** A stand-in for [Path(filename).suffix.lower()] on plain names: the
    text from the last dot on, when the dot is neither first nor last. *)
Module SamplePath.

Fixpoint last_dot (s : list ascii) (pos : nat) (found : option nat) : option nat :=
  match s with
  | [] => found
  | c :: rest =>
      last_dot rest (S pos) (if Ascii.eqb c "." then Some pos else found)
  end.

Definition suffix_lower (filename : string) : string :=
  let chars := list_ascii_of_string filename in
  match last_dot chars 0 None with
  | Some i =>
      if Nat.ltb 0 i && Nat.ltb (S i) (List.length chars)
      then string_of_list_ascii (map Re.lower_ascii (skipn i chars))
      else EmptyString
  | None => EmptyString
  end.

End SamplePath.

(* ================================================================== *)
(** * Properties of the classifier *)
(* ================================================================== *)

Lemma task_eqb_eq (a b : TaskType) : task_eqb a b = true <-> a = b.
Proof. destruct a, b; simpl; split; congruence. Qed.

Section ScoringFacts.
Variable matches : Re.regex -> bool.

#[warnings="-notation-for-abbreviation"]
Local Notation hits := (hits matches).
#[warnings="-notation-for-abbreviation"]
Local Notation count_of := (count_of matches).

(** [n] increments of one key. *)
Lemma score_patterns_iter (t : TaskType) (ps : list Re.regex) :
  forall sc, score_patterns matches t ps sc = Nat.iter (hits ps) (dict_incr t) sc.
Proof.
  unfold score_patterns, hits.
  induction ps as [|p ps IH]; intros sc; simpl.
  - reflexivity.
  - destruct (matches p); simpl.
    + rewrite IH. clear IH.
      induction (List.length (filter matches ps)) as [|n IHn]; simpl.
      * reflexivity.
      * now rewrite IHn.
    + apply IH.
Qed.

Lemma iter_incr_here (t : TaskType) (n k : nat) rest :
  Nat.iter n (dict_incr t) ((t, k) :: rest) = (t, n + k) :: rest.
Proof.
  induction n as [|n IH]; simpl.
  - reflexivity.
  - rewrite IH. simpl.
    assert (E : task_eqb t t = true) by now apply task_eqb_eq.
    now rewrite E.
Qed.

Lemma iter_incr_later (t t' : TaskType) (n k : nat) rest :
  task_eqb t t' = false ->
  Nat.iter n (dict_incr t) ((t', k) :: rest)
  = (t', k) :: Nat.iter n (dict_incr t) rest.
Proof.
  intros E. induction n as [|n IH]; simpl.
  - reflexivity.
  - rewrite IH. simpl. now rewrite E.
Qed.

(** The score dict after both loops. *)
Lemma score_all_intent_patterns :
  score_all matches intent_patterns (map (fun t => (t, 0)) all_task_types)
  = [ (CODE, hits (patterns_in intent_patterns CODE));
      (RESEARCH, hits (patterns_in intent_patterns RESEARCH));
      (PLANNING, hits (patterns_in intent_patterns PLANNING));
      (QUICK, hits (patterns_in intent_patterns QUICK));
      (GENERAL, 0) ].
Proof.
  unfold score_all, intent_patterns. cbn [fold_left fst snd map all_task_types].
  rewrite !score_patterns_iter.
  cbn [patterns_in task_eqb].
  rewrite iter_incr_here.
  rewrite (iter_incr_later RESEARCH CODE) by reflexivity.
  rewrite iter_incr_here.
  rewrite (iter_incr_later PLANNING CODE) by reflexivity.
  rewrite (iter_incr_later PLANNING RESEARCH) by reflexivity.
  rewrite iter_incr_here.
  rewrite (iter_incr_later QUICK CODE) by reflexivity.
  rewrite (iter_incr_later QUICK RESEARCH) by reflexivity.
  rewrite (iter_incr_later QUICK PLANNING) by reflexivity.
  rewrite iter_incr_here.
  now rewrite !Nat.add_0_r.
Qed.

Lemma count_of_general : count_of GENERAL = 0.
Proof. reflexivity. Qed.

Lemma argmax5 (a b c d : nat) :
  let r := if Nat.eqb (Nat.max a (Nat.max b (Nat.max c (Nat.max d (Nat.max 0 0))))) 0
           then GENERAL
           else fst (max_item_from (CODE, a)
                       [(RESEARCH, b); (PLANNING, c); (QUICK, d); (GENERAL, 0)]) in
  (a = 0 /\ b = 0 /\ c = 0 /\ d = 0 -> r = GENERAL) /\
  (a <> 0 \/ b <> 0 \/ c <> 0 \/ d <> 0 ->
   r <> GENERAL /\
   (forall t, count4 a b c d t <= count4 a b c d r) /\
   (forall t, count4 a b c d t = count4 a b c d r -> t <> GENERAL ->
              rank r <= rank t)).
Proof.
  cbv zeta. cbn [max_item_from snd fst].
  destruct (Nat.eqb_spec (Nat.max a (Nat.max b (Nat.max c (Nat.max d (Nat.max 0 0))))) 0)
    as [E|E].
  - split; [reflexivity|]. intros H. exfalso. lia.
  - split; [intros H; exfalso; lia|]. intros _.
    repeat match goal with
           | |- context [Nat.ltb ?x ?y] =>
               is_var x; destruct (Nat.ltb_spec x y); cbn [snd fst]
           end;
    (split; [discriminate || lia|]);
    (split; [intros []|intros [] ? ?]; simpl in *; try lia; try congruence).
Qed.

(** The same for any count function that gives [GENERAL] nothing. *)
Lemma argmax_fun (f : TaskType -> nat) :
  f GENERAL = 0 ->
  let r := if Nat.eqb (fold_right Nat.max 0
                         [f CODE; f RESEARCH; f PLANNING; f QUICK; 0]) 0
           then GENERAL
           else fst (max_item_from (CODE, f CODE)
                       [(RESEARCH, f RESEARCH); (PLANNING, f PLANNING);
                        (QUICK, f QUICK); (GENERAL, 0)]) in
  ((forall t, In t categories -> f t = 0) -> r = GENERAL) /\
  ((exists t, In t categories /\ f t <> 0) ->
   In r categories /\
   (forall t, In t categories -> f t <= f r) /\
   (forall t, In t categories -> f t = f r -> rank r <= rank t)).
Proof.
  intros G.
  pose proof (argmax5 (f CODE) (f RESEARCH) (f PLANNING) (f QUICK)) as A.
  cbn [fold_right]. cbv zeta in A |- *.
  set (r := if Nat.eqb _ 0 then GENERAL else _) in *.
  clearbody r.
  assert (C : forall t, count4 (f CODE) (f RESEARCH) (f PLANNING) (f QUICK) t
                        = f t) by (intros []; simpl; congruence).
  destruct A as [Z NZ].
  split.
  - intros H. apply Z.
    repeat split; apply H; simpl; auto.
  - intros (t & Ht & Hn).
    assert (N : f CODE <> 0 \/ f RESEARCH <> 0 \/ f PLANNING <> 0 \/ f QUICK <> 0).
    { simpl in Ht.
      destruct Ht as [<-|[<-|[<-|[<-|[]]]]]; auto. }
    destruct (NZ N) as (R1 & R2 & R3). clear NZ Z.
    split; [|split].
    + destruct r; simpl; auto. now elim R1.
    + intros u _. rewrite <- (C u), <- (C r). apply R2.
    + intros u Hu E. apply R3.
      * now rewrite (C u), (C r).
      * intros ->. simpl in Hu.
        destruct Hu as [Hu|[Hu|[Hu|[Hu|[]]]]]; discriminate Hu.
Qed.

(** The answer of [pick_intent] in terms of the four counts. *)
Lemma pick_intent_argmax :
  let r := pick_intent matches in
  ((forall t, In t categories -> count_of t = 0) -> r = GENERAL) /\
  ((exists t, In t categories /\ count_of t <> 0) ->
   In r categories /\
   (forall t, In t categories -> count_of t <= count_of r) /\
   (forall t, In t categories -> count_of t = count_of r -> rank r <= rank t)).
Proof.
  unfold pick_intent. rewrite score_all_intent_patterns.
  exact (argmax_fun count_of count_of_general).
Qed.

End ScoringFacts.

Lemma match_count_count_of (query : string) (t : TaskType) :
  match_count query t = count_of (fun p => Re.search p (lower query)) t.
Proof. reflexivity. Qed.

(** C3.  [analyze_intent] (the spec's [classify]) is a function defined on
    every string.  If all four categories have pattern-match count 0 it
    answers GENERAL.  Otherwise its answer is one of CODE, RESEARCH,
    PLANNING, QUICK, no category has a greater count than the answer, and
    any category that ties with it comes later in the declared order.  On
    the empty string the answer is GENERAL. *)
Theorem analyze_intent_stable_argmax (query : string) :
  ((forall t, In t categories -> match_count query t = 0) ->
   analyze_intent query = GENERAL) /\
  ((exists t, In t categories /\ match_count query t <> 0) ->
   In (analyze_intent query) categories /\
   (forall t, In t categories ->
      match_count query t <= match_count query (analyze_intent query)) /\
   (forall t, In t categories ->
      match_count query t = match_count query (analyze_intent query) ->
      rank (analyze_intent query) <= rank t)) /\
  analyze_intent EmptyString = GENERAL.
Proof.
  pose proof (pick_intent_argmax (fun p => Re.search p (lower query))) as [Z NZ].
  split; [|split].
  - intros H. apply Z. intros t Ht. rewrite <- match_count_count_of. now apply H.
  - intros (t & Ht & Hn). apply NZ. exists t. split; [exact Ht|].
    now rewrite <- match_count_count_of.
  - vm_compute. reflexivity.
Qed.

Lemma analyze_intent_stable_argmax_witness :
  analyze_intent "zzz" = GENERAL /\
  In (analyze_intent "write a python function to sort a list") categories.
Proof.
  split.
  - apply (proj1 (analyze_intent_stable_argmax "zzz")).
    intros t Ht. simpl in Ht.
    destruct Ht as [<-|[<-|[<-|[<-|[]]]]]; vm_compute; reflexivity.
  - apply (proj1 (proj2 (analyze_intent_stable_argmax
                           "write a python function to sort a list"))).
    exists CODE. split.
    + simpl. auto.
    + vm_compute. discriminate.
Defined.

(** The spec's two sample queries. *)
Example analyze_intent_sort_request :
  analyze_intent "write a python function to sort a list" = CODE.
Proof. vm_compute. reflexivity. Qed.

Example analyze_intent_greeting : analyze_intent "hi" = QUICK.
Proof. vm_compute. reflexivity. Qed.

(** A tie between CODE and RESEARCH (one rule each) goes to CODE. *)
Example analyze_intent_tie :
  match_count "explain this bug" CODE = 1 /\
  match_count "explain this bug" RESEARCH = 1 /\
  analyze_intent "explain this bug" = CODE.
Proof. vm_compute. repeat split. Qed.

(* ================================================================== *)
(** * Properties of the router *)
(* ================================================================== *)

Lemma select_model_unfold (models : registry) (query : string) :
  select_model models query =
  (let? info := default_model_info models in
   let? name := py_getitem info "name" in
   let? role := py_getitem info "role" in
   ret (name, role, analyze_intent query)).
Proof. reflexivity. Qed.






(* ================================================================== *)
(** * Properties of the orchestrator *)
(* ================================================================== *)

Section OrchestratorFacts.
Variable json_loads : string -> decoded.
Variable system_prompt : string.
Variable cfg : Config.

#[warnings="-notation-for-abbreviation"]
Local Notation frame_of := (frame_of json_loads).
#[warnings="-notation-for-abbreviation"]
Local Notation decode_raises := (decode_raises json_loads).
#[warnings="-notation-for-abbreviation"]
Local Notation done_line := (done_line json_loads).
#[warnings="-notation-for-abbreviation"]
Local Notation faulty_line := (faulty_line json_loads).
#[warnings="-notation-for-abbreviation"]
Local Notation line_content := (line_content json_loads).
#[warnings="-notation-for-abbreviation"]
Local Notation content_events := (content_events json_loads).
#[warnings="-notation-for-abbreviation"]
Local Notation accumulate := (accumulate json_loads).
#[warnings="-notation-for-abbreviation"]
Local Notation no_done := (no_done json_loads).
#[warnings="-notation-for-abbreviation"]
Local Notation no_faulty := (no_faulty json_loads).
#[warnings="-notation-for-abbreviation"]
Local Notation decodable := (decodable json_loads).
#[warnings="-notation-for-abbreviation"]
Local Notation request := (request system_prompt).

Lemma on_chunk_spec (model : pyval) (chunk : pyval) (full : string) (s : session) :
  on_chunk model chunk full s =
  match chunk_text chunk with
  | inl e => ([], s, inl e)
  | inr ot =>
      let full' := match ot with Some td => (full ++ fst td)%string | None => full end in
      let cev := match ot with Some td => [Content (fst td) (snd td)] | None => [] end in
      match chunk_done chunk with
      | inl e => (cev, s, inl e)
      | inr true => (cev ++ [Complete full' model], committed_turn full' s, inr full')
      | inr false => (cev, s, inr full')
      end
  end.
Proof.
  unfold on_chunk, chunk_text, chunk_done, gbind, lift, gret, graise, yield,
    history_append, modify, committed_turn, bind, ret, raise.
  destruct (py_contains "message" chunk) as [e|[|]]; [reflexivity| |].
  - destruct (py_getitem chunk "message") as [e|msg]; [reflexivity|].
    destruct (py_get msg "content" (PStr EmptyString)) as [e|content]; [reflexivity|].
    destruct (truthy content) eqn:T.
    + destruct content; try reflexivity.
      destruct (py_get chunk "done" (PBool false)) as [e|done]; [reflexivity|].
      cbn [fst snd]. destruct (truthy done); reflexivity.
    + destruct (py_get chunk "done" (PBool false)) as [e|done]; [reflexivity|].
      destruct (truthy done); reflexivity.
  - destruct (py_get chunk "done" (PBool false)) as [e|done]; [reflexivity|].
    destruct (truthy done); reflexivity.
Qed.

(** One turn of the loop, by what the line is. *)
Lemma stream_loop_cons (model : pyval) (line : string) (rest : list string)
    (full : string) (s : session) :
  stream_loop json_loads model (line :: rest) full s =
  match decode_raises line with
  | Some e => ([], s, inl e)
  | None =>
      match frame_of line with
      | None => stream_loop json_loads model rest full s
      | Some chunk =>
          match on_chunk model chunk full s with
          | (ev1, s1, inl e) => (ev1, s1, inl e)
          | (ev1, s1, inr full1) =>
              match stream_loop json_loads model rest full1 s1 with
              | (ev2, s2, r) => (ev1 ++ ev2, s2, r)
              end
          end
      end
  end.
Proof.
  unfold frame_of, decode_raises. simpl. destruct (blank line); [reflexivity|].
  destruct (json_loads line); reflexivity.
Qed.

Lemma stream_loop_skip (model : pyval) (line : string) (rest : list string)
    (full : string) (s : session) :
  json_loads line = JSONDecodeError ->
  stream_loop json_loads model (line :: rest) full s
  = stream_loop json_loads model rest full s.
Proof.
  intros H. simpl. rewrite H. now destruct (blank line).
Qed.

(** A line on which [json.loads] raises something else ends the loop. *)
Lemma stream_loop_raise (model : pyval) (line : string) (rest : list string)
    (full : string) (s : session) (e : py_exn) :
  decode_raises line = Some e ->
  stream_loop json_loads model (line :: rest) full s = ([], s, inl e).
Proof. intros H. now rewrite stream_loop_cons, H. Qed.

Lemma not_faulty_decodes (line : string) :
  faulty_line line = false -> decode_raises line = None.
Proof. unfold faulty_line. now destruct (decode_raises line). Qed.

(** The loop over [l1 ++ l2] is the loop over [l1] followed, unless it
    raised, by the loop over [l2]. *)
Lemma stream_loop_app (model : pyval) (l1 l2 : list string) :
  forall full s,
    stream_loop json_loads model (l1 ++ l2) full s =
    match stream_loop json_loads model l1 full s with
    | (ev1, s1, inl e) => (ev1, s1, inl e)
    | (ev1, s1, inr full1) =>
        match stream_loop json_loads model l2 full1 s1 with
        | (ev2, s2, r) => (ev1 ++ ev2, s2, r)
        end
    end.
Proof.
  induction l1 as [|line l1 IH]; intros full s.
  - simpl. unfold gret. now destruct (stream_loop json_loads model l2 full s) as [[? ?] ?].
  - rewrite <- app_comm_cons, !stream_loop_cons.
    destruct (decode_raises line) as [er|]; [reflexivity|].
    destruct (frame_of line) as [chunk|]; [|apply IH].
    destruct (on_chunk model chunk full s) as [[ev1 s1] [e|full1]]; [reflexivity|].
    rewrite IH.
    destruct (stream_loop json_loads model l1 full1 s1) as [[ev2 s2] [e|full2]];
      [reflexivity|].
    destruct (stream_loop json_loads model l2 full2 s2) as [[ev3 s3] r].
    now rewrite app_assoc.
Qed.

(** Lines on which [json.loads] raises [JSONDecodeError] can be dropped
    from the stream. *)
Lemma stream_loop_filter (model : pyval) (ls : list string) :
  forall full s,
    stream_loop json_loads model ls full s =
    stream_loop json_loads model
      (filter decodable ls) full s.
Proof.
  induction ls as [|line ls IH]; intros full s; [reflexivity|].
  cbn [filter]. unfold decodable at 1.
  destruct (json_loads line) as [chunk| |er] eqn:E.
  - rewrite !stream_loop_cons.
    destruct (decode_raises line); [reflexivity|].
    destruct (frame_of line); [|apply IH].
    destruct (on_chunk model p full s) as [[ev1 s1] [e|full1]]; [reflexivity|].
    now rewrite IH.
  - rewrite stream_loop_skip by exact E. apply IH.
  - rewrite !stream_loop_cons.
    destruct (decode_raises line); [reflexivity|].
    destruct (frame_of line); [|apply IH].
    destruct (on_chunk model p full s) as [[ev1 s1] [e|full1]]; [reflexivity|].
    now rewrite IH.
Qed.

(** What the loop can do to the session: append assistant turns, one for
    each [Complete] it yields. *)
Lemma stream_loop_effects (model : pyval) (ls : list string) :
  forall full s,
    let x := stream_loop json_loads model ls full s in
    forallb body_event (events_of x) = true /\
    count_errors (events_of x) = 0 /\
    posted (state_of x) = posted s /\
    current_model (self (state_of x)) = current_model (self s) /\
    conversation_history (self (state_of x))
    = conversation_history (self s)
      ++ map (Message "assistant") (completes (events_of x)) /\
    Forall (fun e => match e with
                     | Complete _ m => m = model
                     | _ => True
                     end) (events_of x).
Proof.
  induction ls as [|line ls IH]; intros full s x; subst x.
  - simpl. rewrite app_nil_r. repeat split. constructor.
  - rewrite stream_loop_cons.
    destruct (decode_raises line) as [er|].
    { simpl. rewrite app_nil_r. repeat split. constructor. }
    destruct (frame_of line) as [chunk|]; [|apply IH].
    rewrite on_chunk_spec.
    destruct (chunk_text chunk) as [e|ot].
    { simpl. rewrite app_nil_r. repeat split. constructor. }
    cbv zeta.
    set (full' := match ot with Some td => _ | None => full end).
    set (cev := match ot with Some td => _ | None => [] end).
    assert (Cev : forallb body_event cev = true /\ count_errors cev = 0 /\
                  completes cev = [] /\
                  Forall (fun e => match e with
                                   | Complete _ m => m = model
                                   | _ => True
                                   end) cev).
    { subst cev. destruct ot; simpl; repeat split; repeat constructor. }
    destruct Cev as (C1 & C2 & C3 & C4).
    destruct (chunk_done chunk) as [e|[|]].
    + unfold events_of, state_of. simpl. rewrite C3, app_nil_r.
      repeat split; auto.
    + specialize (IH full' (committed_turn full' s)).
      destruct (stream_loop json_loads model ls full' (committed_turn full' s))
        as [[ev2 s2] r].
      unfold events_of, state_of, count_errors, completes in *. cbn [fst snd] in *.
      destruct IH as (I1 & I2 & I3 & I4 & I5 & I6).
      rewrite !forallb_app, !filter_app, !length_app, !flat_map_app, !map_app.
      rewrite C1, I1, C2, I2, I3, I4, I5, C3. simpl.
      repeat split.
      * now rewrite <- app_assoc.
      * apply Forall_app. split; [|exact I6].
        apply Forall_app. split; [exact C4|]. now repeat constructor.
    + specialize (IH full' s).
      destruct (stream_loop json_loads model ls full' s) as [[ev2 s2] r].
      unfold events_of, state_of, count_errors, completes in *. cbn [fst snd] in *.
      destruct IH as (I1 & I2 & I3 & I4 & I5 & I6).
      rewrite !forallb_app, !filter_app, !length_app, !flat_map_app.
      rewrite C1, I1, C2, I2, I3, I4, I5, C3. simpl.
      repeat split. apply Forall_app. now split.
Qed.

Lemma chunk_text_some_done (chunk : pyval) (td : string * pyval) :
  chunk_text chunk = inr (Some td) -> exists b, chunk_done chunk = inr b.
Proof.
  unfold chunk_text, chunk_done, bind, ret, raise.
  destruct (py_contains "message" chunk) as [e|[|]]; try discriminate.
  destruct (py_getitem chunk "message") as [e|msg]; [discriminate|].
  destruct (py_get msg "content" (PStr EmptyString)) as [e|content]; [discriminate|].
  destruct (truthy content); [|discriminate].
  destruct content; try discriminate.
  destruct (py_get chunk "done" (PBool false)) as [e|done]; [discriminate|].
  intros _. now exists (truthy done).
Qed.

Lemma content_events_cons (line : string) (ls : list string) :
  content_events (line :: ls) = content_events [line] ++ content_events ls.
Proof.
  unfold content_events. simpl. now rewrite app_nil_r, map_app.
Qed.

Lemma content_events_single (line : string) :
  content_events [line] =
  match frame_of line with
  | Some chunk =>
      match chunk_text chunk with
      | inr (Some td) => [Content (fst td) (snd td)]
      | _ => []
      end
  | None => []
  end.
Proof.
  unfold content_events, line_content. cbn [flat_map]. rewrite app_nil_r.
  destruct (frame_of line) as [chunk|]; [|reflexivity].
  now destruct (chunk_text chunk) as [e|[td|]].
Qed.

Lemma content_events_app (l1 l2 : list string) :
  content_events (l1 ++ l2) = content_events l1 ++ content_events l2.
Proof.
  unfold content_events. now rewrite flat_map_app, map_app.
Qed.

Lemma accumulate_app (full : string) (l1 l2 : list string) :
  accumulate full (l1 ++ l2) = accumulate (accumulate full l1) l2.
Proof.
  unfold accumulate. now rewrite flat_map_app, map_app, fold_left_app.
Qed.

(** The [Content] events come from the lines in arrival order: they are
    the fragments of the lines that the loop got through. *)
Lemma stream_loop_contents (model : pyval) (ls : list string) :
  forall full s,
    exists n,
      filter is_content (events_of (stream_loop json_loads model ls full s))
      = content_events (firstn n ls).
Proof.
  induction ls as [|line ls IH]; intros full s.
  - exists 0. reflexivity.
  - rewrite stream_loop_cons.
    destruct (decode_raises line) as [er|]; [exists 0; reflexivity|].
    destruct (frame_of line) as [chunk|] eqn:F.
    + rewrite on_chunk_spec.
      destruct (chunk_text chunk) as [e|ot] eqn:T.
      { exists 0. reflexivity. }
      cbv zeta.
      set (full' := match ot with Some td => _ | None => full end).
      assert (L : content_events [line]
                  = match ot with
                    | Some td => [Content (fst td) (snd td)]
                    | None => []
                    end).
      { now rewrite content_events_single, F, T. }
      assert (K : filter is_content (content_events [line]) = content_events [line]).
      { rewrite L. now destruct ot. }
      rewrite <- L.
      destruct (chunk_done chunk) as [e|[|]] eqn:D.
      * exists 0. destruct ot as [td|].
        -- destruct (chunk_text_some_done _ T) as [b B]. congruence.
        -- rewrite L. reflexivity.
      * destruct (IH full' (committed_turn full' s)) as [n N].
        destruct (stream_loop json_loads model ls full' (committed_turn full' s))
          as [[ev2 s2] r].
        exists (S n). unfold events_of in *. cbn [fst snd firstn] in *.
        rewrite (content_events_cons line (firstn n ls)), !filter_app, N, K.
        simpl. now rewrite !app_nil_r.
      * destruct (IH full' s) as [n N].
        destruct (stream_loop json_loads model ls full' s) as [[ev2 s2] r].
        exists (S n). unfold events_of in *. cbn [fst snd firstn] in *.
        now rewrite (content_events_cons line (firstn n ls)), !filter_app, N, K.
    + destruct (IH full s) as [n N]. exists (S n).
      cbn [firstn]. rewrite (content_events_cons line (firstn n ls)), N.
      now rewrite content_events_single, F.
Qed.

(** Lines without a terminal frame produce no [Complete]. *)
Lemma stream_loop_no_done (model : pyval) (ls : list string) :
  forallb (fun l => negb (done_line l)) ls = true ->
  forall full s,
    completes (events_of (stream_loop json_loads model ls full s)) = [].
Proof.
  induction ls as [|line ls IH]; intros H full s; [reflexivity|].
  cbn [forallb] in H. apply andb_true_iff in H. destruct H as [Hd H].
  rewrite stream_loop_cons. unfold done_line in Hd.
  destruct (decode_raises line) as [er|]; [reflexivity|].
  destruct (frame_of line) as [chunk|]; [|now apply IH].
  rewrite on_chunk_spec.
  destruct (chunk_text chunk) as [e|ot]; [reflexivity|].
  cbv zeta.
  set (full' := match ot with Some td => _ | None => full end).
  destruct (chunk_done chunk) as [e|[|]].
  - now destruct ot.
  - discriminate.
  - specialize (IH H full' s).
    destruct (stream_loop json_loads model ls full' s) as [[ev2 s2] r].
    unfold events_of, completes in *. cbn [fst snd] in *.
    rewrite flat_map_app. fold (completes ev2). unfold completes. rewrite IH.
    now destruct ot.
Qed.

(** Lines that are neither terminal nor raising: only [Content] events,
    the session untouched, the fragments accumulated. *)
Lemma stream_loop_clean (model : pyval) (ls : list string) :
  forallb (fun l => negb (done_line l)) ls = true ->
  forallb (fun l => negb (faulty_line l)) ls = true ->
  forall full s,
    stream_loop json_loads model ls full s
    = (content_events ls, s, inr (accumulate full ls)).
Proof.
  induction ls as [|line ls IH]; intros Hd Hf full s; [reflexivity|].
  cbn [forallb] in Hd, Hf.
  apply andb_true_iff in Hd. destruct Hd as [Hd Hd'].
  apply andb_true_iff in Hf. destruct Hf as [Hf Hf'].
  rewrite stream_loop_cons, (content_events_cons line ls).
  change (line :: ls) with ([line] ++ ls). rewrite accumulate_app.
  unfold done_line in Hd. unfold faulty_line in Hf.
  unfold content_events at 1, accumulate at 2, line_content. cbn [flat_map].
  destruct (decode_raises line) as [er|]; [discriminate|].
  destruct (frame_of line) as [chunk|].
  - rewrite on_chunk_spec.
    destruct (chunk_text chunk) as [e|ot]; [discriminate|].
    destruct (chunk_done chunk) as [e|[|]]; try discriminate.
    cbv beta iota zeta. rewrite (IH Hd' Hf').
    destruct ot as [td|]; reflexivity.
  - now rewrite (IH Hd' Hf').
Qed.

(** A well-typed terminal frame: its fragment if any, then the commit and
    the [Complete] event. *)
Lemma stream_loop_done_line (model : pyval) (line : string) (full : string)
    (s : session) :
  done_line line = true -> faulty_line line = false ->
  stream_loop json_loads model [line] full s
  = (content_events [line] ++ [Complete (accumulate full [line]) model],
     committed_turn (accumulate full [line]) s,
     inr (accumulate full [line])).
Proof.
  intros Hd Hf. rewrite stream_loop_cons.
  unfold done_line in Hd. unfold faulty_line in Hf.
  unfold content_events, accumulate, line_content. cbn [flat_map].
  destruct (decode_raises line) as [er|]; [discriminate|].
  destruct (frame_of line) as [chunk|]; [|discriminate].
  rewrite on_chunk_spec.
  destruct (chunk_text chunk) as [e|ot]; [discriminate|].
  destruct (chunk_done chunk) as [e|[|]]; try discriminate.
  cbv beta iota zeta. cbn [stream_loop]. unfold gret.
  destruct ot as [td|]; cbn; now rewrite ?app_nil_r.
Qed.

(** The whole run, case by case. *)
Lemma generate_response_unfold (query : string) (stream : bool)
    (resp : response) (s : session) :
  generate_response json_loads system_prompt cfg query stream resp s =
  match select_model (models cfg) query with
  | inl e => ([], s, inl (leaving_generator e))
  | inr (name, role, t) =>
      let s1 := started name query s in
      let selected := ModelSelected name role (task_value t) in
      match temperature cfg with
      | None => ([selected; Error (KeyError "agents") name], s1, inr tt)
      | Some temp =>
          match stream_loop json_loads name (lines resp) EmptyString
                            (sent (request name stream temp s1) s1) with
          | (evs, s3, inl e) => (selected :: evs ++ [Error e name], s3, inr tt)
          | (evs, s3, inr _) =>
              match failure resp with
              | Some msg =>
                  (selected :: evs ++ [Error (TransportError msg) name], s3, inr tt)
              | None => (selected :: evs, s3, inr tt)
              end
          end
      end
  end.
Proof.
  unfold generate_response, async_generator, gbind, lift, set_current_model, yield,
    history_append, post, modify, gets, try_except, graise, gret, ret, raise,
    started, sent, request.
  destruct (select_model (models cfg) query) as [e|[[name role] t]]; [reflexivity|].
  cbv beta iota zeta. cbn [self posted conversation_history current_model].
  destruct (temperature cfg) as [temp|]; [|reflexivity].
  cbv beta iota. cbn [self posted conversation_history current_model].
  match goal with
  | |- context [stream_loop ?a ?b ?c ?d ?e] =>
      destruct (stream_loop a b c d e) as [[evs s3] [e'|full]]
  end.
  - reflexivity.
  - destruct (failure resp); cbn; now rewrite ?app_nil_r.
Qed.

(** Lines whose handling raises nothing: the loop returns. *)
Lemma stream_loop_returns (model : pyval) (ls : list string) :
  no_faulty ls = true ->
  forall full s,
    exists full', outcome_of (stream_loop json_loads model ls full s) = inr full'.
Proof.
  unfold no_faulty.
  induction ls as [|line ls IH]; intros Hf full s; [now exists full|].
  cbn [forallb] in Hf. apply andb_true_iff in Hf. destruct Hf as [Hf Hf'].
  apply negb_true_iff in Hf. rewrite stream_loop_cons.
  unfold faulty_line in Hf.
  destruct (decode_raises line) as [er|]; [discriminate|].
  destruct (frame_of line) as [chunk|]; [|now apply IH].
  rewrite on_chunk_spec.
  destruct (chunk_text chunk) as [e|ot]; [discriminate|].
  destruct (chunk_done chunk) as [e|b]; [discriminate|].
  cbv zeta.
  set (full' := match ot with Some td => _ | None => full end).
  destruct b.
  - destruct (IH Hf' full' (committed_turn full' s)) as [r R].
    destruct (stream_loop json_loads model ls full' (committed_turn full' s))
      as [[ev2 s2] o].
    unfold outcome_of in *. cbn [snd] in *. now exists r.
  - destruct (IH Hf' full' s) as [r R].
    destruct (stream_loop json_loads model ls full' s) as [[ev2 s2] o].
    unfold outcome_of in *. cbn [snd] in *. now exists r.
Qed.

(** C8 (amended).  A line on which [json.loads] raises [JSONDecodeError]
    is passed over: the run is the same as on the stream without it, so
    there is no event for it, nothing is raised because of it, and the
    frames before and after it are handled as if it had not been there.
    The same holds for all such lines of a stream at once.  A line on
    which [json.loads] raises another exception is not passed over: the
    frames before it are handled as usual, then the call ends with one
    [Error] event that carries the exception, and the lines after it are
    not read. *)
Theorem generate_response_skips_undecodable (query : string) (stream : bool)
    (f : option string) (s : session) :
  (forall ls,
     generate_response json_loads system_prompt cfg query stream
       {| lines := ls; failure := f |} s
     = generate_response json_loads system_prompt cfg query stream
         {| lines := filter decodable ls; failure := f |} s) /\
  (forall pre bad post,
     json_loads bad = JSONDecodeError ->
     generate_response json_loads system_prompt cfg query stream
       {| lines := pre ++ bad :: post; failure := f |} s
     = generate_response json_loads system_prompt cfg query stream
         {| lines := pre ++ post; failure := f |} s) /\
  (forall pre bad post e name role t temp,
     select_model (models cfg) query = inr (name, role, t) ->
     temperature cfg = Some temp ->
     no_faulty pre = true -> decode_raises bad = Some e ->
     let x := generate_response json_loads system_prompt cfg query stream
                {| lines := pre ++ bad :: post; failure := f |} s in
     let y := generate_response json_loads system_prompt cfg query stream
                {| lines := pre; failure := None |} s in
     events_of x = events_of y ++ [Error e name] /\
     state_of x = state_of y /\
     outcome_of x = inr tt).
Proof.
  assert (A : forall ls,
     generate_response json_loads system_prompt cfg query stream
       {| lines := ls; failure := f |} s
     = generate_response json_loads system_prompt cfg query stream
         {| lines := filter decodable ls; failure := f |} s).
  { intros ls. rewrite !generate_response_unfold. cbn [lines failure].
    destruct (select_model (models cfg) query) as [e|[[name role] t]]; [reflexivity|].
    cbv zeta. destruct (temperature cfg) as [temp|]; [|reflexivity].
    now rewrite (stream_loop_filter name ls). }
  split; [exact A|]. split.
  - intros pre bad post H.
    rewrite (A (pre ++ bad :: post)), (A (pre ++ post)).
    rewrite !filter_app. cbn [filter]. unfold decodable at 2. now rewrite H.
  - intros pre bad post e name role t temp Sel Temp Nf R x y. subst x y.
    rewrite !generate_response_unfold, Sel, Temp. cbn [lines failure]. cbv zeta.
    rewrite stream_loop_app.
    destruct (stream_loop_returns name pre Nf EmptyString
                (sent (request name stream temp (started name query s))
                      (started name query s))) as [full1 O].
    destruct (stream_loop json_loads name pre EmptyString
                (sent (request name stream temp (started name query s))
                      (started name query s))) as [[ev1 s1] o].
    unfold outcome_of in O. cbn [snd] in O. subst o.
    rewrite (stream_loop_raise name bad post full1 s1 R).
    unfold events_of, state_of, outcome_of. cbn [fst snd].
    now rewrite app_nil_r.
Qed.

Lemma ends_with_error_snoc (l : list event) (e : py_exn) (m : pyval) :
  ends_with_error (l ++ [Error e m]) = true.
Proof. unfold ends_with_error. now rewrite rev_unit. Qed.

Lemma ends_with_error_cons (x : event) (l : list event) :
  l <> [] -> ends_with_error (x :: l) = ends_with_error l.
Proof.
  intros N. unfold ends_with_error. simpl.
  destruct (rev l) as [|y r] eqn:R.
  - apply (f_equal (@rev event)) in R. rewrite rev_involutive in R. contradiction.
  - reflexivity.
Qed.



Lemma only_contents (l : list event) :
  forallb body_event l = true -> completes l = [] -> forallb is_content l = true.
Proof.
  induction l as [|x l IH]; simpl; [reflexivity|].
  intros B C. apply andb_true_iff in B. destruct B as [X B].
  destruct x; simpl in *; try discriminate; auto.
Qed.

Lemma completes_length (l : list event) :
  List.length (completes l) = count_completes l.
Proof.
  unfold completes, count_completes.
  induction l as [|x l IH]; simpl; [reflexivity|].
  destruct x; simpl; auto.
Qed.

Lemma content_events_are_contents (ls : list string) :
  forallb is_content (content_events ls) = true.
Proof.
  unfold content_events. induction (flat_map line_content ls); simpl; auto.
Qed.

Lemma forallb_no_errors (l : list event) :
  forallb body_event l = true -> count_errors l = 0.
Proof.
  unfold count_errors.
  induction l as [|x l IH]; simpl; [reflexivity|].
  intros B. apply andb_true_iff in B. destruct B as [X B].
  destruct x; simpl in *; try discriminate; auto.
Qed.

Lemma contents_are_body (l : list event) :
  forallb is_content l = true -> forallb body_event l = true.
Proof.
  induction l as [|x l IH]; simpl; [reflexivity|].
  intros B. apply andb_true_iff in B. destruct B as [X B].
  unfold body_event at 1. now rewrite X, IH.
Qed.

Lemma contents_no_completes (l : list event) :
  forallb is_content l = true -> completes l = [].
Proof.
  induction l as [|x l IH]; simpl; [reflexivity|].
  intros B. apply andb_true_iff in B. destruct B as [X B].
  destruct x; simpl in *; try discriminate; auto.
Qed.

Lemma last_n_keeps {A} (n : nat) (a b : list A) (x : A) :
  List.length b < n -> In x (last_n n (a ++ x :: b)).
Proof.
  intros L. unfold last_n. rewrite length_app. cbn [List.length].
  rewrite skipn_app.
  replace (List.length a + S (List.length b) - n - List.length a) with 0 by lia.
  apply in_or_app. right. now left.
Qed.

(** A turn stays in the prompt as long as fewer than ten turns follow it. *)
Lemma prepare_messages_keeps (core : NexusCore) (a b : list message) (x : message) :
  conversation_history core = a ++ x :: b -> List.length b < 10 ->
  In x (_prepare_messages system_prompt core).
Proof.
  intros H L. unfold _prepare_messages. rewrite H.
  apply in_or_app. right. now apply last_n_keeps.
Qed.

(** The events and the final session of a run, whatever the backend does. *)
Lemma generate_response_shape (query : string) (stream : bool) (resp : response)
    (s : session) (name role : pyval) (t : TaskType) :
  select_model (models cfg) query = inr (name, role, t) ->
  let x := generate_response json_loads system_prompt cfg query stream resp s in
  exists body tail,
    events_of x = ModelSelected name role (task_value t) :: body ++ tail /\
    forallb body_event body = true /\
    (tail = [] \/ exists e, tail = [Error e name]) /\
    (failure resp <> None -> tail <> []) /\
    (exists n, filter is_content body = content_events (firstn n (lines resp))) /\
    (no_done (lines resp) = true -> completes body = []) /\
    outcome_of x = inr tt /\
    conversation_history (self (state_of x))
    = conversation_history (self s)
      ++ Message "user" query :: map (Message "assistant") (completes body) /\
    current_model (self (state_of x)) = Some name /\
    (forall p, In p (posted (state_of x)) ->
               In p (posted s) \/ In (Message "user" query) (p_messages p)).
Proof.
  intros Sel x. subst x. rewrite generate_response_unfold, Sel. cbv zeta.
  destruct (temperature cfg) as [temp|].
  - set (s1 := started name query s).
    set (s2 := sent (request name stream temp s1) s1).
    pose proof (stream_loop_effects name (lines resp) EmptyString s2) as E.
    pose proof (stream_loop_contents name (lines resp) EmptyString s2) as C.
    pose proof (fun H => stream_loop_no_done name (lines resp) H EmptyString s2) as D.
    destruct (stream_loop json_loads name (lines resp) EmptyString s2) as [[evs s3] r].
    unfold events_of, state_of, outcome_of in *. cbn [fst snd] in *.
    destruct E as (E1 & E2 & E3 & E4 & E5 & E6).
    assert (P : forall p, In p (posted s3) ->
                In p (posted s) \/ In (Message "user" query) (p_messages p)).
    { intros p. rewrite E3. subst s2. cbn [sent posted]. rewrite in_app_iff.
      intros [H|[<-|[]]]; [now left|right].
      cbn [request p_messages].
      apply prepare_messages_keeps with (a := conversation_history (self s)) (b := []).
      - reflexivity.
      - simpl. lia. }
    assert (H5 : conversation_history (self s3)
                 = conversation_history (self s)
                   ++ Message "user" query :: map (Message "assistant") (completes evs)).
    { rewrite E5. subst s2 s1. cbn. now rewrite <- app_assoc. }
    assert (H4 : current_model (self s3) = Some name).
    { rewrite E4. reflexivity. }
    destruct r as [e|full]; [|destruct (failure resp) as [msg|]].
    + exists evs, [Error e name]. cbn [fst snd].
      repeat split; auto; try discriminate. right. now exists e.
    + exists evs, [Error (TransportError msg) name]. cbn [fst snd].
      repeat split; auto; try discriminate. right. now eexists.
    + exists evs, []. cbn [fst snd]. rewrite app_nil_r.
      repeat split; auto; try (intros N; now elim N).
  - exists [], [Error (KeyError "agents") name].
    unfold events_of, state_of, outcome_of. cbn [fst snd app].
    repeat split; auto; try discriminate.
    + right. now eexists.
    + exists 0. reflexivity.
Qed.

Lemma count_errors_shape (x : event) (body tail : list event) :
  is_error x = false -> forallb body_event body = true ->
  count_errors (x :: body ++ tail) = count_errors tail.
Proof.
  intros X B. unfold count_errors. cbn [filter]. rewrite X, filter_app, length_app.
  fold (count_errors body). now rewrite (forallb_no_errors _ B).
Qed.

Lemma count_completes_shape (x : event) (body tail : list event) :
  is_complete x = false -> count_errors tail = List.length tail ->
  count_completes (x :: body ++ tail) = count_completes body.
Proof.
  intros X T. unfold count_completes. cbn [filter]. rewrite X, filter_app, length_app.
  replace (List.length (filter is_complete tail)) with 0; [lia|].
  unfold count_errors in T. clear X.
  induction tail as [|y tail IH]; [reflexivity|].
  cbn [filter List.length] in *.
  pose proof (filter_length_le is_error tail) as Le.
  destruct y; cbn [is_error is_complete List.length] in *; lia.
Qed.

(** The run on a stream whose last line is its only terminal frame. *)
Lemma generate_response_complete (query : string) (stream : bool)
    (resp : response) (s : session) (name role : pyval) (t : TaskType)
    (temp : pyval) (pre : list string) (d : string) :
  select_model (models cfg) query = inr (name, role, t) ->
  temperature cfg = Some temp ->
  lines resp = pre ++ [d] -> failure resp = None ->
  no_done pre = true -> no_faulty (pre ++ [d]) = true -> done_line d = true ->
  generate_response json_loads system_prompt cfg query stream resp s
  = (ModelSelected name role (task_value t)
       :: content_events (lines resp)
          ++ [Complete (accumulate EmptyString (lines resp)) name],
     committed_turn (accumulate EmptyString (lines resp))
       (sent (request name stream temp (started name query s))
             (started name query s)),
     inr tt).
Proof.
  intros Sel Temp L F Nd Nf D.
  rewrite generate_response_unfold, Sel, Temp, F, L. cbv zeta.
  unfold no_faulty in Nf. rewrite forallb_app in Nf.
  apply andb_true_iff in Nf. destruct Nf as [Nf Nfd].
  cbn [forallb] in Nfd. rewrite andb_true_r in Nfd.
  apply negb_true_iff in Nfd.
  rewrite stream_loop_app, (stream_loop_clean name pre Nd Nf).
  rewrite (stream_loop_done_line name d _ _ D Nfd).
  rewrite content_events_app, accumulate_app.
  now rewrite <- app_assoc.
Qed.

(** The run on a stream that closes with neither a terminal frame nor a
    line whose handling raises. *)
Lemma generate_response_clean_close (query : string) (stream : bool)
    (resp : response) (s : session) (name role : pyval) (t : TaskType)
    (temp : pyval) :
  select_model (models cfg) query = inr (name, role, t) ->
  temperature cfg = Some temp -> failure resp = None ->
  no_done (lines resp) = true -> no_faulty (lines resp) = true ->
  events_of (generate_response json_loads system_prompt cfg query stream resp s)
  = ModelSelected name role (task_value t) :: content_events (lines resp).
Proof.
  intros Sel Temp F N Nf.
  rewrite generate_response_unfold, Sel, Temp, F. cbv zeta.
  now rewrite (stream_loop_clean name (lines resp) N Nf).
Qed.




(** The route adds nothing to the generator and leaves the store alone. *)
Lemma chat_unfold (message : string) (resp : response) (w : Api.world) :
  Api.chat json_loads system_prompt cfg message resp w =
  let x := generate_response json_loads system_prompt cfg message true resp
                             (Api.nexus w) in
  (events_of x,
   {| Api.nexus := state_of x; Api.chat_manager := Api.chat_manager w |},
   outcome_of x).
Proof.
  unfold Api.chat, events_of, state_of, outcome_of.
  now destruct (generate_response json_loads system_prompt cfg message true resp
                                  (Api.nexus w)) as [[evs s'] r].
Qed.

(** C1 (amended).  For a call whose stream delivers no frame with a true
    [done]: no assistant turn is added to the in-memory history (it grows
    by the user turn only), no [Complete] is emitted, and the store is not
    written.  If the stream raises (connection failure, timeout), the
    events end with an [Error] and it is the only one.  If the stream just
    closes, and no line's handling raises (no frame is ill-typed, and
    [json.loads] raises nothing but [JSONDecodeError]), there is no
    [Error] at all: the events are the [ModelSelected] and the [Content]
    events. *)
Theorem chat_without_terminal_frame (message : string) (resp : response)
    (w : Api.world) (name role : pyval) (t : TaskType) :
  select_model (models cfg) message = inr (name, role, t) ->
  no_done (lines resp) = true ->
  let x := Api.chat json_loads system_prompt cfg message resp w in
  let evs := events_of x in
  let w' := state_of x in
  conversation_history (self (Api.nexus w'))
  = conversation_history (self (Api.nexus w)) ++ [Message "user" message] /\
  Api.chat_manager w' = Api.chat_manager w /\
  count_completes evs = 0 /\
  (forall msg, failure resp = Some msg ->
     ends_with_error evs = true /\ count_errors evs = 1) /\
  (forall temp, failure resp = None -> temperature cfg = Some temp ->
     no_faulty (lines resp) = true ->
     count_errors evs = 0 /\
     evs = ModelSelected name role (task_value t) :: content_events (lines resp)).
Proof.
  intros Sel Nd x evs w'. subst evs w' x. rewrite chat_unfold.
  cbv zeta. unfold events_of at 1 3 5 7 9, state_of at 1 3.
  cbn [fst snd Api.nexus Api.chat_manager].
  destruct (generate_response_shape message true resp (Api.nexus w) Sel)
    as (body & tail & Ev & B & T & Fl & _ & Nc & _ & H & _).
  specialize (Nc Nd). rewrite Nc in H. cbn [map] in H.
  split; [exact H|]. split; [reflexivity|].
  assert (CE : count_errors (events_of (generate_response json_loads system_prompt
                cfg message true resp (Api.nexus w))) = count_errors tail).
  { rewrite Ev. now apply count_errors_shape. }
  split; [|split].
  - rewrite Ev, count_completes_shape; [| reflexivity |].
    + now rewrite <- completes_length, Nc.
    + destruct T as [->|[e ->]]; reflexivity.
  - intros msg F. rewrite CE.
    destruct T as [->|[e ->]].
    + elim Fl; [congruence|reflexivity].
    + split; [|reflexivity]. rewrite Ev, app_comm_cons. apply ends_with_error_snoc.
  - intros temp F Temp Nf.
    rewrite (@generate_response_clean_close message true resp (Api.nexus w)
               name role t temp Sel Temp F Nd Nf).
    split; [|reflexivity].
    unfold count_errors. cbn [filter is_error].
    fold (count_errors (content_events (lines resp))).
    apply forallb_no_errors, contents_are_body, content_events_are_contents.
Qed.

(** C2 (amended).  When the stream delivers a well-typed frame with a
    true [done], the lines before it being neither terminal nor raising
    (no ill-typed frame, and [json.loads] raises nothing but
    [JSONDecodeError]):
    the events are the [ModelSelected], the [Content] events of the lines
    up to that frame, then a [Complete] that carries the accumulated text
    and the selected model name; that text is appended as an assistant turn
    to the in-memory history, right after the user turn; the store is not
    written.  If the frame is the last line and the stream then closes,
    nothing follows. *)
Theorem chat_terminal_frame (message : string) (resp : response)
    (w : Api.world) (name role : pyval) (t : TaskType) (temp : pyval)
    (pre : list string) (d : string) (rest : list string) :
  select_model (models cfg) message = inr (name, role, t) ->
  temperature cfg = Some temp ->
  lines resp = pre ++ d :: rest ->
  no_done pre = true -> no_faulty (pre ++ [d]) = true -> done_line d = true ->
  let x := Api.chat json_loads system_prompt cfg message resp w in
  let evs := events_of x in
  let w' := state_of x in
  let full := accumulate EmptyString (pre ++ [d]) in
  exists later_events later_turns,
    evs = ModelSelected name role (task_value t)
            :: content_events (pre ++ [d]) ++ Complete full name :: later_events /\
    conversation_history (self (Api.nexus w'))
    = conversation_history (self (Api.nexus w))
      ++ Message "user" message :: Message "assistant" full :: later_turns /\
    Api.chat_manager w' = Api.chat_manager w /\
    (rest = [] -> failure resp = None -> later_events = [] /\ later_turns = []).
Proof.
  intros Sel Temp L Nd Nf D x evs w' full. subst evs w' x. rewrite chat_unfold.
  cbv zeta. unfold events_of at 1, state_of at 1 3.
  cbn [fst snd Api.nexus Api.chat_manager].
  rewrite generate_response_unfold, Sel, Temp. cbv zeta.
  set (s1 := started name message (Api.nexus w)).
  set (s2 := sent (request name true temp s1) s1).
  replace (lines resp) with ((pre ++ [d]) ++ rest)
    by (now rewrite L, <- app_assoc).
  rewrite stream_loop_app.
  assert (Nf' := Nf). unfold no_faulty in Nf'. rewrite forallb_app in Nf'.
  apply andb_true_iff in Nf'. destruct Nf' as [Nfp Nfd].
  cbn [forallb] in Nfd. rewrite andb_true_r in Nfd. apply negb_true_iff in Nfd.
  rewrite stream_loop_app, (stream_loop_clean name pre Nd Nfp).
  rewrite (stream_loop_done_line name d _ _ D Nfd).
  rewrite <- accumulate_app. fold full.
  pose proof (stream_loop_effects name rest full (committed_turn full s2)) as E.
  destruct (stream_loop json_loads name rest full (committed_turn full s2))
    as [[ev3 s3] r] eqn:R.
  unfold events_of, state_of, outcome_of in *. cbn [fst snd] in *.
  destruct E as (_ & _ & _ & _ & E5 & _).
  assert (H : conversation_history (self s3)
              = conversation_history (self (Api.nexus w))
                ++ Message "user" message :: Message "assistant" full
                   :: map (Message "assistant") (completes ev3)).
  { rewrite E5. subst s2 s1. cbn. now rewrite <- !app_assoc. }
  rewrite content_events_app.
  assert (Last : rest = [] -> ev3 = []).
  { intros ->. cbn in R. unfold gret in R. congruence. }
  destruct r as [e|full3]; [|destruct (failure resp) as [msg|]]; cbn [fst snd].
  - exists (ev3 ++ [Error e name]), (map (Message "assistant") (completes ev3)).
    split; [now rewrite <- !app_assoc|]. split; [exact H|]. split; [reflexivity|].
    intros -> _. cbn in R. unfold gret in R. discriminate.
  - exists (ev3 ++ [Error (TransportError msg) name]),
           (map (Message "assistant") (completes ev3)).
    split; [now rewrite <- !app_assoc|]. split; [exact H|]. split; [reflexivity|].
    discriminate.
  - exists ev3, (map (Message "assistant") (completes ev3)).
    split; [now rewrite <- !app_assoc|]. split; [exact H|]. split; [reflexivity|].
    intros Rn _. now rewrite (Last Rn).
Qed.

(** Whether [select_model] succeeds does not depend on the query. *)
Lemma select_model_other_query (q1 q2 : string) (name role : pyval) (t : TaskType) :
  select_model (models cfg) q1 = inr (name, role, t) ->
  select_model (models cfg) q2 = inr (name, role, analyze_intent q2).
Proof.
  rewrite !select_model_unfold.
  destruct (default_model_info (models cfg)) as [e|info]; simpl; [discriminate|].
  destruct (py_getitem info "name"); simpl; [discriminate|].
  destruct (py_getitem info "role"); simpl; [discriminate|].
  now intros [= <- <- <-].
Qed.

(** The request that a call posts when the configuration is complete. *)
Lemma generate_response_posts (query : string) (stream : bool) (resp : response)
    (s : session) (name role : pyval) (t : TaskType) (temp : pyval) :
  select_model (models cfg) query = inr (name, role, t) ->
  temperature cfg = Some temp ->
  posted (state_of (generate_response json_loads system_prompt cfg
                                      query stream resp s))
  = posted s ++ [request name stream temp (started name query s)].
Proof.
  intros Sel Temp. rewrite generate_response_unfold, Sel, Temp. cbv zeta.
  set (s1 := started name query s).
  pose proof (stream_loop_effects name (lines resp) EmptyString
                (sent (request name stream temp s1) s1)) as E.
  destruct (stream_loop json_loads name (lines resp) EmptyString
              (sent (request name stream temp s1) s1)) as [[evs s3] r].
  unfold events_of, state_of in *. cbn [fst snd] in *.
  destruct E as (_ & _ & E3 & _).
  destruct r as [e|full]; [|destruct (failure resp)]; cbn [fst snd];
    rewrite E3; reflexivity.
Qed.

(** C10 (amended).  When a call ends with an [Error] event, the user turn
    that it appended before opening the backend call is still in the
    in-memory history: the history is the old one, the user turn, and one
    assistant turn for each [Complete] emitted before the failure.  The
    request of that call already carried the user turn.  If no [Complete]
    was emitted, only the user turn was added.  The prompt of the next
    call contains the failed turn's user message provided that at most
    eight [Complete] events were emitted in the failed call, the prompt
    being the last ten turns. *)
Theorem failed_turn_keeps_user_message (query : string) (stream : bool)
    (resp : response) (s : session) (name role : pyval) (t : TaskType) :
  select_model (models cfg) query = inr (name, role, t) ->
  let x := generate_response json_loads system_prompt cfg query stream resp s in
  ends_with_error (events_of x) = true ->
  (exists turns,
     conversation_history (self (state_of x))
     = conversation_history (self s)
       ++ Message "user" query :: map (Message "assistant") turns /\
     List.length turns = count_completes (events_of x)) /\
  (forall p, In p (posted (state_of x)) ->
     In p (posted s) \/ In (Message "user" query) (p_messages p)) /\
  (count_completes (events_of x) = 0 ->
     conversation_history (self (state_of x))
     = conversation_history (self s) ++ [Message "user" query]) /\
  (count_completes (events_of x) <= 8 ->
   forall temp query2 stream2 resp2,
     temperature cfg = Some temp ->
     exists p,
       posted (state_of (generate_response json_loads system_prompt cfg
                           query2 stream2 resp2 (state_of x)))
       = posted (state_of x) ++ [p] /\
       In (Message "user" query) (p_messages p) /\
       In (Message "user" query2) (p_messages p)).
Proof.
  intros Sel x Err.
  destruct (generate_response_shape query stream resp s Sel)
    as (body & tail & Ev & B & T & _ & _ & _ & _ & H & _ & P).
  fold x in Ev, H, P.
  assert (CC : count_completes (events_of x) = List.length (completes body)).
  { rewrite Ev, count_completes_shape, completes_length; [reflexivity|reflexivity|].
    destruct T as [->|[e ->]]; reflexivity. }
  split; [|split; [|split]].
  - exists (completes body). now split.
  - exact P.
  - intros Z. rewrite H. rewrite CC in Z.
    now destruct (completes body).
  - intros Few temp query2 stream2 resp2 Temp.
    pose proof (select_model_other_query query query2 Sel) as Sel2.
    rewrite (generate_response_posts query2 stream2 resp2 (state_of x) Sel2 Temp).
    eexists. split; [reflexivity|]. cbn [request p_messages].
    split.
    + apply prepare_messages_keeps
        with (a := conversation_history (self s))
             (b := map (Message "assistant") (completes body)
                   ++ [Message "user" query2]).
      * cbn [started self conversation_history]. rewrite H.
        now rewrite <- app_assoc.
      * rewrite length_app, length_map. cbn [List.length]. lia.
    + apply prepare_messages_keeps
        with (a := conversation_history (self (state_of x))) (b := []).
      * reflexivity.
      * cbn. lia.
Qed.

End OrchestratorFacts.

(** ** Concrete runs *)

Lemma sample_select_hi :
  select_model (models sample_config) "hi" = inr (sample_name, sample_role, QUICK).
Proof. vm_compute. reflexivity. Qed.

(** C1, counterexample.  The backend sends one content frame and closes
    the stream: no frame has a true [done], yet the events are
    [ModelSelected], [Content "Hel"] and no [Error]. *)
Lemma partial_stream_yields_no_error :
  no_done Json.json_loads (lines partial_stream) = true /\
  failure partial_stream = None /\
  events_of (sample_chat "hi" partial_stream fresh_world)
  = [ModelSelected sample_name sample_role "quick"; Content "Hel" (PBool false)] /\
  ends_with_error (events_of (sample_chat "hi" partial_stream fresh_world)) = false /\
  count_errors (events_of (sample_chat "hi" partial_stream fresh_world)) = 0.
Proof. vm_compute. repeat split. Qed.

Lemma chat_without_terminal_frame_witness :
  select_model (models sample_config) "hi" = inr (sample_name, sample_role, QUICK) /\
  no_done Json.json_loads (lines timed_out_stream) = true /\
  ends_with_error (events_of (sample_chat "hi" timed_out_stream fresh_world)) = true /\
  count_errors (events_of (sample_chat "hi" timed_out_stream fresh_world)) = 1 /\
  conversation_history
    (self (Api.nexus (state_of (sample_chat "hi" timed_out_stream fresh_world))))
  = [Message "user" "hi"].
Proof.
  assert (Sel : select_model (models sample_config) "hi"
                = inr (sample_name, sample_role, QUICK))
    by (vm_compute; reflexivity).
  assert (Nd : no_done Json.json_loads (lines timed_out_stream) = true)
    by (vm_compute; reflexivity).
  destruct (@chat_without_terminal_frame Json.json_loads sample_prompt
              sample_config "hi" timed_out_stream fresh_world
              sample_name sample_role QUICK Sel Nd)
    as (H & _ & _ & Fail & _).
  destruct (Fail "timed out" eq_refl) as [E1 E2].
  repeat split; assumption.
Defined.

(** C2, counterexample.  The backend sends "Hel", "lo" and a terminal
    frame.  The events and the in-memory history are as the claim says,
    but nothing reaches the store: it has no message row and no index row
    afterwards. *)
Lemma terminal_frame_not_stored :
  done_line Json.json_loads Json.done_frame = true /\
  events_of (sample_chat "hi" hello_stream fresh_world)
  = [ModelSelected sample_name sample_role "quick";
     Content "Hel" (PBool false); Content "lo" (PBool false);
     Complete "Hello" sample_name] /\
  conversation_history
    (self (Api.nexus (state_of (sample_chat "hi" hello_stream fresh_world))))
  = [Message "user" "hi"; Message "assistant" "Hello"] /\
  Store.messages
    (Api.chat_manager (state_of (sample_chat "hi" hello_stream fresh_world))) = [] /\
  Store.messages_fts
    (Api.chat_manager (state_of (sample_chat "hi" hello_stream fresh_world))) = [] /\
  ~ In "Hello"
       (map Store.m_content
          (Store.messages
             (Api.chat_manager (state_of (sample_chat "hi" hello_stream fresh_world))))).
Proof. vm_compute. repeat split. intros []. Qed.

Lemma chat_terminal_frame_witness :
  events_of (sample_chat "hi" hello_stream fresh_world)
  = [ModelSelected sample_name sample_role "quick";
     Content "Hel" (PBool false); Content "lo" (PBool false);
     Complete "Hello" sample_name] /\
  conversation_history
    (self (Api.nexus (state_of (sample_chat "hi" hello_stream fresh_world))))
  = [Message "user" "hi"; Message "assistant" "Hello"] /\
  Api.chat_manager (state_of (sample_chat "hi" hello_stream fresh_world))
  = Store.empty_db.
Proof.
  destruct (@chat_terminal_frame Json.json_loads sample_prompt sample_config
              "hi" hello_stream fresh_world sample_name sample_role QUICK
              (PFloat 7 (-1))
              [Json.content_frame "Hel"; Json.content_frame "lo"]
              Json.done_frame [])
    as (later_events & later_turns & Ev & Hist & St & Last);
    try (vm_compute; reflexivity).
  destruct (Last eq_refl eq_refl) as [-> ->].
  fold (sample_chat "hi" hello_stream fresh_world) in Ev, Hist, St.
  rewrite Ev, Hist, St. vm_compute. repeat split.
Defined.


(** The loop does not stop at a terminal frame: what follows it is still
    read. *)
Example twice_done_stream_events :
  events_of (sample_generate "hi" twice_done_stream fresh_session)
  = [ModelSelected sample_name sample_role "quick";
     Complete EmptyString sample_name; Complete EmptyString sample_name].
Proof. vm_compute. reflexivity. Qed.


(** C8, counterexample.  On the line of 2000 opening brackets
    [json.loads] raises [RecursionError], which the handler of
    [JSONDecodeError] does not catch: the call ends with an [Error] event,
    the frames after the line are not read, and no assistant turn is
    stored.  Without the line the same stream completes. *)
Lemma deep_line_not_skipped :
  Json.json_loads deep_line = DecodeRaised RecursionError /\
  events_of (sample_generate "hi" deep_stream fresh_session)
  = [ModelSelected sample_name sample_role "quick";
     Content "Hel" (PBool false); Error RecursionError sample_name] /\
  conversation_history
    (self (state_of (sample_generate "hi" deep_stream fresh_session)))
  = [Message "user" "hi"] /\
  events_of (sample_generate "hi" hello_stream fresh_session)
  = [ModelSelected sample_name sample_role "quick";
     Content "Hel" (PBool false); Content "lo" (PBool false);
     Complete "Hello" sample_name] /\
  sample_generate "hi" deep_stream fresh_session
  <> sample_generate "hi" hello_stream fresh_session.
Proof.
  assert (E : events_of (sample_generate "hi" deep_stream fresh_session)
              = [ModelSelected sample_name sample_role "quick";
                 Content "Hel" (PBool false); Error RecursionError sample_name])
    by (vm_compute; reflexivity).
  assert (H : events_of (sample_generate "hi" hello_stream fresh_session)
              = [ModelSelected sample_name sample_role "quick";
                 Content "Hel" (PBool false); Content "lo" (PBool false);
                 Complete "Hello" sample_name])
    by (vm_compute; reflexivity).
  split; [vm_compute; reflexivity|]. split; [exact E|].
  split; [vm_compute; reflexivity|]. split; [exact H|].
  intros Eq. rewrite Eq, H in E. discriminate E.
Qed.

Lemma generate_response_skips_undecodable_witness :
  Json.json_loads "{not json" = JSONDecodeError /\
  sample_generate "hi" garbled_stream fresh_session
  = sample_generate "hi" hello_stream fresh_session /\
  events_of (sample_generate "hi" deep_stream fresh_session)
  = events_of (sample_generate "hi" partial_stream fresh_session)
    ++ [Error RecursionError sample_name].
Proof.
  split; [vm_compute; reflexivity|]. split.
  - apply (proj1 (proj2 (@generate_response_skips_undecodable Json.json_loads
                           sample_prompt sample_config "hi" true None
                           fresh_session))
                 [Json.content_frame "Hel"] "{not json"
                 [Json.content_frame "lo"; Json.done_frame]).
    vm_compute. reflexivity.
  - apply (proj2 (proj2 (@generate_response_skips_undecodable Json.json_loads
                           sample_prompt sample_config "hi" true None
                           fresh_session))
                 [Json.content_frame "Hel"] deep_line
                 [Json.content_frame "lo"; Json.done_frame]
                 RecursionError sample_name sample_role QUICK (PFloat 7 (-1)));
      vm_compute; reflexivity.
Defined.

(** The malformed line leaves no trace in the events. *)
Example garbled_stream_events :
  events_of (sample_generate "hi" garbled_stream fresh_session)
  = [ModelSelected sample_name sample_role "quick";
     Content "Hel" (PBool false); Content "lo" (PBool false);
     Complete "Hello" sample_name].
Proof. vm_compute. reflexivity. Qed.

(** C10, counterexample.  The failed call commits nine assistant turns
    before the connection breaks.  Its user message is still in the
    history, but the prompt of the next call, which holds the last ten
    turns, no longer has it. *)
Lemma failed_turn_forgotten :
  ends_with_error (events_of (sample_generate "hi" nine_done_stream fresh_session))
  = true /\
  In (Message "user" "hi")
     (conversation_history
        (self (state_of (sample_generate "hi" nine_done_stream fresh_session)))) /\
  exists p1 p2,
    posted (state_of (sample_generate "why" hello_stream
                        (state_of (sample_generate "hi" nine_done_stream
                                                   fresh_session))))
    = [p1; p2] /\
    p_messages p2
    = Message "system" sample_prompt
        :: repeat (Message "assistant" EmptyString) 9 ++ [Message "user" "why"] /\
    ~ In (Message "user" "hi") (p_messages p2).
Proof.
  split; [vm_compute; reflexivity|]. split; [vm_compute; now left|].
  eexists. eexists. split; [vm_compute; reflexivity|].
  split; [reflexivity|].
  cbn. intros H. repeat (destruct H as [H|H]; [discriminate H|]). exact H.
Qed.

Lemma failed_turn_keeps_user_message_witness :
  ends_with_error (events_of (sample_generate "hi" timed_out_stream fresh_session))
  = true /\
  conversation_history
    (self (state_of (sample_generate "hi" timed_out_stream fresh_session)))
  = [Message "user" "hi"] /\
  exists p,
    posted (state_of (sample_generate "why" hello_stream
                        (state_of (sample_generate "hi" timed_out_stream fresh_session))))
    = posted (state_of (sample_generate "hi" timed_out_stream fresh_session)) ++ [p] /\
    In (Message "user" "hi") (p_messages p).
Proof.
  assert (Err : ends_with_error
                  (events_of (sample_generate "hi" timed_out_stream fresh_session))
                = true) by (vm_compute; reflexivity).
  destruct (@failed_turn_keeps_user_message Json.json_loads sample_prompt
              sample_config "hi" true timed_out_stream fresh_session
              sample_name sample_role QUICK sample_select_hi Err)
    as (_ & _ & Only & Next).
  split; [exact Err|]. split.
  - apply Only. vm_compute. reflexivity.
  - destruct (Next ltac:(vm_compute; lia) (PFloat 7 (-1)) "why" true hello_stream
                   eq_refl) as (p & P1 & P2 & _).
    exists p. split; assumption.
Defined.

(* ================================================================== *)
(** * Properties of the conversation store *)
(* ================================================================== *)

Module StoreFacts.
Import Store StoreSpec.

(** ** Sorting *)

Lemma order_by_snoc {A} (before : A -> A -> bool) (l : list A) (x : A) :
  order_by before (l ++ [x]) = insert_sorted before x (order_by before l).
Proof. unfold order_by. now rewrite fold_left_app. Qed.

Lemma insert_sorted_last {A} (before : A -> A -> bool) (x : A) (l : list A) :
  Forall (fun y => before x y = false) l -> insert_sorted before x l = l ++ [x].
Proof.
  induction 1 as [|y l Hy Hl IH]; simpl; [reflexivity|].
  now rewrite Hy, IH.
Qed.

Lemma insert_sorted_Forall {A} (P : A -> Prop) (before : A -> A -> bool)
    (x : A) (l : list A) :
  P x -> Forall P l -> Forall P (insert_sorted before x l).
Proof.
  intros Px. induction 1 as [|y l Hy Hl IH]; simpl.
  - now constructor.
  - destruct (before x y); repeat constructor; assumption.
Qed.

Lemma order_by_Forall {A} (P : A -> Prop) (before : A -> A -> bool) (l : list A) :
  Forall P l -> Forall P (order_by before l).
Proof.
  induction l as [|x l IH] using rev_ind; intros H.
  - constructor.
  - rewrite order_by_snoc. apply Forall_app in H. destruct H as [Hl Hx].
    apply insert_sorted_Forall; [now inversion Hx|now apply IH].
Qed.

Lemma insert_sorted_not_nil {A} (before : A -> A -> bool) (x : A) (l : list A) :
  insert_sorted before x l <> [].
Proof. destruct l; simpl; [discriminate|]. now destruct (before x a). Qed.

Lemma order_by_nil_inv {A} (before : A -> A -> bool) (l : list A) :
  order_by before l = [] -> l = [].
Proof.
  destruct l as [|x l] using rev_ind; [reflexivity|].
  rewrite order_by_snoc. intros H. now apply insert_sorted_not_nil in H.
Qed.

(** ** What the scripts compute *)

Lemma add_message_unfold (now : nat) (cid : Z) (role content : string)
    (model : option string) (db : DB) :
  add_message now cid role content model db
  = update_conversation now cid
      (insert_fts content cid (insert_message now cid role content model db)).
Proof. reflexivity. Qed.

Lemma delete_conversation_unfold (cid : Z) (db : DB) :
  delete_conversation cid db
  = delete_fts cid (delete_messages cid (delete_conversation_row cid db)).
Proof. reflexivity. Qed.

(** Before its [commit], a script of three statements shows nothing. *)
Lemma three_statements_invisible (s1 s2 s3 : DB -> DB) (db : DB) (n : nat) :
  n < 4 ->
  visible_after n [Execute s1; Execute s2; Execute s3; Commit] db = db.
Proof.
  intros H.
  destruct n as [|[|[|[|n]]]]; try reflexivity. lia.
Qed.

Lemma filter_touch (now : nat) (cid : Z) (l : list conversation_row) :
  filter (fun c => Z.eqb (c_id c) cid)
         (map (fun c => if Z.eqb (c_id c) cid then touch now c else c) l)
  = map (touch now) (filter (fun c => Z.eqb (c_id c) cid) l).
Proof.
  induction l as [|c l IH]; simpl; [reflexivity|].
  destruct (Z.eqb (c_id c) cid) eqn:E; simpl.
  - rewrite E. simpl. now rewrite IH.
  - now rewrite E, IH.
Qed.

Lemma map_touch_absent (now : nat) (cid : Z) (l : list conversation_row) :
  filter (fun c => Z.eqb (c_id c) cid) l = [] ->
  map (fun c => if Z.eqb (c_id c) cid then touch now c else c) l = l.
Proof.
  induction l as [|c l IH]; simpl; [reflexivity|].
  destruct (Z.eqb (c_id c) cid); [discriminate|].
  intros H. now rewrite IH.
Qed.

(** C5.  For a conversation that exists, with a clock that has not run
    backwards: [add_message] appends the message row and the index row and
    replaces the conversation row by one with [message_count] greater by 1
    and [updated_at] set to the current time (not earlier than before).
    [get_conversation] afterwards returns the same messages followed by the
    new one, so its last message has the given content.  Until the commit,
    other connections see the database as it was; after it they see all
    three effects. *)
Theorem add_message_atomic_append (now : nat) (cid : Z) (role content : string)
    (model : option string) (db : DB) (conv : conversation) :
  get_conversation cid db = Some conv ->
  clock_ok now db ->
  let db' := add_message now cid role content model db in
  messages db' = messages db ++ [new_message now cid role content model db] /\
  messages_fts db'
  = messages_fts db ++ [{| f_content := content; f_conversation_id := cid |}] /\
  (exists conv',
     get_conversation cid db' = Some conv' /\
     info conv' = touch now (info conv) /\
     c_message_count (info conv') = (c_message_count (info conv) + 1)%Z /\
     c_updated_at (info conv') = now /\
     c_updated_at (info conv) <= c_updated_at (info conv') /\
     conv_messages conv'
     = conv_messages conv
       ++ [{| v_role := role; v_content := content; v_model := model;
              v_timestamp := now |}] /\
     last (map v_content (conv_messages conv')) EmptyString = content) /\
  (forall n, n < 4 ->
     visible_after n (add_message_script now cid role content model) db = db) /\
  visible_after 4 (add_message_script now cid role content model) db = db'.
Proof.
  intros G [Cm Cc] db'. subst db'. rewrite add_message_unfold.
  split; [reflexivity|]. split; [reflexivity|].
  split; [|split; [intros n Hn; now apply three_statements_invisible|reflexivity]].
  unfold get_conversation in *.
  cbn [update_conversation insert_fts insert_message conversations messages].
  rewrite filter_touch.
  destruct (filter (fun c => Z.eqb (c_id c) cid) (conversations db))
    as [|c0 others] eqn:F; [discriminate|].
  injection G as <-. cbn [map info conv_messages].
  eexists. split; [reflexivity|]. cbn [info conv_messages].
  assert (Up : c_updated_at c0 <= now).
  { rewrite Forall_forall in Cc. apply Cc.
    assert (I : In c0 (filter (fun c => Z.eqb (c_id c) cid) (conversations db)))
      by (rewrite F; now left).
    now apply filter_In in I. }
  split; [reflexivity|]. split; [reflexivity|]. split; [reflexivity|].
  split; [exact Up|].
  rewrite filter_app. cbn [filter m_conversation_id].
  rewrite Z.eqb_refl, order_by_snoc, insert_sorted_last.
  - rewrite map_app. cbn [map view m_role m_content m_model m_timestamp].
    split; [reflexivity|].
    rewrite map_app. cbn [map]. now rewrite last_last.
  - apply order_by_Forall. cbn [m_timestamp].
    apply Forall_forall. intros m Hm. apply filter_In in Hm.
    rewrite Forall_forall in Cm. specialize (Cm m (proj1 Hm)).
    apply Nat.ltb_ge. exact Cm.
Qed.

Lemma get_conversation_none (cid : Z) (db : DB) :
  get_conversation cid db = None <->
  filter (fun c => Z.eqb (c_id c) cid) (conversations db) = [].
Proof.
  unfold get_conversation.
  destruct (filter (fun c => Z.eqb (c_id c) cid) (conversations db));
    split; intros H; try reflexivity; discriminate.
Qed.

(** C9 (amended).  [add_message] on an id that has no conversation row
    creates none: the conversation table is unchanged and
    [get_conversation] still answers not-found.  The message row and the
    index row are stored all the same, attached to no conversation. *)
Theorem add_message_creates_no_conversation (now : nat) (cid : Z)
    (role content : string) (model : option string) (db : DB) :
  get_conversation cid db = None ->
  let db' := add_message now cid role content model db in
  get_conversation cid db' = None /\
  conversations db' = conversations db /\
  messages db' = messages db ++ [new_message now cid role content model db] /\
  messages_fts db'
  = messages_fts db ++ [{| f_content := content; f_conversation_id := cid |}].
Proof.
  intros G db'. subst db'. rewrite add_message_unfold.
  apply get_conversation_none in G.
  assert (C : conversations
                (update_conversation now cid
                   (insert_fts content cid
                      (insert_message now cid role content model db)))
              = conversations db).
  { cbn [update_conversation insert_fts insert_message conversations].
    now apply map_touch_absent. }
  split; [|split; [exact C|split; reflexivity]].
  apply get_conversation_none. now rewrite C.
Qed.

(** C9, counterexample.  On a fresh database a first message for id 1
    leaves the conversation table empty, and [get_conversation 1] answers
    not-found. *)
Lemma first_message_creates_no_conversation :
  get_conversation 1 empty_db = None /\
  get_conversation 1 (add_message 0 1 "user" "hello" None empty_db) = None /\
  conversations (add_message 0 1 "user" "hello" None empty_db) = [].
Proof. vm_compute. repeat split. Qed.

Lemma add_message_creates_no_conversation_witness :
  get_conversation 7 (add_message 5 7 "user" "hello" None empty_db) = None /\
  List.length (messages (add_message 5 7 "user" "hello" None empty_db)) = 1.
Proof.
  destruct (@add_message_creates_no_conversation 5 7 "user" "hello" None empty_db
              eq_refl) as (G & _ & M & _).
  split; [exact G|]. rewrite M. reflexivity.
Defined.

Lemma add_message_atomic_append_witness :
  exists conv',
    get_conversation 1 (add_message 4 1 "user" "hello" None one_conversation)
    = Some conv' /\
    c_message_count (info conv') = 2%Z /\
    map v_content (conv_messages conv') = ["first"; "hello"].
Proof.
  assert (G : get_conversation 1 one_conversation
              = Some {| info := {| c_id := 1; c_title := "Greetings";
                                   c_created_at := 2; c_updated_at := 3;
                                   c_model := None; c_message_count := 1 |};
                        conv_messages := [{| v_role := "user"; v_content := "first";
                                             v_model := None; v_timestamp := 3 |}] |})
    by (vm_compute; reflexivity).
  assert (C : clock_ok 4 one_conversation).
  { split; vm_compute; repeat constructor. }
  destruct (@add_message_atomic_append 4 1 "user" "hello" None one_conversation _ G C)
    as (_ & _ & (conv' & G' & _ & Count & _ & _ & Msgs & _) & _).
  exists conv'. split; [exact G'|]. split.
  - rewrite Count. reflexivity.
  - rewrite Msgs. reflexivity.
Defined.

(** ** Search *)

Lemma filter_map_swap {A B} (f : A -> B) (g : B -> bool) (l : list A) :
  filter g (map f l) = map f (filter (fun a => g (f a)) l).
Proof.
  induction l as [|a l IH]; simpl; [reflexivity|].
  destruct (g (f a)); simpl; now rewrite IH.
Qed.

Lemma filter_none {A} (g : A -> bool) (l : list A) :
  (forall a, In a l -> g a = false) -> filter g l = [].
Proof.
  induction l as [|a l IH]; simpl; intros H; [reflexivity|].
  rewrite (H a) by now left. apply IH. intros b Hb. apply H. now right.
Qed.

Lemma distinct_fold_Forall (P : hit -> Prop) (l : list hit) :
  forall acc, Forall P acc -> Forall P l ->
    Forall P (fold_left (fun acc x => if existsb (hit_eqb x) acc then acc
                                       else acc ++ [x]) l acc).
Proof.
  induction l as [|x l IH]; intros acc Ha Hl; simpl; [exact Ha|].
  inversion Hl as [|? ? Hx Hl']; subst.
  apply IH; [|exact Hl'].
  destruct (existsb (hit_eqb x) acc); [exact Ha|].
  apply Forall_app. split; [exact Ha|now constructor].
Qed.

Lemma distinct_fold_not_nil (l : list hit) :
  forall acc, acc <> [] ->
    fold_left (fun acc x => if existsb (hit_eqb x) acc then acc
                            else acc ++ [x]) l acc <> [].
Proof.
  induction l as [|x l IH]; intros acc Ha; simpl; [exact Ha|].
  apply IH. destruct (existsb (hit_eqb x) acc); [exact Ha|].
  now destruct acc.
Qed.

Lemma distinct_Forall (P : hit -> Prop) (l : list hit) :
  Forall P l -> Forall P (distinct l).
Proof. intros H. now apply distinct_fold_Forall. Qed.

Lemma distinct_not_nil (l : list hit) : l <> [] -> distinct l <> [].
Proof.
  destruct l as [|x l]; [intros H; now elim H|]. intros _.
  unfold distinct. simpl. now apply distinct_fold_not_nil.
Qed.

Lemma firstn_Forall {A} (P : A -> Prop) (n : nat) (l : list A) :
  Forall P l -> Forall P (firstn n l).
Proof.
  intros H. revert n. induction H as [|x l Hx Hl IH]; intros [|n]; simpl;
    constructor; auto.
Qed.

Lemma sql_limit_Forall {A} (P : A -> Prop) (limit : Z) (l : list A) :
  Forall P l -> Forall P (sql_limit limit l).
Proof.
  intros H. unfold sql_limit. destruct (Z.ltb limit 0); [exact H|].
  now apply firstn_Forall.
Qed.

Lemma sql_limit_not_nil {A} (limit : Z) (l : list A) :
  limit <> 0%Z -> l <> [] -> sql_limit limit l <> [].
Proof.
  intros Hl Hn. unfold sql_limit.
  destruct (Z.ltb_spec limit 0); [exact Hn|].
  destruct (Z.to_nat limit) as [|n] eqn:E; [lia|].
  destruct l; [now elim Hn|discriminate].
Qed.

Lemma joined_no_match (matches : string -> bool) (db : DB) :
  (forall f, In f (messages_fts db) -> matches (f_content f) = false) ->
  joined matches db = [].
Proof.
  intros H. unfold joined.
  induction (conversations db) as [|c l IH]; simpl; [reflexivity|].
  rewrite IH, filter_none; [reflexivity|].
  intros f Hf. rewrite (H f Hf). apply andb_false_r.
Qed.

Lemma joined_Forall (matches : string -> bool) (db : DB) (P : hit -> Prop) :
  (forall c f, In c (conversations db) -> In f (messages_fts db) ->
     Z.eqb (c_id c) (f_conversation_id f) && matches (f_content f) = true ->
     P (hit_of c)) ->
  Forall P (joined matches db).
Proof.
  intros H. unfold joined. apply Forall_forall. intros h Hh.
  apply in_flat_map in Hh. destruct Hh as (c & Hc & Hh).
  apply in_map_iff in Hh. destruct Hh as (f & <- & Hf).
  apply filter_In in Hf. destruct Hf as [Hf M].
  exact (H c f Hc Hf M).
Qed.

Lemma joined_In (matches : string -> bool) (db : DB) (c : conversation_row)
    (f : fts_row) :
  In c (conversations db) -> In f (messages_fts db) ->
  c_id c = f_conversation_id f -> matches (f_content f) = true ->
  In (hit_of c) (joined matches db).
Proof.
  intros Hc Hf E M. unfold joined. apply in_flat_map. exists c.
  split; [exact Hc|]. apply in_map_iff. exists f. split; [reflexivity|].
  apply filter_In. split; [exact Hf|]. rewrite E, Z.eqb_refl. exact M.
Qed.

Lemma index_consistent_add (now : nat) (cid : Z) (role content : string)
    (model : option string) (db : DB) :
  index_consistent db -> index_consistent (add_message now cid role content model db).
Proof.
  unfold index_consistent. rewrite add_message_unfold.
  cbn [update_conversation insert_fts insert_message messages messages_fts].
  intros ->. now rewrite map_app.
Qed.

Lemma index_consistent_delete (cid : Z) (db : DB) :
  index_consistent db -> index_consistent (delete_conversation cid db).
Proof.
  unfold index_consistent. rewrite delete_conversation_unfold.
  cbn [delete_fts delete_messages delete_conversation_row messages messages_fts].
  intros ->. now rewrite filter_map_swap.
Qed.

Lemma index_consistent_create (now : nat) (title : string) (model : option string)
    (db : DB) :
  index_consistent db -> index_consistent (fst (create_conversation now title model db)).
Proof. intros H. exact H. Qed.

Lemma index_consistent_clear (db : DB) : index_consistent (clear_all_history db).
Proof. reflexivity. Qed.

Lemma delete_conversation_idempotent (cid : Z) (db : DB) :
  delete_conversation cid (delete_conversation cid db) = delete_conversation cid db.
Proof.
  rewrite !delete_conversation_unfold.
  unfold delete_fts, delete_messages, delete_conversation_row.
  cbn [conversations messages messages_fts seq_conversations seq_messages].
  f_equal.
  - induction (conversations db) as [|c l IH]; simpl; [reflexivity|].
    destruct (negb (Z.eqb (c_id c) cid)) eqn:E; simpl; [rewrite E|]; now rewrite IH.
  - induction (messages db) as [|c l IH]; simpl; [reflexivity|].
    destruct (negb (Z.eqb (m_conversation_id c) cid)) eqn:E; simpl; [rewrite E|];
      now rewrite IH.
  - induction (messages_fts db) as [|c l IH]; simpl; [reflexivity|].
    destruct (negb (Z.eqb (f_conversation_id c) cid)) eqn:E; simpl; [rewrite E|];
      now rewrite IH.
Qed.

Lemma delete_absent_conversation (cid : Z) (db : DB) :
  has_conversation cid db = false ->
  conversations (delete_conversation cid db) = conversations db.
Proof.
  unfold has_conversation. rewrite delete_conversation_unfold.
  cbn [delete_fts delete_messages delete_conversation_row conversations].
  induction (conversations db) as [|c l IH]; simpl; [reflexivity|].
  destruct (Z.eqb (c_id c) cid); simpl; [discriminate|].
  intros H. now rewrite IH.
Qed.

Section SearchFacts.
Variable fts5_match : string -> option (string -> bool).

(** C6 (amended).  Let the index be consistent with the messages and [c]
    be an existing conversation.  When the engine accepts [t] as a query
    that matches a message whose content is [t], and no stored message
    matches it: after [add_message] of [t] to [c], a search for [t] (with
    a limit other than 0) succeeds, returns at least one hit, and every
    hit is conversation [c]; after [delete_conversation c] the same search
    returns no hit.  When the engine rejects [t] as a query, the search
    for [t] raises, after the append and after the delete alike.  The
    index stays consistent with the messages through both operations.
    [delete_conversation] removes the conversation row, its messages and
    its index rows and nothing else; nothing of it is visible before its
    commit; it never fails, leaves the conversation table as it is when
    the id is absent, and deleting twice is the same as deleting once. *)
Theorem search_follows_messages (now : nat) (c : Z) (role t : string)
    (model : option string) (db : DB) (limit : Z) :
  index_consistent db ->
  has_conversation c db = true ->
  limit <> 0%Z ->
  let db1 := add_message now c role t model db in
  let db2 := delete_conversation c db1 in
  (forall matches,
     fts5_match t = Some matches -> matches t = true ->
     (forall m, In m (messages db) -> matches (m_content m) = false) ->
     (exists hits,
        search_conversations fts5_match t limit db1 = inr hits /\
        (exists h, In h hits /\ h_id h = c) /\
        Forall (fun h => h_id h = c) hits) /\
     search_conversations fts5_match t limit db2 = inr []) /\
  (fts5_match t = None ->
   search_conversations fts5_match t limit db1 = inl OperationalError /\
   search_conversations fts5_match t limit db2 = inl OperationalError) /\
  index_consistent db1 /\ index_consistent db2 /\
  get_conversation c db2 = None /\
  conversations db2
  = filter (fun r => negb (Z.eqb (c_id r) c)) (conversations db1) /\
  messages db2
  = filter (fun m => negb (Z.eqb (m_conversation_id m) c)) (messages db1) /\
  messages_fts db2
  = filter (fun f => negb (Z.eqb (f_conversation_id f) c)) (messages_fts db1) /\
  (forall n, n < 4 -> visible_after n (delete_conversation_script c) db1 = db1) /\
  delete_conversation c db2 = db2 /\
  (forall c0 db0, has_conversation c0 db0 = false ->
     conversations (delete_conversation c0 db0) = conversations db0).
Proof.
  intros Ix Has Lim db1 db2.
  assert (Ix1 : index_consistent db1) by now apply index_consistent_add.
  assert (Ix2 : index_consistent db2) by now apply index_consistent_delete.
  assert (F1 : messages_fts db1
               = messages_fts db ++ [{| f_content := t; f_conversation_id := c |}])
    by reflexivity.
  assert (C1 : conversations db1
               = map (fun r => if Z.eqb (c_id r) c then touch now r else r)
                     (conversations db)) by reflexivity.
  assert (Accepted : forall matches,
            fts5_match t = Some matches -> matches t = true ->
            (forall m, In m (messages db) -> matches (m_content m) = false) ->
            (exists hits,
               search_conversations fts5_match t limit db1 = inr hits /\
               (exists h, In h hits /\ h_id h = c) /\
               Forall (fun h => h_id h = c) hits) /\
            search_conversations fts5_match t limit db2 = inr []);
    [intros matches Q Mt Fresh;
     assert (Old : forall f, In f (messages_fts db) -> matches (f_content f) = false)
       by (intros f Hf; rewrite Ix in Hf; apply in_map_iff in Hf;
           destruct Hf as (m & <- & Hm); cbn [f_content]; now apply Fresh);
     split|].
  - unfold search_conversations. rewrite Q. eexists. split; [reflexivity|].
    assert (All : Forall (fun h => h_id h = c) (joined matches db1)).
    { apply joined_Forall. intros r f Hr Hf M.
      apply andb_true_iff in M. destruct M as [E M].
      rewrite F1 in Hf. apply in_app_or in Hf. destruct Hf as [Hf|[<-|[]]].
      - rewrite (Old f Hf) in M. discriminate.
      - cbn [f_conversation_id] in E. apply Z.eqb_eq in E. exact E. }
    assert (Ne : joined matches db1 <> []).
    { unfold has_conversation in Has. apply existsb_exists in Has.
      destruct Has as (r & Hr & E). apply Z.eqb_eq in E.
      assert (I : In (hit_of (touch now r)) (joined matches db1)).
      { apply joined_In with (f := {| f_content := t; f_conversation_id := c |}).
        - rewrite C1. apply in_map_iff. exists r. split; [|exact Hr].
          now rewrite E, Z.eqb_refl.
        - rewrite F1. apply in_or_app. right. now left.
        - exact E.
        - exact Mt. }
      intros N. now rewrite N in I. }
    set (hits := sql_limit limit
                   (order_by (fun a b => Nat.ltb (h_updated_at b) (h_updated_at a))
                             (distinct (joined matches db1)))).
    assert (AllH : Forall (fun h => h_id h = c) hits).
    { apply sql_limit_Forall, order_by_Forall, distinct_Forall, All. }
    assert (NeH : hits <> []).
    { apply sql_limit_not_nil; [exact Lim|].
      intros N. apply order_by_nil_inv in N. now apply distinct_not_nil in N. }
    split; [|exact AllH].
    destruct hits as [|h rest]; [now elim NeH|].
    exists h. split; [now left|]. now inversion AllH.
  - unfold search_conversations. rewrite Q.
    rewrite joined_no_match;
      [unfold ret, sql_limit; cbn;
       destruct (Z.ltb limit 0); [reflexivity|now rewrite firstn_nil]|].
    intros f Hf. subst db2. rewrite delete_conversation_unfold in Hf.
    cbn [delete_fts delete_messages delete_conversation_row messages_fts] in Hf.
    apply filter_In in Hf. destruct Hf as [Hf N]. rewrite F1 in Hf.
    apply in_app_or in Hf. destruct Hf as [Hf|[<-|[]]]; [now apply Old|].
    cbn [f_conversation_id] in N. now rewrite Z.eqb_refl in N.
  - split; [exact Accepted|].
    split; [intros Q; unfold search_conversations; now rewrite Q|].
    split; [exact Ix1|]. split; [exact Ix2|].
    split; [|split; [reflexivity|split; [reflexivity|split; [reflexivity|]]]].
    + apply get_conversation_none. subst db2. rewrite delete_conversation_unfold.
      cbn [delete_fts delete_messages delete_conversation_row conversations].
      apply filter_none. intros r Hr. apply filter_In in Hr.
      destruct Hr as [_ N]. now apply negb_true_iff in N.
    + split; [intros n Hn; now apply three_statements_invisible|].
      split; [apply delete_conversation_idempotent|].
      intros c0 db0. apply delete_absent_conversation.
Qed.

End SearchFacts.

End StoreFacts.

(** ** The invariants along a history of calls *)

Module StoreHistory.
Import Store StoreSpec StoreFacts.

Lemma clock_ok_empty (now : nat) : clock_ok now empty_db.
Proof. split; constructor. Qed.

Lemma Forall_le_later {A} (key : A -> nat) (now now' : nat) (l : list A) :
  now <= now' -> Forall (fun x => key x <= now) l -> Forall (fun x => key x <= now') l.
Proof.
  intros L H. eapply Forall_impl; [|exact H]. cbn. intros x Hx. lia.
Qed.

Lemma Forall_filter {A} (P : A -> Prop) (g : A -> bool) (l : list A) :
  Forall P l -> Forall P (filter g l).
Proof.
  induction 1 as [|x l Hx Hl IH]; simpl; [constructor|].
  destruct (g x); [now constructor|exact IH].
Qed.

(** A call made at a time not earlier than the stamps already stored
    leaves no stamp later than its own time. *)
Lemma clock_ok_step (now now' : nat) (o : op) (db : DB) :
  clock_ok now db -> now <= now' -> clock_ok now' (apply_op now' o db).
Proof.
  intros [Hm Hc] L.
  pose proof (Forall_le_later m_timestamp L Hm) as Hm'.
  pose proof (Forall_le_later c_updated_at L Hc) as Hc'.
  destruct o as [title model|cid role content model|cid|]; split; cbn.
  - exact Hm'.
  - apply Forall_app. split; [exact Hc'|]. now repeat constructor.
  - apply Forall_app. split; [exact Hm'|]. now repeat constructor.
  - apply Forall_forall. intros r Hr. apply in_map_iff in Hr.
    destruct Hr as (r0 & <- & Hr0).
    rewrite Forall_forall in Hc'. specialize (Hc' r0 Hr0).
    now destruct (Z.eqb (c_id r0) cid).
  - now apply Forall_filter.
  - now apply Forall_filter.
  - constructor.
  - constructor.
Qed.

(** Every call keeps the index in step with the messages. *)
Lemma index_consistent_step (now : nat) (o : op) (db : DB) :
  index_consistent db -> index_consistent (apply_op now o db).
Proof.
  intros H. destruct o; cbn [apply_op].
  - now apply index_consistent_create.
  - now apply index_consistent_add.
  - now apply index_consistent_delete.
  - apply index_consistent_clear.
Qed.

Lemma index_consistent_empty : index_consistent empty_db.
Proof. reflexivity. Qed.

End StoreHistory.

Module StoreRuns.
Import Store StoreSpec StoreFacts.

Lemma search_follows_messages_witness :
  (exists hits,
     search_conversations SampleFts.fts5_match "token42" 20
       (add_message 4 1 "user" "token42" None one_conversation) = inr hits /\
     exists h, In h hits /\ h_id h = 1%Z) /\
  search_conversations SampleFts.fts5_match "token42" 20
    (delete_conversation 1
       (add_message 4 1 "user" "token42" None one_conversation)) = inr [].
Proof.
  destruct (@search_follows_messages SampleFts.fts5_match 4 1 "user" "token42"
              None one_conversation 20)
    as (Accepted & _).
  - vm_compute. reflexivity.
  - vm_compute. reflexivity.
  - discriminate.
  - destruct (Accepted (SampleFts.has_word "token42"))
      as ((hits & S1 & Inc & _) & S2).
    + reflexivity.
    + vm_compute. reflexivity.
    + intros m [<-|[]]. vm_compute. reflexivity.
    + split; [|exact S2]. exists hits. split; [exact S1|exact Inc].
Defined.

(** C6, counterexample.  The spec's own token is not an expression that
    the engine accepts: stored as a message, it cannot be searched for.
    The search raises after the append, and after the delete as well. *)
Lemma hyphenated_token_search_raises :
  has_conversation 1 one_conversation = true /\
  In "unique-token-42"
     (map m_content
          (messages (add_message 4 1 "user" "unique-token-42" None
                                 one_conversation))) /\
  search_conversations SampleFts.fts5_match "unique-token-42" 20
    (add_message 4 1 "user" "unique-token-42" None one_conversation)
  = inl OperationalError /\
  search_conversations SampleFts.fts5_match "unique-token-42" 20
    (delete_conversation 1
       (add_message 4 1 "user" "unique-token-42" None one_conversation))
  = inl OperationalError.
Proof.
  split; [vm_compute; reflexivity|]. split; [vm_compute; auto|].
  split; vm_compute; reflexivity.
Qed.

(** The search, run: one hit, with the counter and the stamp of the
    conversation after the append. *)
Example search_run :
  search_conversations SampleFts.fts5_match "token42" 20
    (add_message 4 1 "user" "token42" None one_conversation)
  = inr [{| h_id := 1; h_title := "Greetings"; h_created_at := 2;
            h_updated_at := 4; h_message_count := 2 |}].
Proof. vm_compute. reflexivity. Qed.

End StoreRuns.

(* ================================================================== *)
(** * More properties of the conversation store *)
(* ================================================================== *)

Module StoreMore.
Import Store StoreSpec StoreFacts StoreHistory StoreInv.

(** ** [ORDER BY] gives a sorted rearrangement *)

Lemma insert_sorted_perm {A} (before : A -> A -> bool) (x : A) (l : list A) :
  Permutation (insert_sorted before x l) (x :: l).
Proof.
  induction l as [|y l IH]; simpl; [reflexivity|].
  destruct (before x y); [reflexivity|].
  rewrite IH. apply perm_swap.
Qed.

Lemma order_by_perm {A} (before : A -> A -> bool) (l : list A) :
  Permutation (order_by before l) l.
Proof.
  induction l as [|x l IH] using rev_ind; [reflexivity|].
  rewrite order_by_snoc, insert_sorted_perm, IH.
  apply Permutation_cons_append.
Qed.

Section Sorting.
Context {A : Type}.
Variable before : A -> A -> bool.
(** What the two comparators of the module have in common: if [x] sorts
    strictly before [y] and [z] does not, then [z] does not sort strictly
    before [x]. *)
Hypothesis before_chain :
  forall x y z, before x y = true -> before z y = false -> before z x = false.
Hypothesis before_irrefl : forall x, before x x = false.

#[warnings="-notation-for-abbreviation"]
Local Notation in_order := (in_order before).

Lemma insert_sorted_sorted (x : A) (l : list A) :
  StronglySorted in_order l -> StronglySorted in_order (insert_sorted before x l).
Proof.
  induction 1 as [|y l Hl IH Hy]; simpl.
  - repeat constructor.
  - destruct (before x y) eqn:E.
    + constructor; [now constructor|].
      constructor.
      * unfold in_order. apply before_chain with (y := y); [exact E|].
        apply before_irrefl.
      * eapply Forall_impl; [|exact Hy]. cbn. unfold in_order. intros z Hz.
        now apply before_chain with (y := y).
    + constructor; [exact IH|].
      eapply Permutation_Forall; [symmetry; apply insert_sorted_perm|].
      constructor; [exact E|exact Hy].
Qed.

Lemma order_by_sorted (l : list A) : StronglySorted in_order (order_by before l).
Proof.
  induction l as [|x l IH] using rev_ind; [constructor|].
  rewrite order_by_snoc. now apply insert_sorted_sorted.
Qed.
End Sorting.


Lemma StronglySorted_firstn {A} (R : A -> A -> Prop) (n : nat) (l : list A) :
  StronglySorted R l -> StronglySorted R (firstn n l).
Proof.
  intros H. revert n. induction H as [|x l Hl IH Hx]; intros [|n]; simpl;
    try constructor.
  - apply IH.
  - apply firstn_Forall. exact Hx.
Qed.

Lemma StronglySorted_map {A B} (f : A -> B) (R : B -> B -> Prop) (l : list A) :
  StronglySorted (fun a b => R (f a) (f b)) l -> StronglySorted R (map f l).
Proof.
  induction 1 as [|x l Hl IH Hx]; simpl; constructor; [exact IH|].
  apply Forall_map. exact Hx.
Qed.

Lemma StronglySorted_weaken {A} (R S : A -> A -> Prop) (l : list A) :
  (forall a b, R a b -> S a b) -> StronglySorted R l -> StronglySorted S l.
Proof.
  intros RS. induction 1 as [|x l Hl IH Hx]; constructor; [exact IH|].
  eapply Forall_impl; [|exact Hx]. intros b. apply RS.
Qed.

Lemma sql_limit_sorted {A} (R : A -> A -> Prop) (limit : Z) (l : list A) :
  StronglySorted R l -> StronglySorted R (sql_limit limit l).
Proof.
  intros H. unfold sql_limit. destruct (Z.ltb limit 0); [exact H|].
  now apply StronglySorted_firstn.
Qed.

Lemma sql_limit_prefix {A} (limit : Z) (l : list A) :
  exists rest, sql_limit limit l ++ rest = l.
Proof.
  unfold sql_limit. destruct (Z.ltb limit 0).
  - exists []. apply app_nil_r.
  - exists (skipn (Z.to_nat limit) l). apply firstn_skipn.
Qed.

Lemma sql_limit_length {A} (limit : Z) (l : list A) :
  List.length (sql_limit limit l)
  = if Z.ltb limit 0 then List.length l
    else Nat.min (Z.to_nat limit) (List.length l).
Proof.
  unfold sql_limit. destruct (Z.ltb limit 0); [reflexivity|]. apply length_firstn.
Qed.

Lemma updated_desc_sorted (l : list conversation_row) :
  StronglySorted (fun a b => c_updated_at b <= c_updated_at a)
    (order_by (fun a b => Nat.ltb (c_updated_at b) (c_updated_at a)) l).
Proof.
  eapply StronglySorted_weaken; [|apply order_by_sorted].
  - unfold in_order. intros a b H. apply Nat.ltb_ge in H. exact H.
  - intros x y z H1 H2. apply Nat.ltb_lt in H1. apply Nat.ltb_ge in H2.
    apply Nat.ltb_ge. lia.
  - intros x. apply Nat.ltb_irrefl.
Qed.

(** X1.  [get_conversations] returns stored rows, most recently updated
    first: the answer is sorted by [updated_at] in descending order, it is
    the beginning of a rearrangement of the conversation table, and its
    length is the table's length cut at [limit] (a negative [limit] cuts
    nothing). *)
Theorem get_conversations_sorted_prefix (limit : Z) (db : DB) :
  StronglySorted (fun a b => c_updated_at b <= c_updated_at a)
                 (get_conversations limit db) /\
  (exists rest, Permutation (get_conversations limit db ++ rest) (conversations db)) /\
  List.length (get_conversations limit db)
  = (if Z.ltb limit 0 then List.length (conversations db)
     else Nat.min (Z.to_nat limit) (List.length (conversations db))).
Proof.
  unfold get_conversations. split; [|split].
  - apply sql_limit_sorted, updated_desc_sorted.
  - destruct (sql_limit_prefix limit
                (order_by (fun a b => Nat.ltb (c_updated_at b) (c_updated_at a))
                          (conversations db))) as [rest E].
    exists rest. rewrite E. apply order_by_perm.
  - rewrite sql_limit_length.
    now rewrite (Permutation_length (order_by_perm _ (conversations db))).
Qed.

(** X2.  The messages that [get_conversation] returns are exactly the
    stored messages of that conversation, rearranged so that their
    timestamps ascend. *)
Theorem get_conversation_messages_sorted (cid : Z) (db : DB) (conv : conversation) :
  get_conversation cid db = Some conv ->
  StronglySorted (fun a b => v_timestamp a <= v_timestamp b) (conv_messages conv) /\
  Permutation (conv_messages conv) (map view (messages_of cid db)) /\
  c_id (info conv) = cid /\ In (info conv) (conversations db).
Proof.
  unfold get_conversation, messages_of.
  destruct (filter (fun c => Z.eqb (c_id c) cid) (conversations db))
    as [|c0 others] eqn:F; [discriminate|].
  intros [= <-]. cbn [conv_messages info].
  assert (I : In c0 (filter (fun c => Z.eqb (c_id c) cid) (conversations db)))
    by (rewrite F; now left).
  apply filter_In in I. destruct I as [I E]. apply Z.eqb_eq in E.
  split; [|split; [|split; assumption]].
  - apply StronglySorted_map.
    eapply StronglySorted_weaken; [|apply order_by_sorted].
    + unfold in_order. cbn. intros a b H. apply Nat.ltb_ge in H. exact H.
    + intros x y z H1 H2. apply Nat.ltb_lt in H1. apply Nat.ltb_ge in H2.
      apply Nat.ltb_ge. lia.
    + intros x. apply Nat.ltb_irrefl.
  - apply Permutation_map, order_by_perm.
Qed.

Lemma get_conversation_messages_sorted_witness :
  exists conv,
    get_conversation 2 (replay sample_log empty_db) = Some conv /\
    map v_content (conv_messages conv) = ["question"; "answer"] /\
    StronglySorted (fun a b => v_timestamp a <= v_timestamp b) (conv_messages conv).
Proof.
  assert (G : exists conv, get_conversation 2 (replay sample_log empty_db) = Some conv)
    by (vm_compute; eexists; reflexivity).
  destruct G as [conv G]. exists conv. split; [exact G|]. split.
  - vm_compute in G. injection G as <-. reflexivity.
  - apply (proj1 (@get_conversation_messages_sorted 2 (replay sample_log empty_db)
                    conv G)).
Defined.

(** ** One conversation at a time *)

Lemma filter_touch_other (now : nat) (c c' : Z) (l : list conversation_row) :
  c' <> c ->
  filter (fun r => Z.eqb (c_id r) c')
         (map (fun r => if Z.eqb (c_id r) c then touch now r else r) l)
  = filter (fun r => Z.eqb (c_id r) c') l.
Proof.
  intros N. induction l as [|r l IH]; simpl; [reflexivity|].
  destruct (Z.eqb_spec (c_id r) c) as [E|E]; cbn [touch c_id].
  - destruct (Z.eqb_spec (c_id r) c'); [congruence|exact IH].
  - now rewrite IH.
Qed.

Lemma filter_filter_other {A} (key : A -> Z) (c c' : Z) (l : list A) :
  c' <> c ->
  filter (fun r => Z.eqb (key r) c') (filter (fun r => negb (Z.eqb (key r) c)) l)
  = filter (fun r => Z.eqb (key r) c') l.
Proof.
  intros N. induction l as [|r l IH]; simpl; [reflexivity|].
  destruct (Z.eqb_spec (key r) c) as [E|E]; simpl.
  - destruct (Z.eqb_spec (key r) c'); [congruence|exact IH].
  - now rewrite IH.
Qed.

(** X3.  [add_message] and [delete_conversation] on conversation [c]
    change nothing of what [get_conversation] returns for any other id. *)
Theorem other_conversations_untouched (now : nat) (c c' : Z)
    (role content : string) (model : option string) (db : DB) :
  c' <> c ->
  get_conversation c' (add_message now c role content model db)
  = get_conversation c' db /\
  get_conversation c' (delete_conversation c db) = get_conversation c' db.
Proof.
  intros N. split.
  - rewrite add_message_unfold. unfold get_conversation.
    cbn [update_conversation insert_fts insert_message conversations messages].
    rewrite (filter_touch_other now _ N), filter_app. cbn [filter m_conversation_id].
    destruct (Z.eqb_spec c c'); [congruence|]. now rewrite app_nil_r.
  - rewrite delete_conversation_unfold. unfold get_conversation.
    cbn [delete_fts delete_messages delete_conversation_row conversations messages].
    now rewrite (filter_filter_other c_id _ N),
                (filter_filter_other m_conversation_id _ N).
Qed.

Lemma other_conversations_untouched_witness :
  get_conversation 2 (add_message 9 1 "user" "more" None (replay sample_log empty_db))
  = get_conversation 2 (replay sample_log empty_db) /\
  get_conversation 2 (delete_conversation 3 (replay sample_log empty_db))
  = get_conversation 2 (replay sample_log empty_db).
Proof.
  split.
  - apply (@other_conversations_untouched 9 1 2 "user" "more" None
             (replay sample_log empty_db)). discriminate.
  - apply (@other_conversations_untouched 0 3 2 "user" "more" None
             (replay sample_log empty_db)). discriminate.
Defined.

(** ** Search results *)

Lemma hit_eqb_eq (a b : hit) : hit_eqb a b = true <-> a = b.
Proof.
  unfold hit_eqb. destruct a, b; cbn. rewrite !andb_true_iff.
  rewrite !Z.eqb_eq, !Nat.eqb_eq, String.eqb_eq.
  split; [intros [[[[-> ->] ->] ->] ->]; reflexivity|].
  intros [= -> -> -> -> ->]. auto.
Qed.

Lemma distinct_fold_NoDup (l : list hit) :
  forall acc, NoDup acc ->
    NoDup (fold_left (fun acc x => if existsb (hit_eqb x) acc then acc
                                   else acc ++ [x]) l acc).
Proof.
  induction l as [|x l IH]; intros acc Ha; simpl; [exact Ha|].
  apply IH. destruct (existsb (hit_eqb x) acc) eqn:E; [exact Ha|].
  apply NoDup_app; [exact Ha|repeat constructor; intros []|].
  intros y Hy [Exy|[]]. subst y.
  assert (existsb (hit_eqb x) acc = true); [|congruence].
  apply existsb_exists. exists x. split; [exact Hy|]. now apply hit_eqb_eq.
Qed.

Lemma distinct_NoDup (l : list hit) : NoDup (distinct l).
Proof. apply distinct_fold_NoDup. constructor. Qed.

Lemma NoDup_firstn {A} (n : nat) (l : list A) : NoDup l -> NoDup (firstn n l).
Proof.
  intros H. rewrite <- (firstn_skipn n l) in H.
  now apply NoDup_app_remove_r in H.
Qed.

Lemma sql_limit_NoDup {A} (limit : Z) (l : list A) :
  NoDup l -> NoDup (sql_limit limit l).
Proof.
  intros H. unfold sql_limit. destruct (Z.ltb limit 0); [exact H|].
  now apply NoDup_firstn.
Qed.

Section SearchMore.
Variable fts5_match : string -> option (string -> bool).

(** X4.  [search_conversations] raises exactly when the engine rejects the
    query.  Otherwise no hit is returned twice, every hit is a stored
    conversation that has an index row which the query matches, the hits
    are sorted by [updated_at] in descending order, and a non-negative
    [limit] bounds their number. *)
Theorem search_hits_distinct_sorted (query : string) (limit : Z) (db : DB) :
  (fts5_match query = None <->
   search_conversations fts5_match query limit db = inl OperationalError) /\
  (forall matches, fts5_match query = Some matches ->
   exists hits,
     search_conversations fts5_match query limit db = inr hits /\
     NoDup hits /\
     Forall (fun h => exists c f,
               In c (conversations db) /\ In f (messages_fts db) /\
               f_conversation_id f = c_id c /\ matches (f_content f) = true /\
               h = hit_of c) hits /\
     StronglySorted (fun a b => h_updated_at b <= h_updated_at a) hits /\
     ((0 <= limit)%Z -> List.length hits <= Z.to_nat limit)).
Proof.
  unfold search_conversations. split.
  - destruct (fts5_match query); split; intros H; try reflexivity; discriminate.
  - intros matches ->. eexists. split; [reflexivity|].
    split; [|split; [|split]].
    + apply sql_limit_NoDup.
      eapply Permutation_NoDup; [symmetry; apply order_by_perm|].
      apply distinct_NoDup.
    + apply sql_limit_Forall, order_by_Forall, distinct_Forall, joined_Forall.
      intros c f Hc Hf M. apply andb_true_iff in M. destruct M as [E M].
      apply Z.eqb_eq in E. exists c, f. auto.
    + apply sql_limit_sorted.
      eapply StronglySorted_weaken; [|apply order_by_sorted].
      * unfold in_order. cbn. intros a b H. apply Nat.ltb_ge in H. exact H.
      * intros x y z H1 H2. apply Nat.ltb_lt in H1. apply Nat.ltb_ge in H2.
        apply Nat.ltb_ge. lia.
      * intros x. apply Nat.ltb_irrefl.
    + intros L. rewrite sql_limit_length.
      destruct (Z.ltb_spec limit 0); lia.
Qed.
End SearchMore.

Lemma search_hits_distinct_sorted_witness :
  exists hits,
    search_conversations SampleFts.fts5_match "answer" 1
      (replay sample_log empty_db) = inr hits /\
    NoDup hits /\ List.length hits <= 1.
Proof.
  destruct (proj2 (@search_hits_distinct_sorted SampleFts.fts5_match "answer" 1
                     (replay sample_log empty_db))
                  (SampleFts.has_word "answer") eq_refl)
    as (hits & S & N & _ & _ & L).
  exists hits. split; [exact S|]. split; [exact N|].
  apply L. discriminate.
Defined.

(** ** Clearing *)

(** X5.  After [clear_all_history] nothing can be retrieved:
    [get_conversations] is empty for every limit, [get_conversation] answers
    not-found for every id and a search returns no hit.  The
    [AUTOINCREMENT] counters are kept, and nothing of the deletion is
    visible to other connections before its commit. *)
Theorem clear_all_history_empties (db : DB) :
  (forall limit, get_conversations limit (clear_all_history db) = []) /\
  (forall cid, get_conversation cid (clear_all_history db) = None) /\
  (forall fts5_match query limit matches,
     fts5_match query = Some matches ->
     search_conversations fts5_match query limit (clear_all_history db) = inr []) /\
  seq_conversations (clear_all_history db) = seq_conversations db /\
  seq_messages (clear_all_history db) = seq_messages db /\
  (forall n, n < 4 -> visible_after n clear_all_history_script db = db).
Proof.
  split; [|split; [|split; [|split; [reflexivity|split; [reflexivity|]]]]].
  - intros limit. unfold get_conversations, sql_limit. cbn.
    destruct (Z.ltb limit 0); [reflexivity|apply firstn_nil].
  - reflexivity.
  - intros fts5_match query limit matches Q.
    unfold search_conversations. rewrite Q. unfold sql_limit. cbn.
    destruct (Z.ltb limit 0); [reflexivity|now rewrite firstn_nil].
  - intros n Hn. now apply three_statements_invisible.
Qed.

Lemma clear_all_history_empties_witness :
  get_conversations 50 (clear_all_history (replay sample_log empty_db)) = [] /\
  search_conversations SampleFts.fts5_match "answer" 20
    (clear_all_history (replay sample_log empty_db)) = inr [] /\
  visible_after 3 clear_all_history_script (replay sample_log empty_db)
  = replay sample_log empty_db.
Proof.
  destruct (clear_all_history_empties (replay sample_log empty_db))
    as (L & _ & S & _ & _ & V).
  split; [apply L|]. split.
  - apply (S SampleFts.fts5_match "answer" 20%Z (SampleFts.has_word "answer")).
    reflexivity.
  - apply V. lia.
Defined.


(** ** Ids *)

Lemma seq_conversations_step (now : nat) (o : op) (db : DB) :
  (seq_conversations db <= seq_conversations (apply_op now o db))%Z.
Proof. destruct o; cbn; lia. Qed.

(** X6.  Conversation ids are never handed out twice: along any history
    of calls, deletions and clearing included, the ids returned by
    [create_conversation] are strictly increasing, and all of them are
    greater than the counter at the start (hence, in a database whose ids
    are within the counter, different from every id present at the
    start). *)
Theorem created_ids_increase (log : list (nat * op)) (db : DB) :
  StronglySorted Z.lt (created_ids log db) /\
  Forall (fun i => (seq_conversations db < i)%Z) (created_ids log db) /\
  (ids_ok db ->
   Forall (fun i => ~ In i (map c_id (conversations db))) (created_ids log db)).
Proof.
  assert (A : forall log db,
             StronglySorted Z.lt (created_ids log db) /\
             Forall (fun i => (seq_conversations db < i)%Z) (created_ids log db)).
  { clear. induction log as [|[now o] log IH]; intros db; cbn [created_ids].
    - split; constructor.
    - destruct (IH (apply_op now o db)) as [S F].
      pose proof (seq_conversations_step now o db) as M.
      assert (F' : Forall (fun i => (seq_conversations db < i)%Z)
                          (created_ids log (apply_op now o db))).
      { eapply Forall_impl; [|exact F]. cbn. intros i Hi. lia. }
      destruct o; try (split; assumption).
      split.
      + constructor; [exact S|]. exact F.
      + constructor; [cbn; lia|exact F']. }
  destruct (A log db) as [S F].
  split; [exact S|]. split; [exact F|].
  intros (_ & B & _).
  rewrite Forall_forall in *. intros i Hi I.
  specialize (F i Hi). apply in_map_iff in I. destruct I as (c & <- & Hc).
  specialize (B c Hc). cbn in B. lia.
Qed.

Lemma created_ids_increase_witness :
  created_ids sample_log empty_db = [1; 2; 3]%Z /\
  Forall (fun i => ~ In i (map c_id (conversations empty_db)))
         (created_ids sample_log empty_db).
Proof.
  split; [reflexivity|].
  apply (proj2 (proj2 (created_ids_increase sample_log empty_db))).
  split; [cbn; lia|]. split; constructor.
Defined.

(** ** The stored counter and the stored messages *)

Lemma has_conversation_In (cid : Z) (db : DB) :
  has_conversation cid db = true <->
  exists c, In c (conversations db) /\ c_id c = cid.
Proof.
  unfold has_conversation. rewrite existsb_exists.
  split; intros (c & H & E); exists c; (split; [exact H|]); now apply Z.eqb_eq.
Qed.

Lemma map_id_touch (now : nat) (cid : Z) (l : list conversation_row) :
  map c_id (map (fun c => if Z.eqb (c_id c) cid then touch now c else c) l)
  = map c_id l.
Proof.
  rewrite map_map. apply map_ext. intros c.
  now destruct (Z.eqb (c_id c) cid).
Qed.

Lemma NoDup_map_filter {A B} (f : A -> B) (g : A -> bool) (l : list A) :
  NoDup (map f l) -> NoDup (map f (filter g l)).
Proof.
  induction l as [|a l IH]; simpl; intros H; [constructor|].
  inversion H as [|? ? Hn Hd]; subst.
  destruct (g a); simpl; [|now apply IH].
  constructor; [|now apply IH].
  intros I. apply Hn. apply in_map_iff in I. destruct I as (b & E & Hb).
  apply filter_In in Hb. apply in_map_iff. exists b. tauto.
Qed.

Lemma has_conversation_add (now : nat) (c cid : Z) (role content : string)
    (model : option string) (db : DB) :
  has_conversation cid (add_message now c role content model db)
  = has_conversation cid db.
Proof.
  unfold has_conversation. rewrite add_message_unfold.
  cbn [update_conversation insert_fts insert_message conversations].
  induction (conversations db) as [|r l IH]; simpl; [reflexivity|].
  rewrite IH. now destruct (Z.eqb (c_id r) c).
Qed.

Lemma messages_of_add (now : nat) (c cid : Z) (role content : string)
    (model : option string) (db : DB) :
  messages_of cid (add_message now c role content model db)
  = messages_of cid db
    ++ (if Z.eqb c cid then [new_message now c role content model db] else []).
Proof.
  unfold messages_of. rewrite add_message_unfold.
  cbn [update_conversation insert_fts insert_message messages].
  rewrite filter_app. cbn [filter m_conversation_id]. reflexivity.
Qed.

Lemma ids_ok_step (now : nat) (o : op) (db : DB) :
  ids_ok db -> ids_ok (apply_op now o db).
Proof.
  intros (P & B & N). destruct o as [title model|c role content model|c|].
  - unfold ids_ok. cbn. split; [lia|]. split.
    + apply Forall_app. split.
      * eapply Forall_impl; [|exact B]. cbn. intros r Hr. lia.
      * repeat constructor; cbn; lia.
    + rewrite map_app. cbn [map c_id].
      apply NoDup_app; [exact N|repeat constructor; intros []|].
      intros i Hi [E|[]]. subst i.
      apply in_map_iff in Hi. destruct Hi as (r & E & Hr).
      rewrite Forall_forall in B. specialize (B r Hr). cbn in B. lia.
  - cbn [apply_op]. rewrite add_message_unfold. unfold ids_ok.
    cbn [update_conversation insert_fts insert_message conversations seq_conversations].
    rewrite map_id_touch. split; [exact P|]. split; [|exact N].
    apply Forall_forall. intros r Hr. apply in_map_iff in Hr.
    destruct Hr as (r0 & <- & Hr0).
    rewrite Forall_forall in B. specialize (B r0 Hr0).
    now destruct (Z.eqb (c_id r0) c).
  - cbn [apply_op]. rewrite delete_conversation_unfold. unfold ids_ok.
    cbn [delete_fts delete_messages delete_conversation_row conversations
         seq_conversations].
    split; [exact P|]. split; [now apply Forall_filter|now apply NoDup_map_filter].
  - unfold ids_ok. cbn. split; [exact P|]. split; constructor.
Qed.

(** The three invariants hold after a call if they held before it and the
    call does not add a message to a missing conversation. *)
Lemma store_ok_step (now : nat) (o : op) (db : DB) :
  store_ok db -> targets_existing o db = true -> store_ok (apply_op now o db).
Proof.
  intros (I & C & O) T.
  split; [now apply ids_ok_step|].
  destruct I as (P & B & N).
  unfold counts_ok, no_orphans in *. rewrite Forall_forall in C, O, B.
  destruct o as [title model|c role content model|c|]; cbn [apply_op targets_existing] in *.
  - split.
    + apply Forall_forall. cbn. intros r Hr. apply in_app_or in Hr.
      destruct Hr as [Hr|[<-|[]]]; [now apply C|]. cbn.
      unfold messages_of. cbn.
      rewrite filter_none; [reflexivity|].
      intros m Hm. specialize (O m Hm). apply has_conversation_In in O.
      destruct O as (r & Hr & E). specialize (B r Hr). cbn in B.
      apply Z.eqb_neq. lia.
    + apply Forall_forall. cbn. intros m Hm. specialize (O m Hm).
      unfold has_conversation in *. cbn. rewrite existsb_app, O. reflexivity.
  - split.
    + apply Forall_forall. intros r Hr. rewrite messages_of_add.
      rewrite add_message_unfold in Hr.
      cbn [update_conversation insert_fts insert_message conversations] in Hr.
      apply in_map_iff in Hr. destruct Hr as (r0 & <- & Hr0).
      specialize (C r0 Hr0). rewrite length_app.
      destruct (Z.eqb_spec (c_id r0) c) as [E|E]; cbn [touch c_id c_message_count].
      * subst c. rewrite Z.eqb_refl. cbn [List.length]. lia.
      * destruct (Z.eqb_spec c (c_id r0)); [congruence|]. cbn [List.length]. lia.
    + apply Forall_forall. intros m Hm. rewrite has_conversation_add.
      rewrite add_message_unfold in Hm.
      cbn [update_conversation insert_fts insert_message messages] in Hm.
      apply in_app_or in Hm. destruct Hm as [Hm|[<-|[]]]; [now apply O|exact T].
  - rewrite delete_conversation_unfold.
    cbn [delete_fts delete_messages delete_conversation_row conversations messages].
    split.
    + apply Forall_forall. intros r Hr. apply filter_In in Hr.
      destruct Hr as [Hr Ne]. apply negb_true_iff, Z.eqb_neq in Ne.
      unfold messages_of.
      cbn [delete_fts delete_messages delete_conversation_row messages].
      rewrite (filter_filter_other m_conversation_id (messages db) Ne).
      now apply C.
    + apply Forall_forall. intros m Hm. apply filter_In in Hm.
      destruct Hm as [Hm Ne]. apply negb_true_iff, Z.eqb_neq in Ne.
      specialize (O m Hm). apply has_conversation_In in O.
      destruct O as (r & Hr & E). apply has_conversation_In. exists r.
      split; [|exact E]. cbn. apply filter_In. split; [exact Hr|].
      apply negb_true_iff, Z.eqb_neq. congruence.
  - split; cbn; apply Forall_forall; intros ? [].
Qed.

Lemma store_ok_empty : store_ok empty_db.
Proof.
  split; [|split]; try (split; [cbn; lia|split]); constructor.
Qed.

Lemma store_ok_replay (log : list (nat * op)) :
  forall db, store_ok db -> adds_to_existing log db = true ->
             store_ok (replay log db).
Proof.
  induction log as [|[now o] log IH]; intros db H A; [exact H|].
  cbn [adds_to_existing replay] in *. apply andb_true_iff in A.
  destruct A as [T A]. apply IH; [now apply store_ok_step|exact A].
Qed.

(** X7.  Along any history of store calls that starts with the empty
    database and never adds a message to a missing conversation, the
    [message_count] that [get_conversation] reports equals the number of
    messages that it returns. *)
Theorem message_count_counts_messages (log : list (nat * op)) (cid : Z)
    (conv : conversation) :
  adds_to_existing log empty_db = true ->
  get_conversation cid (replay log empty_db) = Some conv ->
  c_message_count (info conv) = Z.of_nat (List.length (conv_messages conv)).
Proof.
  intros A G.
  destruct (store_ok_replay log store_ok_empty A) as (_ & C & _).
  unfold get_conversation in G.
  destruct (filter (fun c => Z.eqb (c_id c) cid) (conversations (replay log empty_db)))
    as [|c0 others] eqn:F; [discriminate|].
  injection G as <-. cbn [info conv_messages].
  assert (I : In c0 (filter (fun c => Z.eqb (c_id c) cid)
                            (conversations (replay log empty_db))))
    by (rewrite F; now left).
  apply filter_In in I. destruct I as [I E]. apply Z.eqb_eq in E.
  unfold counts_ok in C. rewrite Forall_forall in C. rewrite (C c0 I), E.
  rewrite length_map.
  now rewrite (Permutation_length (order_by_perm _ _)).
Qed.

Lemma message_count_counts_messages_witness :
  exists conv,
    get_conversation 2 (replay sample_log empty_db) = Some conv /\
    c_message_count (info conv) = Z.of_nat (List.length (conv_messages conv)) /\
    List.length (conv_messages conv) = 2.
Proof.
  assert (G : exists conv, get_conversation 2 (replay sample_log empty_db) = Some conv)
    by (vm_compute; eexists; reflexivity).
  destruct G as [conv G]. exists conv. split; [exact G|]. split.
  - apply (@message_count_counts_messages sample_log 2 conv eq_refl G).
  - vm_compute in G. injection G as <-. reflexivity.
Defined.

(** The hypothesis of X7 matters: a message added before its conversation
    exists is later shown by [get_conversation], and not counted. *)
Example early_message_not_counted :
  let db := replay [(1, Add 1 "user" "early" None); (2, Create "late" None)] empty_db in
  exists conv,
    get_conversation 1 db = Some conv /\
    c_message_count (info conv) = 0%Z /\
    map v_content (conv_messages conv) = ["early"].
Proof. eexists. vm_compute. repeat split. Qed.


(** ** Creating and listing *)

Lemma create_conversation_unfold (now : nat) (title : string)
    (model : option string) (db : DB) :
  create_conversation now title model db
  = (insert_conversation now title model db, (seq_conversations db + 1)%Z).
Proof. reflexivity. Qed.

(** X8.  In a database whose ids are within the counter and whose
    messages all belong to stored conversations, [create_conversation]
    returns an id that was not in use, and [get_conversation] on that id
    then returns the new conversation: the given title and model, both
    stamps at the current time, [message_count] 0 and no messages.  What
    [get_conversation] returns for the other ids is unchanged. *)
Theorem create_conversation_round_trip (now : nat) (title : string)
    (model : option string) (db : DB) :
  ids_ok db -> no_orphans db ->
  let db' := fst (create_conversation now title model db) in
  let id := snd (create_conversation now title model db) in
  id = (seq_conversations db + 1)%Z /\
  get_conversation id db = None /\
  get_conversation id db'
  = Some {| info := {| c_id := id; c_title := title; c_created_at := now;
                       c_updated_at := now; c_model := model;
                       c_message_count := 0 |};
            conv_messages := [] |} /\
  (forall c, c <> id -> get_conversation c db' = get_conversation c db).
Proof.
  intros (P & B & N) O db' id. subst db' id.
  rewrite create_conversation_unfold. cbn [fst snd].
  assert (Fresh : filter (fun c => Z.eqb (c_id c) (seq_conversations db + 1))
                         (conversations db) = []).
  { apply filter_none. intros r Hr. rewrite Forall_forall in B.
    specialize (B r Hr). cbn in B. apply Z.eqb_neq. lia. }
  assert (NoMsg : filter (fun m => Z.eqb (m_conversation_id m) (seq_conversations db + 1))
                         (messages db) = []).
  { apply filter_none. intros m Hm. unfold no_orphans in O.
    rewrite Forall_forall in O, B. specialize (O m Hm).
    apply has_conversation_In in O. destruct O as (r & Hr & E).
    specialize (B r Hr). cbn in B. apply Z.eqb_neq. lia. }
  split; [reflexivity|]. split; [now apply get_conversation_none|]. split.
  - unfold get_conversation. cbn [insert_conversation conversations messages].
    rewrite filter_app, Fresh, NoMsg. cbn [filter app c_id].
    now rewrite Z.eqb_refl.
  - intros c Ne. unfold get_conversation.
    cbn [insert_conversation conversations messages].
    rewrite filter_app. cbn [filter c_id].
    destruct (Z.eqb_spec (seq_conversations db + 1) c); [congruence|].
    now rewrite app_nil_r.
Qed.

Lemma create_conversation_round_trip_witness :
  snd (create_conversation 7 "fourth" None (replay sample_log empty_db)) = 4%Z /\
  get_conversation 4 (fst (create_conversation 7 "fourth" None
                             (replay sample_log empty_db)))
  = Some {| info := {| c_id := 4; c_title := "fourth"; c_created_at := 7;
                       c_updated_at := 7; c_model := None;
                       c_message_count := 0 |};
            conv_messages := [] |}.
Proof.
  destruct (store_ok_replay sample_log store_ok_empty eq_refl) as (I & _ & O).
  destruct (@create_conversation_round_trip 7 "fourth" None
              (replay sample_log empty_db) I O) as (E & _ & G & _).
  split; [exact E|exact G].
Defined.

Lemma sql_limit_head {A} (limit : Z) (x : A) (l : list A) :
  limit <> 0%Z -> exists rest, sql_limit limit (x :: l) = x :: rest.
Proof.
  intros L. unfold sql_limit. destruct (Z.ltb_spec limit 0).
  - now exists l.
  - destruct (Z.to_nat limit) as [|n] eqn:E; [lia|].
    now exists (firstn n l).
Qed.

(** X9.  When [add_message] runs at a time later than the [updated_at] of
    every stored conversation, the conversation it adds to is the first
    that [get_conversations] lists afterwards (for any limit other than
    0), with [updated_at] at that time. *)
Theorem add_message_lists_first (now : nat) (c : Z) (role content : string)
    (model : option string) (db : DB) (limit : Z) :
  has_conversation c db = true ->
  Forall (fun r => c_updated_at r < now) (conversations db) ->
  limit <> 0%Z ->
  exists r rest,
    get_conversations limit (add_message now c role content model db) = r :: rest /\
    c_id r = c /\ c_updated_at r = now.
Proof.
  intros Has Old L. unfold get_conversations.
  set (l' := conversations (add_message now c role content model db)).
  assert (E' : l' = map (fun r => if Z.eqb (c_id r) c then touch now r else r)
                        (conversations db)) by reflexivity.
  pose proof (updated_desc_sorted l') as S.
  pose proof (order_by_perm (fun a b => Nat.ltb (c_updated_at b) (c_updated_at a)) l')
    as Pm.
  apply has_conversation_In in Has. destruct Has as (r0 & Hr0 & E0).
  assert (T : In (touch now r0) l').
  { rewrite E'. apply in_map_iff. exists r0. split; [|exact Hr0].
    now rewrite E0, Z.eqb_refl. }
  destruct (order_by (fun a b => Nat.ltb (c_updated_at b) (c_updated_at a)) l')
    as [|h tl] eqn:Eo.
  { apply Permutation_nil in Pm. now rewrite Pm in T. }
  destruct (sql_limit_head h tl L) as [rest R].
  exists h, rest. split; [exact R|].
  assert (Hh : In h l') by (apply (Permutation_in _ Pm); now left).
  assert (Ge : now <= c_updated_at h).
  { apply (Permutation_in _ (Permutation_sym Pm)) in T.
    destruct T as [Eh|T]; [rewrite Eh; apply Nat.le_refl|].
    inversion S as [|? ? _ F]; subst. rewrite Forall_forall in F.
    specialize (F _ T). cbn [touch c_updated_at] in F. exact F. }
  rewrite E' in Hh. apply in_map_iff in Hh. destruct Hh as (r1 & <- & Hr1).
  rewrite Forall_forall in Old. specialize (Old r1 Hr1).
  destruct (Z.eqb_spec (c_id r1) c) as [E1|E1]; cbn [touch c_id c_updated_at] in *.
  - split; [exact E1|reflexivity].
  - lia.
Qed.

Lemma add_message_lists_first_witness :
  exists r rest,
    get_conversations 50
      (add_message 9 2 "user" "again" None (replay sample_log empty_db))
    = r :: rest /\ c_id r = 2%Z /\ c_updated_at r = 9.
Proof.
  apply (@add_message_lists_first 9 2 "user" "again" None
           (replay sample_log empty_db) 50).
  - reflexivity.
  - vm_compute. repeat constructor.
  - discriminate.
Defined.

End StoreMore.

(* ================================================================== *)
(** * More properties of the router and the orchestrator *)
(* ================================================================== *)

Lemma get_all_models_ok (models : registry) (l : list pyval) :
  get_all_models models = inr l ->
  Forall2 (fun kv d =>
             exists name role use_for,
               py_getitem (snd kv) "name" = inr name /\
               py_getitem (snd kv) "role" = inr role /\
               py_getitem (snd kv) "use_for" = inr use_for /\
               d = PDict [("key", PStr (fst kv)); ("name", name);
                          ("role", role); ("use_for", use_for)])
          models l.
Proof.
  revert l. induction models as [|[key info] rest IH]; intros l; cbn [get_all_models].
  - intros [= <-]. constructor.
  - unfold bind, ret.
    destruct (py_getitem info "name") as [e|name] eqn:N; [discriminate|].
    destruct (py_getitem info "role") as [e|role] eqn:R; [discriminate|].
    destruct (py_getitem info "use_for") as [e|use_for] eqn:U; [discriminate|].
    destruct (get_all_models rest) as [e|others]; [discriminate|].
    intros [= <-]. constructor; [|now apply IH].
    exists name, role, use_for. cbn [fst snd]. auto.
Qed.

(** X10.  [get_all_models] succeeds exactly when every descriptor of the
    registry has the keys [name], [role] and [use_for]; it then returns one
    dict for each registry entry, in registry order, with the entry's key
    and these three values. *)
Theorem get_all_models_lists_registry (models : registry) :
  ((exists l, get_all_models models = inr l) <->
   Forall (fun kv => (exists v, py_getitem (snd kv) "name" = inr v) /\
                     (exists v, py_getitem (snd kv) "role" = inr v) /\
                     (exists v, py_getitem (snd kv) "use_for" = inr v))
          models) /\
  (forall l, get_all_models models = inr l ->
     List.length l = List.length models /\
     map (fun d => py_getitem d "key") l
     = map (fun kv => inr (PStr (fst kv))) models /\
     map (fun d => py_getitem d "name") l
     = map (fun kv => py_getitem (snd kv) "name") models /\
     map (fun d => py_getitem d "role") l
     = map (fun kv => py_getitem (snd kv) "role") models /\
     map (fun d => py_getitem d "use_for") l
     = map (fun kv => py_getitem (snd kv) "use_for") models).
Proof.
  split.
  - split.
    + intros [l H]. apply get_all_models_ok in H.
      induction H as [|kv d models' l' (name & role & use_for & N & R & U & _) _ IH];
        constructor; [|exact IH].
      split; [|split]; eexists; eassumption.
    + induction 1 as [|[key info] rest ((n & N) & (r & R) & (u & U)) _ [l IH]].
      * now exists [].
      * cbn [snd] in *. cbn [get_all_models]. rewrite N, R, U, IH.
        eexists. reflexivity.
  - intros l H. apply get_all_models_ok in H.
    induction H as [|kv d models' l' (name & role & use_for & N & R & U & ->) _
                      (IH1 & IH2 & IH3 & IH4 & IH5)].
    + repeat split.
    + cbn [List.length map]. rewrite IH1, IH2, IH3, IH4, IH5, N, R, U.
      repeat split.
Qed.

(** The registry that [nexus_chat.py] falls back to has no [use_for]: it
    can be selected from, but not listed. *)
Example fallback_registry_not_listed :
  get_all_models sample_registry = inl (KeyError "use_for") /\
  select_model sample_registry "hi" = inr (sample_name, sample_role, QUICK).
Proof. vm_compute. split; reflexivity. Qed.

Lemma get_all_models_lists_registry_witness :
  exists l,
    get_all_models [("default", PDict [("name", PStr "m"); ("role", PStr "r");
                                       ("use_for", PStr "all")]);
                    ("fast", PDict [("name", PStr "n"); ("role", PStr "q");
                                    ("use_for", PStr "chat")])] = inr l /\
    map (fun d => py_getitem d "key") l = [inr (PStr "default"); inr (PStr "fast")].
Proof.
  destruct (get_all_models_lists_registry
              [("default", PDict [("name", PStr "m"); ("role", PStr "r");
                                  ("use_for", PStr "all")]);
               ("fast", PDict [("name", PStr "n"); ("role", PStr "q");
                               ("use_for", PStr "chat")])])
    as (Ok & Shape).
  destruct (proj2 Ok) as [l H].
  - repeat constructor; eexists; reflexivity.
  - exists l. split; [exact H|]. apply (Shape l H).
Defined.

Lemma last_n_suffix {A} (n : nat) (l : list A) :
  firstn (List.length l - n) l ++ last_n n l = l.
Proof. apply firstn_skipn. Qed.

Lemma last_n_length {A} (n : nat) (l : list A) :
  List.length (last_n n l) = Nat.min n (List.length l).
Proof. unfold last_n. rewrite length_skipn. lia. Qed.

Lemma last_n_snoc {A} (n : nat) (l : list A) (x : A) :
  last_n (S n) (l ++ [x]) = last_n n l ++ [x].
Proof.
  unfold last_n. rewrite length_app, skipn_app. cbn [List.length].
  replace (List.length l + 1 - S n) with (List.length l - n) by lia.
  replace (List.length l - n - List.length l) with 0 by lia.
  reflexivity.
Qed.

Lemma joined_text_app (acc : string) (e1 e2 : list event) :
  joined_text acc (e1 ++ e2) = joined_text (joined_text acc e1) e2.
Proof. unfold joined_text, texts_of. now rewrite flat_map_app, fold_left_app. Qed.


Lemma completes_carry_app (e1 e2 : list event) :
  forall acc,
    completes_carry acc (e1 ++ e2) <->
    completes_carry acc e1 /\ completes_carry (joined_text acc e1) e2.
Proof.
  induction e1 as [|e e1 IH]; intros acc; cbn [app completes_carry].
  - cbn. tauto.
  - destruct e; cbn [completes_carry]; rewrite ?IH; cbn; tauto.
Qed.


Lemma completes_carry_split (acc : string) (before after : list event)
    (f : string) (m : pyval) :
  completes_carry acc (before ++ Complete f m :: after) ->
  f = joined_text acc before.
Proof.
  intros H. apply completes_carry_app in H. destruct H as [_ H].
  cbn [completes_carry] in H. tauto.
Qed.


Lemma completes_of_shape (x : event) (body tail : list event) :
  is_complete x = false -> count_errors tail = List.length tail ->
  completes (x :: body ++ tail) = completes body.
Proof.
  intros X T. unfold completes. cbn [flat_map]. rewrite flat_map_app.
  replace (flat_map _ tail) with (@nil string).
  - destruct x; try discriminate; cbn; now rewrite app_nil_r.
  - unfold count_errors in T. induction tail as [|y tail IH]; [reflexivity|].
    cbn [filter List.length flat_map] in *.
    pose proof (filter_length_le is_error tail) as Le.
    destruct y; cbn [is_error List.length] in *; try lia.
    cbn. apply IH. lia.
Qed.


Section CoreMore.
Variable json_loads : string -> decoded.
Variable system_prompt : string.
Variable cfg : Config.

(** The loop: each [Complete] carries the text joined so far, and the
    returned [full_response] is everything joined. *)
Lemma stream_loop_carries (model : pyval) (ls : list string) :
  forall full s,
    let x := stream_loop json_loads model ls full s in
    completes_carry full (events_of x) /\
    (forall full', outcome_of x = inr full' ->
                   full' = joined_text full (events_of x)).
Proof.
  induction ls as [|line ls IH]; intros full s x; subst x.
  - cbn. split; [exact I|]. now intros full' [= <-].
  - rewrite stream_loop_cons.
    destruct (decode_raises json_loads line) as [er|].
    { cbn. split; [exact I|discriminate]. }
    destruct (frame_of json_loads line) as [chunk|]; [|apply IH].
    rewrite on_chunk_spec.
    destruct (chunk_text chunk) as [e|ot].
    { cbn. split; [exact I|discriminate]. }
    cbv zeta.
    set (full' := match ot with Some td => _ | None => full end).
    set (cev := match ot with Some td => _ | None => [] end).
    assert (Cev : completes_carry full cev /\ joined_text full cev = full').
    { subst cev full'. destruct ot as [[t d]|]; cbn; auto. }
    destruct Cev as [C J].
    destruct (chunk_done chunk) as [e|[|]].
    + unfold events_of, outcome_of. cbn [fst snd]. split; [exact C|discriminate].
    + specialize (IH full' (committed_turn full' s)).
      destruct (stream_loop json_loads model ls full' (committed_turn full' s))
        as [[ev2 s2] r].
      unfold events_of, outcome_of in *. cbn [fst snd] in *.
      destruct IH as [I1 I2]. split.
      * apply completes_carry_app. split.
        -- apply completes_carry_app. split; [exact C|]. rewrite J. cbn. auto.
        -- rewrite joined_text_app, J. exact I1.
      * intros f Hf. rewrite (I2 f Hf), !joined_text_app, J. reflexivity.
    + specialize (IH full' s).
      destruct (stream_loop json_loads model ls full' s) as [[ev2 s2] r].
      unfold events_of, outcome_of in *. cbn [fst snd] in *.
      destruct IH as [I1 I2]. split.
      * apply completes_carry_app. split; [exact C|]. rewrite J. exact I1.
      * intros f Hf. rewrite (I2 f Hf), joined_text_app, J. reflexivity.
Qed.

Lemma generate_response_carries (query : string) (stream : bool)
    (resp : response) (s : session) :
  completes_carry EmptyString
    (events_of (generate_response json_loads system_prompt cfg query stream resp s)).
Proof.
  rewrite generate_response_unfold.
  destruct (select_model (models cfg) query) as [e|[[name role] t]]; [exact I|].
  cbv zeta. destruct (temperature cfg) as [temp|]; [|cbn; exact I].
  pose proof (stream_loop_carries name (lines resp) EmptyString
                (sent (request system_prompt name stream temp (started name query s))
                      (started name query s))) as [C _].
  destruct (stream_loop json_loads name (lines resp) EmptyString
              (sent (request system_prompt name stream temp (started name query s))
                    (started name query s))) as [[evs s3] r].
  unfold events_of in *. cbn [fst snd] in *.
  destruct r as [e|full]; [|destruct (failure resp)]; cbn [fst completes_carry].
  - apply completes_carry_app. split; [exact C|]. cbn. exact I.
  - apply completes_carry_app. split; [exact C|]. cbn. exact I.
  - exact C.
Qed.

(** X11.  In every call, each [Complete] event carries exactly the texts
    of the [Content] events emitted before it, joined in order, and the
    selected model name; and the assistant turns that the call appends to
    the in-memory history are the texts of its [Complete] events, after the
    user turn. *)
Theorem complete_carries_fragments (query : string) (stream : bool)
    (resp : response) (s : session) (name role : pyval) (t : TaskType) :
  select_model (models cfg) query = inr (name, role, t) ->
  let x := generate_response json_loads system_prompt cfg query stream resp s in
  (forall before f m after,
     events_of x = before ++ Complete f m :: after ->
     f = joined_text EmptyString before /\ m = name) /\
  conversation_history (self (state_of x))
  = conversation_history (self s)
    ++ Message "user" query :: map (Message "assistant") (completes (events_of x)).
Proof.
  intros Sel x.
  destruct (generate_response_shape json_loads system_prompt cfg query stream resp s Sel)
    as (body & tail & Ev & B & T & _ & _ & _ & _ & H & _).
  fold x in Ev, H.
  pose proof (generate_response_carries query stream resp s) as C. fold x in C.
  split.
  - intros before f m after E. split.
    + rewrite E in C. now apply completes_carry_split in C.
    + subst x. rewrite generate_response_unfold, Sel in E. cbv zeta in E.
      destruct (temperature cfg) as [temp|].
      * pose proof (stream_loop_effects json_loads name (lines resp) EmptyString
                      (sent (request system_prompt name stream temp
                                     (started name query s))
                            (started name query s))) as (_ & _ & _ & _ & _ & F).
        destruct (stream_loop json_loads name (lines resp) EmptyString
                    (sent (request system_prompt name stream temp
                                   (started name query s))
                          (started name query s))) as [[evs s3] r].
        unfold events_of in *. cbn [fst snd] in *.
        assert (In (Complete f m)
                   (ModelSelected name role (task_value t) :: evs
                    ++ match r with
                       | inl e => [Error e name]
                       | inr _ => match failure resp with
                                  | Some msg => [Error (TransportError msg) name]
                                  | None => []
                                  end
                       end)) as Hin.
        { destruct r as [e|full]; [|destruct (failure resp)]; cbn [fst] in E;
            rewrite ?app_nil_r; rewrite E; apply in_or_app; right; now left. }
        destruct Hin as [Hin|Hin]; [discriminate|].
        apply in_app_or in Hin. destruct Hin as [Hin|Hin].
        -- rewrite Forall_forall in F. exact (F _ Hin).
        -- destruct r as [e|full]; [|destruct (failure resp)]; cbn in Hin;
             intuition discriminate.
      * unfold events_of in E. cbn [fst] in E.
        assert (In (Complete f m)
                   [ModelSelected name role (task_value t);
                    Error (KeyError "agents") name]) as Hin
          by (rewrite E; apply in_or_app; right; now left).
        cbn in Hin. intuition discriminate.
  - rewrite H, Ev, completes_of_shape; [reflexivity|reflexivity|].
    destruct T as [->|[e ->]]; reflexivity.
Qed.

(** X12.  Every request that the core sends starts with the system
    message and ends with the user's new message; between them are the
    most recent earlier turns, nine at most, in their order.  So a request
    never has more than eleven messages, whatever the length of the
    history. *)
Theorem request_window (query : string) (stream : bool) (resp : response)
    (s : session) (name role : pyval) (t : TaskType) (temp : pyval) :
  select_model (models cfg) query = inr (name, role, t) ->
  temperature cfg = Some temp ->
  let x := generate_response json_loads system_prompt cfg query stream resp s in
  exists p older recent,
    posted (state_of x) = posted s ++ [p] /\
    p_model p = name /\ p_stream p = stream /\ p_temperature p = temp /\
    conversation_history (self s) = older ++ recent /\
    List.length recent = Nat.min 9 (List.length (conversation_history (self s))) /\
    p_messages p
    = Message "system" system_prompt :: recent ++ [Message "user" query] /\
    List.length (p_messages p) <= 11.
Proof.
  intros Sel Temp x.
  exists (request system_prompt name stream temp (started name query s)),
         (firstn (List.length (conversation_history (self s)) - 9)
                 (conversation_history (self s))),
         (last_n 9 (conversation_history (self s))).
  split; [|split; [|split; [|split; [|split; [|split; [|split]]]]]];
    try reflexivity.
  - apply (generate_response_posts json_loads system_prompt cfg query stream
             resp s Sel Temp).
  - symmetry. apply last_n_suffix.
  - apply last_n_length.
  - cbn [request p_messages started self conversation_history].
    unfold _prepare_messages. cbn [self conversation_history app].
    now rewrite last_n_snoc.
  - cbn [request p_messages started self conversation_history].
    unfold _prepare_messages. cbn [self conversation_history app List.length].
    rewrite last_n_length, length_app. cbn [List.length]. lia.
Qed.

(** X13.  After a call, [get_stats] counts the turns that were in the
    history before, the user turn of the call, and one assistant turn for
    each [Complete] event; it names the model that the call selected.
    [reset_conversation] brings the count back to zero but keeps the
    model. *)
Theorem get_stats_counts_turns (query : string) (stream : bool)
    (resp : response) (s : session) (name role : pyval) (t : TaskType)
    (ms : list pyval) :
  select_model (models cfg) query = inr (name, role, t) ->
  get_all_models (models cfg) = inr ms ->
  let x := generate_response json_loads system_prompt cfg query stream resp s in
  Core.get_stats cfg (self (state_of x))
  = inr {| Core.total_messages :=
             List.length (conversation_history (self s)) + 1
             + count_completes (events_of x);
           Core.stats_current_model := Some name;
           Core.models_config := ms |} /\
  Core.get_stats cfg (reset_conversation (self (state_of x)))
  = inr {| Core.total_messages := 0;
           Core.stats_current_model := Some name;
           Core.models_config := ms |}.
Proof.
  intros Sel All x.
  destruct (generate_response_shape json_loads system_prompt cfg query stream resp s Sel)
    as (body & tail & Ev & B & T & _ & _ & _ & _ & H & M & _).
  fold x in Ev, H, M.
  unfold Core.get_stats, reset_conversation.
  cbn [conversation_history current_model List.length].
  rewrite All, H, M, Ev. cbn [bind ret]. split; [|reflexivity].
  rewrite count_completes_shape;
    [|reflexivity|destruct T as [->|[e ->]]; reflexivity].
  rewrite length_app. cbn [List.length]. rewrite length_map, completes_length.
  replace (List.length (conversation_history (self s)) + S (count_completes body))
    with (List.length (conversation_history (self s)) + 1 + count_completes body)
    by lia.
  reflexivity.
Qed.

(** X14.  The first call after [reset_conversation] sends the system
    message and the new user message, and nothing of what was said before
    the reset. *)
Theorem reset_then_generate (query : string) (stream : bool)
    (resp : response) (s : session) (name role : pyval) (t : TaskType)
    (temp : pyval) :
  select_model (models cfg) query = inr (name, role, t) ->
  temperature cfg = Some temp ->
  let s0 := {| self := reset_conversation (self s); posted := posted s |} in
  posted (state_of (generate_response json_loads system_prompt cfg
                                      query stream resp s0))
  = posted s ++ [{| p_model := name;
                    p_messages := [Message "system" system_prompt;
                                   Message "user" query];
                    p_stream := stream;
                    p_temperature := temp |}].
Proof.
  intros Sel Temp s0.
  rewrite (generate_response_posts json_loads system_prompt cfg query stream
             resp s0 Sel Temp).
  reflexivity.
Qed.

(** X15.  Errors of the configuration.  When the router cannot select a
    model the generator raises at its first step: no event is yielded and
    the session is as before.  With an empty registry the router's
    [StopIteration] leaves the async generator as a [RuntimeError]; with a
    default entry that has no [name] the [KeyError] leaves it as it is.
    When the temperature is missing the call yields the [ModelSelected]
    and one [Error], keeps the user turn in the history, and sends nothing
    to the backend. *)
Theorem generate_response_misconfigured (query : string) (stream : bool)
    (resp : response) (s : session) :
  let x := generate_response json_loads system_prompt cfg query stream resp s in
  (forall e, select_model (models cfg) query = inl e ->
     events_of x = [] /\ state_of x = s /\ exists e', outcome_of x = inl e') /\
  (models cfg = [] ->
   x = ([], s, inl (RuntimeError "async generator raised StopIteration"))) /\
  (forall d, default_model_info (models cfg) = inr (PDict d) ->
             assoc "name" d = None ->
             x = ([], s, inl (KeyError "name"))) /\
  (forall name role t,
     select_model (models cfg) query = inr (name, role, t) ->
     temperature cfg = None ->
     (exists e, events_of x = [ModelSelected name role (task_value t);
                               Error e name]) /\
     conversation_history (self (state_of x))
     = conversation_history (self s) ++ [Message "user" query] /\
     current_model (self (state_of x)) = Some name /\
     posted (state_of x) = posted s /\
     outcome_of x = inr tt).
Proof.
  intros x. subst x. rewrite generate_response_unfold.
  split; [|split; [|split]].
  - intros e ->. repeat split. now eexists.
  - intros E. rewrite select_model_unfold, E. reflexivity.
  - intros d D N. rewrite select_model_unfold, D. cbn [bind py_getitem].
    now rewrite N.
  - intros name role t -> ->. cbv zeta.
    unfold events_of, state_of, outcome_of, started. cbn.
    split; [eexists; reflexivity|]. repeat split.
Qed.
End CoreMore.

Lemma complete_carries_fragments_witness :
  conversation_history
    (self (state_of (sample_generate "hi" hello_stream fresh_session)))
  = [Message "user" "hi"; Message "assistant" "Hello"].
Proof.
  destruct (@complete_carries_fragments Json.json_loads sample_prompt
              sample_config "hi" true hello_stream fresh_session
              sample_name sample_role QUICK sample_select_hi) as [_ H].
  etransitivity; [exact H|]. vm_compute. reflexivity.
Defined.

Lemma get_stats_counts_turns_witness :
  Core.get_stats listed_config
    (self (state_of (generate_response Json.json_loads sample_prompt
                       listed_config "hi" true hello_stream fresh_session)))
  = inr {| Core.total_messages := 2;
           Core.stats_current_model := Some sample_name;
           Core.models_config :=
             [PDict [("key", PStr "default"); ("name", sample_name);
                     ("role", sample_role); ("use_for", PStr "everything")]] |}.
Proof.
  destruct (@get_stats_counts_turns Json.json_loads sample_prompt listed_config
              "hi" true hello_stream fresh_session sample_name sample_role QUICK
              [PDict [("key", PStr "default"); ("name", sample_name);
                      ("role", sample_role); ("use_for", PStr "everything")]])
    as [H _]; [vm_compute; reflexivity|vm_compute; reflexivity|].
  etransitivity; [exact H|]. vm_compute. reflexivity.
Defined.

Lemma request_window_witness :
  exists p,
    posted (state_of (sample_generate "hi" hello_stream fresh_session)) = [p] /\
    p_messages p = [Message "system" sample_prompt; Message "user" "hi"].
Proof.
  destruct (@request_window Json.json_loads sample_prompt sample_config "hi" true
              hello_stream fresh_session sample_name sample_role QUICK
              (PFloat 7 (-1)) sample_select_hi eq_refl)
    as (p & older & recent & P & _ & _ & _ & H & L & M & _).
  exists p. split; [exact P|].
  destruct recent; [exact M|discriminate L].
Defined.

Lemma reset_then_generate_witness :
  posted (state_of (sample_generate "again" hello_stream
                      {| self := reset_conversation
                                   (self (state_of (sample_generate "hi" hello_stream
                                                      fresh_session)));
                         posted := [] |}))
  = [{| p_model := sample_name;
        p_messages := [Message "system" sample_prompt; Message "user" "again"];
        p_stream := true;
        p_temperature := PFloat 7 (-1) |}].
Proof.
  apply (@reset_then_generate Json.json_loads sample_prompt sample_config
           "again" true hello_stream
           {| self := self (state_of (sample_generate "hi" hello_stream fresh_session));
              posted := [] |}
           sample_name sample_role GENERAL (PFloat 7 (-1)));
    vm_compute; reflexivity.
Defined.

Lemma generate_response_misconfigured_witness :
  generate_response Json.json_loads sample_prompt
    {| models := []; base_url := "http://localhost:11434"; temperature := None |}
    "hi" true hello_stream fresh_session
  = ([], fresh_session,
     inl (RuntimeError "async generator raised StopIteration")) /\
  conversation_history
    (self (state_of (generate_response Json.json_loads sample_prompt
                       {| models := sample_registry;
                          base_url := "http://localhost:11434";
                          temperature := None |}
                       "hi" true hello_stream fresh_session)))
  = [Message "user" "hi"].
Proof.
  split.
  - apply (proj1 (proj2 (@generate_response_misconfigured Json.json_loads
                           sample_prompt
                           {| models := []; base_url := "http://localhost:11434";
                              temperature := None |}
                           "hi" true hello_stream fresh_session))).
    reflexivity.
  - destruct (proj2 (proj2 (proj2 (@generate_response_misconfigured
                                     Json.json_loads sample_prompt
                                     {| models := sample_registry;
                                        base_url := "http://localhost:11434";
                                        temperature := None |}
                                     "hi" true hello_stream fresh_session)))
                    sample_name sample_role QUICK)
      as (_ & H & _); [vm_compute; reflexivity|reflexivity|exact H].
Defined.

(* ================================================================== *)
(** * The status check *)
(* ================================================================== *)

Section StatusMore.
Variable py_eq : pyval -> pyval -> bool.
Variable cfg : Config.





End StatusMore.


(* ================================================================== *)
(** * The other routes *)
(* ================================================================== *)

Section RoutesMore.
Import ApiRoutes.
Variable json_loads : string -> decoded.
Variable system_prompt : string.
Variable cfg : Config.

#[warnings="-notation-for-abbreviation"]
Local Notation skipped_text := (skipped_text json_loads).
#[warnings="-notation-for-abbreviation"]
Local Notation well_formed_text := (well_formed_text json_loads).
#[warnings="-notation-for-abbreviation"]
Local Notation websocket_endpoint := (websocket_endpoint json_loads system_prompt cfg).
#[warnings="-notation-for-abbreviation"]
Local Notation on_text := (on_text json_loads system_prompt cfg).
#[warnings="-notation-for-abbreviation"]
Local Notation chat_blocking := (chat_blocking json_loads system_prompt cfg).

Lemma absorb_text (evs : list event) :
  forall a, answer_text (fold_left absorb evs a) = joined_text (answer_text a) evs.
Proof.
  induction evs as [|e evs IH]; intros a; [reflexivity|].
  cbn [fold_left]. rewrite IH. destruct e; reflexivity.
Qed.

Lemma absorb_model (evs : list event) :
  forallb (fun e => negb (is_model_selected e)) evs = true ->
  forall a, answer_model (fold_left absorb evs a) = answer_model a /\
            answer_task_type (fold_left absorb evs a) = answer_task_type a.
Proof.
  induction evs as [|e evs IH]; intros H a; [split; reflexivity|].
  cbn [forallb] in H. apply andb_true_iff in H. destruct H as [He H].
  cbn [fold_left]. destruct (IH H (absorb a e)) as [-> ->].
  destruct e; try discriminate; split; reflexivity.
Qed.

Lemma body_not_selected (body : list event) :
  forallb body_event body = true ->
  forallb (fun e => negb (is_model_selected e)) body = true.
Proof.
  intros H. rewrite forallb_forall in *. intros e I. specialize (H e I).
  destruct e; try discriminate; reflexivity.
Qed.

(** X17.  [POST /chat] without streaming answers with the texts of all
    [Content] events joined in order, and with the model and the task type
    of the [ModelSelected] event.  When the call ends with a [Complete]
    event, the answer is the text of that event (the assistant turn that
    was committed).  The route answers in the same way when the call ended
    with an [Error] event: the text received so far is returned as the
    response.  The store is not written. *)
Theorem chat_blocking_answer (message : string) (resp : response)
    (w : Api.world) (name role : pyval) (t : TaskType) :
  select_model (models cfg) message = inr (name, role, t) ->
  let x := generate_response json_loads system_prompt cfg message true resp
                             (Api.nexus w) in
  chat_blocking message resp w
  = (inr {| answer_text := joined_text EmptyString (events_of x);
            answer_model := Some name;
            answer_task_type := Some (task_value t) |},
     {| Api.nexus := state_of x; Api.chat_manager := Api.chat_manager w |}) /\
  (forall before f m,
     events_of x = before ++ [Complete f m] ->
     joined_text EmptyString (events_of x) = f).
Proof.
  intros Sel x.
  destruct (generate_response_shape json_loads system_prompt cfg message true resp
              (Api.nexus w) Sel)
    as (body & tail & Ev & B & T & _ & _ & _ & O & _).
  pose proof (generate_response_carries json_loads system_prompt cfg message true
                resp (Api.nexus w)) as C.
  fold x in Ev, O, C. split.
  - unfold ApiRoutes.chat_blocking. fold x.
    destruct x as [[evs s'] r]. unfold events_of, state_of, outcome_of in *.
    cbn [fst snd] in *. subst r.
    assert (M : answer_model (drain evs) = Some name /\
                answer_task_type (drain evs) = Some (task_value t)).
    { unfold drain. rewrite Ev. cbn [fold_left absorb].
      apply absorb_model. rewrite forallb_app, (body_not_selected _ B).
      destruct T as [->|[e ->]]; reflexivity. }
    destruct M as [M1 M2].
    pose proof (absorb_text evs
                  {| answer_text := EmptyString; answer_model := None;
                     answer_task_type := None |}) as Tx.
    fold (drain evs) in Tx. cbn [answer_text] in Tx.
    destruct (drain evs) as [tx md tk]. cbn [answer_text answer_model
                                             answer_task_type] in *.
    subst tx md tk. reflexivity.
  - intros before f m E. rewrite E in C |- *.
    apply completes_carry_split in C. rewrite joined_text_app. now subst f.
Qed.

Lemma on_text_skipped (data : string) (resp : response) (s : session) :
  skipped_text data = true -> on_text data resp s = ([], s, None).
Proof.
  unfold skipped_text, ApiRoutes.on_text.
  destruct (json_loads data) as [[| | | | | |d]| |er]; try discriminate.
  cbn [py_get ret]. intros H. apply negb_true_iff in H. now rewrite H.
Qed.

Lemma on_text_well_formed (data : string) (resp : response) (s : session) :
  (forall q, exists sel, select_model (models cfg) q = inr sel) ->
  well_formed_text data = true ->
  exists evs s', on_text data resp s = (evs, s', None).
Proof.
  intros Sel. unfold well_formed_text, ApiRoutes.on_text.
  destruct (json_loads data) as [[| | | | | |d]| |er]; try discriminate.
  cbn [py_get ret].
  destruct (assoc "message" d) as [v|]; [|intros _; now exists [], s].
  intros W. destruct (truthy v) eqn:Tv; [|now exists [], s].
  destruct v as [|b|n|m e|q|l|l]; try discriminate W.
  destruct (Sel q) as [[[name role] t] Sq].
  destruct (generate_response_shape json_loads system_prompt cfg q true resp s Sq)
    as (_ & _ & _ & _ & _ & _ & _ & _ & O & _).
  destruct (generate_response json_loads system_prompt cfg q true resp s)
    as [[evs s'] r].
  unfold outcome_of in O. cbn [snd] in O. subst r. now exists evs, s'.
Qed.

Lemma websocket_endpoint_app (before rest : list (string * response)) :
  forall s,
    end_of (websocket_endpoint before s) = ClientDisconnected ->
    websocket_endpoint (before ++ rest) s
    = (sent_of (websocket_endpoint before s)
         ++ sent_of (websocket_endpoint rest (session_of (websocket_endpoint before s))),
       session_of (websocket_endpoint rest (session_of (websocket_endpoint before s))),
       end_of (websocket_endpoint rest (session_of (websocket_endpoint before s)))).
Proof.
  induction before as [|[data resp] before IH]; intros s.
  - intros _. cbn [app ApiRoutes.websocket_endpoint].
    unfold sent_of, session_of, end_of. cbn [fst snd app].
    now destruct (websocket_endpoint rest s) as [[evs s'] fin].
  - cbn [app ApiRoutes.websocket_endpoint].
    destruct (on_text data resp s) as [[evs s'] [e|]].
    + unfold end_of. cbn [snd]. discriminate.
    + specialize (IH s').
      destruct (websocket_endpoint before s') as [[evs1 s1] fin1].
      unfold sent_of, session_of, end_of in *. cbn [fst snd] in *.
      intros F. rewrite (IH F).
      destruct (websocket_endpoint rest s1) as [[evs2 s2] fin2]. cbn [fst snd].
      now rewrite app_assoc.
Qed.

Lemma websocket_endpoint_open (incoming : list (string * response)) :
  (forall q, exists sel, select_model (models cfg) q = inr sel) ->
  forallb (fun x => well_formed_text (fst x)) incoming = true ->
  forall s, end_of (websocket_endpoint incoming s) = ClientDisconnected.
Proof.
  intros Sel. induction incoming as [|[data resp] rest IH]; intros W s;
    [reflexivity|].
  cbn [forallb fst] in W. apply andb_true_iff in W. destruct W as [Wd W].
  cbn [ApiRoutes.websocket_endpoint].
  destruct (on_text_well_formed data resp s Sel Wd) as (evs & s' & ->).
  specialize (IH W s').
  destruct (websocket_endpoint rest s') as [[evs1 s1] fin1].
  exact IH.
Qed.

(** X18.  The socket loop.  Texts whose [message] is missing or falsy are
    passed over: removing them from what the client sends changes nothing.
    With a registry from which a model can be selected, texts that decode
    to a dict with a string [message] never close the socket, whatever the
    backend does (an [Error] event is sent like any other and the loop
    goes on).  A text that is not JSON closes the socket, and nothing that
    the client sends after it is processed. *)
Theorem websocket_endpoint_closing (incoming : list (string * response))
    (s : session) :
  websocket_endpoint incoming s
  = websocket_endpoint (filter (fun x => negb (skipped_text (fst x))) incoming) s /\
  ((forall q, exists sel, select_model (models cfg) q = inr sel) ->
   forallb (fun x => well_formed_text (fst x)) incoming = true ->
   end_of (websocket_endpoint incoming s) = ClientDisconnected /\
   forall data resp rest,
     json_loads data = JSONDecodeError ->
     websocket_endpoint (incoming ++ (data, resp) :: rest) s
     = (sent_of (websocket_endpoint incoming s),
        session_of (websocket_endpoint incoming s),
        SocketClosed BadJson)).
Proof.
  split.
  - revert s. induction incoming as [|[data resp] rest IH]; intros s; [reflexivity|].
    cbn [filter fst]. destruct (skipped_text data) eqn:K; cbn [negb].
    + cbn [ApiRoutes.websocket_endpoint]. rewrite (on_text_skipped data resp s K).
      rewrite <- IH. now destruct (websocket_endpoint rest s) as [[evs s'] fin].
    + cbn [ApiRoutes.websocket_endpoint].
      destruct (on_text data resp s) as [[evs s'] [e|]]; [reflexivity|].
      now rewrite IH.
  - intros Sel W.
    pose proof (websocket_endpoint_open incoming Sel W s) as Open.
    split; [exact Open|]. intros data resp rest J.
    rewrite (websocket_endpoint_app incoming ((data, resp) :: rest) s Open).
    cbn [ApiRoutes.websocket_endpoint]. unfold ApiRoutes.on_text. rewrite J.
    unfold sent_of, session_of, end_of. cbn [fst snd]. now rewrite app_nil_r.
Qed.
End RoutesMore.

Lemma sample_select_total :
  forall q, exists sel, select_model (models sample_config) q = inr sel.
Proof. intros q. eexists. rewrite select_model_unfold. reflexivity. Qed.

Lemma chat_blocking_answer_witness :
  fst (ApiRoutes.chat_blocking Json.json_loads sample_prompt sample_config
         "hi" hello_stream fresh_world)
  = inr {| ApiRoutes.answer_text := "Hello";
           ApiRoutes.answer_model := Some sample_name;
           ApiRoutes.answer_task_type := Some "quick" |}.
Proof.
  destruct (@chat_blocking_answer Json.json_loads sample_prompt sample_config
              "hi" hello_stream fresh_world sample_name sample_role QUICK
              sample_select_hi) as [H _].
  etransitivity; [apply f_equal; exact H|]. vm_compute. reflexivity.
Defined.

Lemma websocket_endpoint_closing_witness :
  ApiRoutes.websocket_endpoint Json.json_loads sample_prompt sample_config
    ([(Json.member "message" (Json.quoted "hi"), timed_out_stream)]
     ++ ("{not json", hello_stream)
     :: [(Json.member "message" (Json.quoted "hi"), hello_stream)])
    fresh_session
  = (sent_of (ApiRoutes.websocket_endpoint Json.json_loads sample_prompt
                sample_config
                [(Json.member "message" (Json.quoted "hi"), timed_out_stream)]
                fresh_session),
     session_of (ApiRoutes.websocket_endpoint Json.json_loads sample_prompt
                   sample_config
                   [(Json.member "message" (Json.quoted "hi"), timed_out_stream)]
                   fresh_session),
     ApiRoutes.SocketClosed ApiRoutes.BadJson).
Proof.
  destruct (@websocket_endpoint_closing Json.json_loads sample_prompt
              sample_config
              [(Json.member "message" (Json.quoted "hi"), timed_out_stream)]
              fresh_session) as [_ H].
  destruct H as [_ Cut];
    [exact sample_select_total|vm_compute; reflexivity|].
  apply Cut. vm_compute. reflexivity.
Defined.

(** The run behind that witness: the failed call is reported and the loop
    goes on to the text that closes the socket. *)
Example socket_run :
  ApiRoutes.websocket_endpoint Json.json_loads sample_prompt sample_config
    [(Json.member "note" (Json.quoted "x"), hello_stream);
     (Json.member "message" (Json.quoted "hi"), timed_out_stream);
     ("{not json", hello_stream);
     (Json.member "message" (Json.quoted "hi"), hello_stream)]
    fresh_session
  = ([ModelSelected sample_name sample_role "quick";
      Content "Hel" (PBool false);
      Error (TransportError "timed out") sample_name],
     {| self := {| conversation_history := [Message "user" "hi"];
                   current_model := Some sample_name |};
        posted := [{| p_model := sample_name;
                      p_messages := [Message "system" sample_prompt;
                                     Message "user" "hi"];
                      p_stream := true;
                      p_temperature := PFloat 7 (-1) |}] |},
     ApiRoutes.SocketClosed ApiRoutes.BadJson).
Proof. vm_compute. reflexivity. Qed.

(* ================================================================== *)
(** * The command-line chatbot and the core *)
(* ================================================================== *)

Section CliMore.
Variable json_loads : string -> decoded.
(** The two programs have their own system prompts. *)
Variable core_prompt : string.
Variable cli_prompt : string.
Variable cfg : Config.

#[warnings="-notation-for-abbreviation"]
Local Notation frame_of := (frame_of json_loads).
#[warnings="-notation-for-abbreviation"]
Local Notation done_line := (done_line json_loads).
#[warnings="-notation-for-abbreviation"]
Local Notation faulty_line := (faulty_line json_loads).
#[warnings="-notation-for-abbreviation"]
Local Notation line_content := (line_content json_loads).
#[warnings="-notation-for-abbreviation"]
Local Notation accumulate := (accumulate json_loads).
#[warnings="-notation-for-abbreviation"]
Local Notation no_done := (no_done json_loads).
#[warnings="-notation-for-abbreviation"]
Local Notation no_faulty := (no_faulty json_loads).

Lemma cli_on_chunk_spec (chunk : pyval) (full : string) (out : list Cli.output)
    (ot : option (string * pyval)) :
  chunk_text chunk = inr ot ->
  Cli.on_chunk chunk full out
  = (out ++ match ot with
            | Some td => [Cli.PrintText (PStr (fst td))]
            | None => []
            end,
     inr match ot with
         | Some td => (full ++ fst td)%string
         | None => full
         end).
Proof.
  unfold chunk_text, Cli.on_chunk, bind, ret, raise.
  destruct (py_contains "message" chunk) as [e|[|]]; [discriminate| |].
  - destruct (py_getitem chunk "message") as [e|msg]; [discriminate|].
    destruct (py_get msg "content" (PStr EmptyString)) as [e|content];
      [discriminate|].
    destruct (truthy content).
    + destruct content; try discriminate.
      destruct (py_get chunk "done" (PBool false)); [discriminate|].
      now intros [= <-].
    + intros [= <-]. now rewrite app_nil_r.
  - intros [= <-]. now rewrite app_nil_r.
Qed.

Lemma cli_stream_loop_clean (ls : list string) :
  no_faulty ls = true ->
  forall full out,
    Cli.stream_loop json_loads ls full out
    = (out ++ map (fun td => Cli.PrintText (PStr (fst td)))
                  (flat_map line_content ls),
       inr (accumulate full ls)).
Proof.
  unfold no_faulty, accumulate.
  induction ls as [|line ls IH]; intros Nf full out.
  - cbn. now rewrite app_nil_r.
  - cbn [forallb] in Nf. apply andb_true_iff in Nf. destruct Nf as [Nl Nf].
    apply negb_true_iff in Nl. unfold faulty_line, decode_raises, frame_of in Nl.
    cbn [Cli.stream_loop flat_map]. unfold line_content at 1 3, frame_of.
    destruct (blank line); [cbn [app]; now apply IH|].
    destruct (json_loads line) as [chunk| |er];
      [|cbn [app]; now apply IH|discriminate].
    destruct (chunk_text chunk) as [e|ot] eqn:Ct; [discriminate|].
    rewrite (cli_on_chunk_spec chunk full out Ct), (IH Nf).
    destruct ot as [td|]; cbn [app map fold_left fst].
    + now rewrite <- app_assoc.
    + now rewrite app_nil_r.
Qed.

(** X19.  The command-line chatbot and the core on the same stream, from
    the same history.  Each sends its own system message, followed by the
    same turns: the last ten of the history with the new user message.  On
    a stream that closes normally the chatbot always stores an assistant turn with the
    joined text; the core stores the same turn when the last frame is the
    terminal one, and stores no assistant turn when the stream has no
    terminal frame.  When the stream breaks, the chatbot keeps the user
    turn, stores no assistant turn and prints the error last. *)
Theorem cli_history_vs_core (q : string) (resp : response) (bot : Cli.chatbot)
    (s : session) (name role : pyval) (t : TaskType) (temp : pyval) :
  Cli.history bot = conversation_history (self s) ->
  select_model (models cfg) q = inr (name, role, t) ->
  temperature cfg = Some temp ->
  no_faulty (lines resp) = true ->
  let bot' := Cli.chat json_loads cli_prompt q (Cli.Opened resp) bot in
  let x := generate_response json_loads core_prompt cfg q true resp s in
  (exists p c turns,
     posted (state_of x) = posted s ++ [p] /\
     Cli.requests bot' = Cli.requests bot ++ [c] /\
     turns = last_n 10 (Cli.history bot ++ [Message "user" q]) /\
     p_messages p = Message "system" core_prompt :: turns /\
     Cli.c_messages c = Message "system" cli_prompt :: turns) /\
  (failure resp = None ->
   Cli.history bot'
   = Cli.history bot ++ [Message "user" q;
                         Message "assistant" (accumulate EmptyString (lines resp))]) /\
  (forall pre d,
     failure resp = None -> lines resp = pre ++ [d] ->
     no_done pre = true -> done_line d = true ->
     conversation_history (self (state_of x)) = Cli.history bot') /\
  (failure resp = None -> no_done (lines resp) = true ->
   conversation_history (self (state_of x))
   = Cli.history bot ++ [Message "user" q]) /\
  (forall msg,
     failure resp = Some msg ->
     Cli.history bot' = Cli.history bot ++ [Message "user" q] /\
     exists out, Cli.printed bot' = out ++ [Cli.PrintError (TransportError msg)]).
Proof.
  intros Hist Sel Temp Nf bot' x.
  assert (B : bot' = Cli.chat json_loads cli_prompt q (Cli.Opened resp) bot)
    by reflexivity.
  unfold Cli.chat in B. rewrite (cli_stream_loop_clean _ Nf) in B.
  cbv beta iota zeta in B.
  split; [|split; [|split; [|split]]].
  - exists (request core_prompt name true temp (started name q s)).
    eexists. eexists. split; [|split; [|split; [reflexivity|split]]].
    + apply (generate_response_posts json_loads core_prompt cfg q true resp s
               Sel Temp).
    + rewrite B. destruct (failure resp); reflexivity.
    + cbn. unfold _prepare_messages. cbn. now rewrite Hist.
    + reflexivity.
  - intros F. rewrite B, F. cbn [Cli.history]. now rewrite <- app_assoc.
  - intros pre d F L Nd D. rewrite B, F. cbn [Cli.history].
    subst x. rewrite L in Nf.
    rewrite (@generate_response_complete json_loads core_prompt cfg q true resp s
               name role t temp pre d Sel Temp L F Nd Nf D).
    unfold state_of. cbn. now rewrite Hist.
  - intros F Nd.
    destruct (generate_response_shape json_loads core_prompt cfg q true resp s Sel)
      as (body & tail & _ & _ & _ & _ & _ & C & _ & H & _).
    fold x in H. rewrite H, (C Nd), Hist. reflexivity.
  - intros msg F. rewrite B, F. cbn [Cli.history Cli.printed].
    split; [reflexivity|]. eexists. reflexivity.
Qed.
End CliMore.

Lemma cli_history_vs_core_witness :
  Cli.history
    (Cli.chat Json.json_loads "You are NEXUS, on the command line." "hi"
       (Cli.Opened partial_stream)
       {| Cli.history := []; Cli.model := sample_name; Cli.printed := [];
          Cli.requests := [] |})
  = [Message "user" "hi"; Message "assistant" "Hel"] /\
  conversation_history
    (self (state_of (sample_generate "hi" partial_stream fresh_session)))
  = [Message "user" "hi"].
Proof.
  destruct (@cli_history_vs_core Json.json_loads sample_prompt
              "You are NEXUS, on the command line." sample_config
              "hi" partial_stream
              {| Cli.history := []; Cli.model := sample_name; Cli.printed := [];
                 Cli.requests := [] |}
              fresh_session sample_name sample_role QUICK (PFloat 7 (-1)))
    as (_ & Closed & _ & Core & _);
    [reflexivity|exact sample_select_hi|reflexivity|vm_compute; reflexivity|].
  split.
  - etransitivity; [apply Closed; reflexivity|]. vm_compute. reflexivity.
  - apply Core; vm_compute; reflexivity.
Defined.

(* ================================================================== *)
(** * The model menu of the command-line chatbot *)
(* ================================================================== *)

Section MenuMore.
Variable py_eq : pyval -> pyval -> bool.
Variable title : string -> string.
Variable strip : string -> string.
Variable py_int : string -> option Z.

#[warnings="-notation-for-abbreviation"]
Local Notation role_of := (Cli.role_of py_eq title).
#[warnings="-notation-for-abbreviation"]
Local Notation list_options := (Cli.list_options py_eq title).
#[warnings="-notation-for-abbreviation"]
Local Notation ask := (Cli.ask strip py_int).
#[warnings="-notation-for-abbreviation"]
Local Notation cli_select_model := (Cli.select_model py_eq title strip py_int).

Lemma list_options_collects (models : registry) (available_models : list pyval) :
  forall i model_options out out' r,
    list_options i available_models models model_options out = (out', inr r) ->
    r = model_options ++ available_models.
Proof.
  induction available_models as [|m rest IH]; intros i model_options out out' r;
    cbn [Cli.list_options].
  - intros [= _ <-]. now rewrite app_nil_r.
  - destruct (role_of m models) as [e|role]; [discriminate|].
    intros H. apply IH in H. now rewrite <- app_assoc in H.
Qed.

Lemma ask_selects_option (model_options : list pyval) (keys : list Cli.keyboard) :
  forall out out' m,
    ask keys model_options out = (out', Cli.Selected m) -> In m model_options.
Proof.
  induction keys as [|k keys IH]; intros out out' m; cbn [Cli.ask];
    [discriminate|].
  destruct k as [line|]; [|discriminate].
  destruct (py_int (strip line)) as [n|]; [|discriminate].
  destruct (Z.leb_spec 0 (n - 1)) as [L|L]; cbn [andb]; [|apply IH].
  destruct (Z.ltb_spec (n - 1) (Z.of_nat (List.length model_options))) as [U|U];
    [|apply IH].
  intros [= _ <-]. apply nth_In. lia.
Qed.

(** X20.  The model menu of the command-line chatbot never selects a
    model that the backend does not list: a selected model is the
    configured default name, equal to a listed one, or it is one of the
    listed models.  With the default listed, or with exactly one model
    listed, the choice is made without reading the keyboard; with no
    model listed, nothing is ever selected. *)
Theorem select_model_picks_available (models : registry)
    (available_models : list pyval) (keys : list Cli.keyboard) :
  (forall out m,
     cli_select_model models available_models keys = (out, Cli.Selected m) ->
     (Cli.default_name models = inr m /\ out = [] /\
      exists a, In a available_models /\ py_eq m a = true) \/
     In m available_models) /\
  (forall default_model,
     Cli.default_name models = inr default_model ->
     existsb (py_eq default_model) available_models = true ->
     cli_select_model models available_models keys
     = ([], Cli.Selected default_model)) /\
  (forall only keys',
     available_models = [only] ->
     cli_select_model models available_models keys'
     = cli_select_model models available_models keys) /\
  (available_models = [] ->
   forall out m,
     cli_select_model models available_models keys <> (out, Cli.Selected m)).
Proof.
  assert (Sel : forall out m,
            cli_select_model models available_models keys = (out, Cli.Selected m) ->
            (Cli.default_name models = inr m /\ out = [] /\
             exists a, In a available_models /\ py_eq m a = true) \/
            In m available_models).
  { intros out m. unfold Cli.select_model.
    destruct (Cli.default_name models) as [e|default_model]; [discriminate|].
    destruct (existsb (py_eq default_model) available_models) eqn:D.
    { intros [= <- <-]. left. split; [reflexivity|]. split; [reflexivity|].
      apply existsb_exists in D. exact D. }
    destruct (list_options 1 available_models models [] [Cli.PrintMenuHeader])
      as [out1 [e|model_options]] eqn:L; [discriminate|].
    apply list_options_collects in L. cbn [app] in L. subst model_options.
    right. destruct available_models as [|a [|b rest]].
    - now apply ask_selects_option in H.
    - injection H as _ <-. now left.
    - now apply ask_selects_option in H. }
  split; [exact Sel|]. split; [|split].
  - intros default_model D E. unfold Cli.select_model. now rewrite D, E.
  - intros only keys' ->. unfold Cli.select_model.
    destruct (Cli.default_name models) as [e|default_model]; [reflexivity|].
    destruct (existsb (py_eq default_model) [only]); [reflexivity|].
    destruct (list_options 1 [only] models [] [Cli.PrintMenuHeader])
      as [out1 [e|model_options]] eqn:L; [reflexivity|].
    apply list_options_collects in L. cbn [app] in L. now subst model_options.
  - intros E out m H. destruct (Sel out m H) as [(_ & _ & a & I & _)|I];
      rewrite E in I; destruct I.
Qed.
End MenuMore.

Lemma select_model_picks_available_witness :
  Cli.select_model (fun a b => match a, b with
                               | PStr x, PStr y => String.eqb x y
                               | _, _ => false
                               end)
    (fun key => key) (fun line => line)
    (fun line => if String.eqb line "2" then Some 2%Z else None)
    sample_registry [sample_name; PStr "llama3.1:8b"] []
  = ([], Cli.Selected sample_name).
Proof.
  apply (proj1 (proj2 (@select_model_picks_available
                         (fun a b => match a, b with
                                     | PStr x, PStr y => String.eqb x y
                                     | _, _ => false
                                     end)
                         (fun key => key) (fun line => line)
                         (fun line => if String.eqb line "2" then Some 2%Z else None)
                         sample_registry [sample_name; PStr "llama3.1:8b"] [])));
    vm_compute; reflexivity.
Defined.

(** A menu that is read: the default is not listed, the first answer is
    out of range, the second selects. *)
Example menu_run :
  Cli.select_model (fun a b => match a, b with
                               | PStr x, PStr y => String.eqb x y
                               | _, _ => false
                               end)
    (fun key => key) (fun line => line)
    (fun line => if String.eqb line "2" then Some 2%Z
                 else if String.eqb line "7" then Some 7%Z else None)
    sample_registry [PStr "gemma:7b"; PStr "llama3.1:8b"]
    [Cli.Typed "7"; Cli.Typed "2"]
  = ([Cli.PrintMenuHeader;
      Cli.PrintOption 1 (PStr "gemma:7b") (PStr "AI Model");
      Cli.PrintOption 2 (PStr "llama3.1:8b") (PStr "AI Model");
      Cli.PrintPrompt; Cli.PrintInvalid; Cli.PrintPrompt],
     Cli.Selected (PStr "llama3.1:8b")).
Proof. vm_compute. reflexivity. Qed.

(* ================================================================== *)
(** * Uploaded files *)
(* ================================================================== *)

Section FilesMore.
Import Files.
Variable lib_error : Type.
Variable suffix_lower : string -> string.
Variable decode_utf8 : bytes -> option text.
Variable decode_cp1252 : bytes -> option text.
Variable unicode_decode_error : bytes -> lib_error.
Variable pdf_pages : bytes -> lib_error + list text.
Variable docx_paragraphs : bytes -> lib_error + list text.
Variable blank_text : text -> bool.
Variable image_open : bytes -> lib_error + (nat * nat * string).

#[warnings="-notation-for-abbreviation"]
Local Notation _process_text :=
  (_process_text decode_utf8 decode_cp1252 unicode_decode_error).
#[warnings="-notation-for-abbreviation"]
Local Notation _process_pdf := (@_process_pdf lib_error pdf_pages).
#[warnings="-notation-for-abbreviation"]
Local Notation _process_docx := (@_process_docx lib_error docx_paragraphs blank_text).
#[warnings="-notation-for-abbreviation"]
Local Notation _process_image := (@_process_image lib_error image_open).
#[warnings="-notation-for-abbreviation"]
Local Notation dispatch :=
  (dispatch suffix_lower decode_utf8 decode_cp1252 unicode_decode_error
            pdf_pages docx_paragraphs blank_text image_open).
#[warnings="-notation-for-abbreviation"]
Local Notation process_file :=
  (process_file suffix_lower decode_utf8 decode_cp1252 unicode_decode_error
                pdf_pages docx_paragraphs blank_text image_open).
#[warnings="-notation-for-abbreviation"]
Local Notation is_supported := (is_supported suffix_lower).
#[warnings="-notation-for-abbreviation"]
Local Notation upload_file :=
  (upload_file suffix_lower decode_utf8 decode_cp1252 unicode_decode_error
               pdf_pages docx_paragraphs blank_text image_open).

Lemma process_text_total (filename : string) (content : bytes) :
  _process_text filename content
  = inr (let t := match decode_utf8 content with
                  | Some u => u
                  | None => map Byte.to_N content
                  end in
         TextInfo filename t (List.length content) (preview_of t)).
Proof.
  unfold Files._process_text. now destruct (decode_utf8 content).
Qed.

(** X21.  A file with a text suffix is always accepted: [process_file]
    returns a text result whose size is the number of bytes.  The text is
    the UTF-8 decoding when the bytes are valid UTF-8; otherwise it is the
    latin-1 decoding, which has one character for each byte.  The cp1252
    decoding and the final [raise] are never reached. *)
Theorem process_text_never_fails (filename : string) (content : bytes) :
  exists t,
    _process_text filename content
    = inr (TextInfo filename t (List.length content) (preview_of t)) /\
    (forall u, decode_utf8 content = Some u -> t = u) /\
    (decode_utf8 content = None ->
     t = map Byte.to_N content /\ List.length t = List.length content) /\
    (mem (suffix_lower filename) SUPPORTED_TEXT = true ->
     process_file filename content
     = Success lib_error (TextInfo filename t (List.length content) (preview_of t))).
Proof.
  exists (match decode_utf8 content with
          | Some u => u
          | None => map Byte.to_N content
          end).
  split; [apply process_text_total|]. split; [|split].
  - now intros u ->.
  - intros ->. split; [reflexivity|apply length_map].
  - intros M. unfold Files.process_file, Files.dispatch.
    rewrite M, process_text_total. reflexivity.
Qed.

Lemma preview_of_facts (c : text) :
  List.length (preview_of c) <= 503 /\
  (List.length c <= 500 -> preview_of c = c) /\
  (500 < List.length c ->
   preview_of c = firstn 500 c ++ dots /\ List.length (preview_of c) = 503).
Proof.
  unfold preview_of.
  destruct (Nat.ltb_spec 500 (List.length c)) as [L|L].
  - rewrite length_app, length_firstn. cbn [dots List.length].
    split; [lia|]. split; [lia|]. intros _. split; [reflexivity|lia].
  - rewrite app_nil_r, firstn_all2 by lia. split; [lia|]. split; [reflexivity|lia].
Qed.

Lemma dispatch_success (filename : string) (content : bytes) (info : file_info) :
  dispatch filename content = inr (Success lib_error info) ->
  size_of info = List.length content /\
  forall c p, content_of info = Some (c, p) -> p = preview_of c.
Proof.
  unfold Files.dispatch.
  destruct (mem (suffix_lower filename) SUPPORTED_TEXT).
  { rewrite process_text_total. intros [= <-]. split; [reflexivity|].
    now intros c p [= <- <-]. }
  destruct (suffix_lower filename =? ".pdf")%string.
  { unfold Files._process_pdf. destruct (pdf_pages content) as [e|parts];
      [discriminate|].
    intros [= <-]. split; [reflexivity|]. now intros c p [= <- <-]. }
  destruct (suffix_lower filename =? ".docx")%string.
  { unfold Files._process_docx. destruct (docx_paragraphs content) as [e|parts];
      [discriminate|].
    intros [= <-]. split; [reflexivity|]. now intros c p [= <- <-]. }
  destruct (mem (suffix_lower filename) SUPPORTED_IMAGES); [|discriminate].
  unfold Files._process_image.
  destruct (image_open content) as [e|[[w h] f]]; [discriminate|].
  intros [= <-]. split; [reflexivity|]. discriminate.
Qed.

(** X22.  Whenever [process_file] succeeds, the size it reports is the
    number of bytes uploaded; and for a text, PDF or DOCX file the preview
    is the extracted text itself when that has at most 500 characters,
    and otherwise its first 500 characters followed by three dots, so a
    preview never has more than 503 characters. *)
Theorem process_file_preview (filename : string) (content : bytes)
    (info : file_info) :
  process_file filename content = Success lib_error info ->
  size_of info = List.length content /\
  forall c p,
    content_of info = Some (c, p) ->
    List.length p <= 503 /\
    (List.length c <= 500 -> p = c) /\
    (500 < List.length c -> p = firstn 500 c ++ dots /\ List.length p = 503).
Proof.
  unfold Files.process_file.
  destruct (dispatch filename content) as [e|r] eqn:D; [discriminate|].
  intros ->. destruct (dispatch_success _ _ D) as [S P].
  split; [exact S|]. intros c p C. rewrite (P c p C). apply preview_of_facts.
Qed.

Lemma mem_app (suffix : string) (a b : list string) :
  mem suffix (a ++ b) = mem suffix a || mem suffix b.
Proof. unfold mem. apply existsb_app. Qed.

Lemma is_supported_unfold (filename : string) :
  is_supported filename
  = mem (suffix_lower filename) SUPPORTED_TEXT
    || ((suffix_lower filename =? ".pdf")%string
        || (suffix_lower filename =? ".docx")%string)
    || mem (suffix_lower filename) SUPPORTED_IMAGES.
Proof.
  unfold Files.is_supported. rewrite !mem_app.
  unfold mem at 2. cbn [SUPPORTED_DOCS existsb].
  rewrite orb_false_r. now rewrite orb_assoc.
Qed.

(** X23.  [is_supported] and [process_file] agree on what is supported:
    [process_file] answers "unsupported file type" exactly for the names
    that [is_supported] refuses.  So the upload route, which asks
    [is_supported] first, rejects exactly those names and never passes on
    an "unsupported file type" answer of [process_file]. *)
Theorem upload_agrees_with_process_file (filename : string) (content : bytes) :
  (is_supported filename = false <->
   process_file filename content = Unsupported lib_error (suffix_lower filename)) /\
  (forall suffix,
     process_file filename content = Unsupported lib_error suffix ->
     suffix = suffix_lower filename) /\
  (upload_file filename content = Rejected lib_error <->
   is_supported filename = false) /\
  (forall suffix,
     upload_file filename content <> Processed (Unsupported lib_error suffix)).
Proof.
  assert (U : forall suffix,
             process_file filename content = Unsupported lib_error suffix ->
             is_supported filename = false /\ suffix = suffix_lower filename).
  { intros suffix. rewrite is_supported_unfold.
    unfold Files.process_file, Files.dispatch.
    destruct (mem (suffix_lower filename) SUPPORTED_TEXT).
    { rewrite process_text_total. discriminate. }
    destruct (suffix_lower filename =? ".pdf")%string.
    { unfold Files._process_pdf. destruct (pdf_pages content); discriminate. }
    destruct (suffix_lower filename =? ".docx")%string.
    { unfold Files._process_docx. destruct (docx_paragraphs content); discriminate. }
    destruct (mem (suffix_lower filename) SUPPORTED_IMAGES).
    { unfold Files._process_image.
      destruct (image_open content) as [e|[[w h] f]]; discriminate. }
    intros [= <-]. split; reflexivity. }
  split; [|split; [|split]].
  - split; [|intros H; exact (proj1 (U _ H))].
    rewrite is_supported_unfold. intros H.
    apply orb_false_iff in H. destruct H as [H I].
    apply orb_false_iff in H. destruct H as [T D].
    apply orb_false_iff in D. destruct D as [P X].
    unfold Files.process_file, Files.dispatch. now rewrite T, P, X, I.
  - intros suffix H. exact (proj2 (U _ H)).
  - unfold Files.upload_file. destruct (is_supported filename); cbn [negb].
    + split; discriminate.
    + split; reflexivity.
  - intros suffix. unfold Files.upload_file.
    destruct (is_supported filename) eqn:S; cbn [negb]; [|discriminate].
    intros [= H]. apply U in H. destruct H as [H _]. congruence.
Qed.
End FilesMore.

Lemma process_text_never_fails_witness :
  Files.process_file SamplePath.suffix_lower (fun _ => None) (fun _ => None)
    (fun _ => "invalid start byte") (fun _ => inl "not a PDF")
    (fun _ => inl "not a DOCX") (fun _ => true) (fun _ => inl "not an image")
    "Notes.TXT" [Byte.xe9; Byte.x21]
  = Files.Success string
      (Files.TextInfo "Notes.TXT" [233%N; 33%N] 2 [233%N; 33%N]).
Proof.
  destruct (@process_text_never_fails string SamplePath.suffix_lower
              (fun _ => None) (fun _ => None) (fun _ => "invalid start byte")
              (fun _ => inl "not a PDF") (fun _ => inl "not a DOCX")
              (fun _ => true) (fun _ => inl "not an image")
              "Notes.TXT" [Byte.xe9; Byte.x21]) as (t & _ & _ & L & P).
  destruct (L eq_refl) as [-> _].
  etransitivity; [apply P; vm_compute; reflexivity|]. reflexivity.
Defined.

Lemma process_file_preview_witness :
  Files.size_of (Files.TextInfo "Notes.TXT" [233%N; 33%N] 2 [233%N; 33%N]) = 2.
Proof.
  apply (@process_file_preview string SamplePath.suffix_lower
           (fun _ => None) (fun _ => None) (fun _ => "invalid start byte")
           (fun _ => inl "not a PDF") (fun _ => inl "not a DOCX")
           (fun _ => true) (fun _ => inl "not an image")
           "Notes.TXT" [Byte.xe9; Byte.x21]).
  vm_compute. reflexivity.
Defined.

Lemma upload_agrees_with_process_file_witness :
  Files.upload_file SamplePath.suffix_lower (fun _ => None) (fun _ => None)
    (fun _ => "invalid start byte") (fun _ => inl "not a PDF")
    (fun _ => inl "not a DOCX") (fun _ => true) (fun _ => inl "not an image")
    "setup.exe" [Byte.x4d; Byte.x5a]
  = Files.Rejected string.
Proof.
  apply (proj1 (proj2 (proj2 (@upload_agrees_with_process_file string
                                SamplePath.suffix_lower
                                (fun _ => None) (fun _ => None)
                                (fun _ => "invalid start byte")
                                (fun _ => inl "not a PDF")
                                (fun _ => inl "not a DOCX")
                                (fun _ => true) (fun _ => inl "not an image")
                                "setup.exe" [Byte.x4d; Byte.x5a])))).
  vm_compute. reflexivity.
Defined.

(* ================================================================== *)
(** * The text of an exported message *)
(* ================================================================== *)

Module PdfFacts.
Import Pdf.

Lemma append_assoc' (a b c : string) :
  ((a ++ b) ++ c = a ++ (b ++ c))%string.
Proof. induction a as [|x a IH]; cbn; [reflexivity|now rewrite IH]. Qed.

Lemma replace_char_app (old : ascii) (new a b : string) :
  replace_char old new (a ++ b)
  = (replace_char old new a ++ replace_char old new b)%string.
Proof.
  induction a as [|c a IH]; cbn [String.append replace_char]; [reflexivity|].
  rewrite IH. destruct (Ascii.eqb c old); [|reflexivity].
  now rewrite append_assoc'.
Qed.

Lemma safe_content_cons (c : ascii) (rest : string) :
  safe_content (String c rest) = (escape_char c ++ safe_content rest)%string.
Proof.
  unfold safe_content, escape_char. cbn [replace_char].
  destruct (Ascii.eqb_spec c "&") as [->|N1].
  { rewrite !replace_char_app. reflexivity. }
  cbn [replace_char].
  destruct (Ascii.eqb_spec c "<") as [->|N2].
  { rewrite !replace_char_app. reflexivity. }
  cbn [replace_char].
  destruct (Ascii.eqb_spec c ">") as [->|N3].
  { rewrite !replace_char_app. reflexivity. }
  cbn [replace_char].
  destruct (Ascii.eqb_spec c newline) as [->|N4]; reflexivity.
Qed.

Lemma safe_content_escape_all (content : string) :
  safe_content content = escape_all content.
Proof.
  induction content as [|c rest IH]; [reflexivity|].
  rewrite safe_content_cons. cbn [escape_all]. now rewrite IH.
Qed.

Lemma escape_char_cases (c : ascii) :
  (c = "&"%char /\ escape_char c = "&amp;") \/
  (c = "<"%char /\ escape_char c = "&lt;") \/
  (c = ">"%char /\ escape_char c = "&gt;") \/
  (c = newline /\ escape_char c = "<br/>") \/
  (c <> "&"%char /\ c <> "<"%char /\ escape_char c = String c EmptyString).
Proof.
  unfold escape_char.
  destruct (Ascii.eqb_spec c "&") as [->|N1]; [now left|].
  destruct (Ascii.eqb_spec c "<") as [->|N2]; [right; now left|].
  destruct (Ascii.eqb_spec c ">") as [->|N3]; [right; right; now left|].
  destruct (Ascii.eqb_spec c newline) as [->|N4]; [right; right; right; now left|].
  right; right; right; right. auto.
Qed.

(** No escape of one character begins another one's. *)
Lemma escape_char_prefix_free (a b : ascii) (r1 r2 : string) :
  (escape_char a ++ r1 = escape_char b ++ r2)%string -> a = b /\ r1 = r2.
Proof.
  destruct (escape_char_cases a) as [[-> ->]|[[-> ->]|[[-> ->]|[[-> ->]|(A1 & A2 & ->)]]]];
    destruct (escape_char_cases b) as [[-> ->]|[[-> ->]|[[-> ->]|[[-> ->]|(B1 & B2 & ->)]]]];
    cbn [String.append]; intros H;
    try (injection H; intros; subst; try congruence; split; congruence);
    try discriminate H.
Qed.

Lemma escape_all_injective (s1 : string) :
  forall s2, escape_all s1 = escape_all s2 -> s1 = s2.
Proof.
  induction s1 as [|a s1 IH]; intros [|b s2]; cbn [escape_all].
  - reflexivity.
  - destruct (escape_char_cases b) as [[_ ->]|[[_ ->]|[[_ ->]|[[_ ->]|(_ & _ & ->)]]]];
      discriminate.
  - destruct (escape_char_cases a) as [[_ ->]|[[_ ->]|[[_ ->]|[[_ ->]|(_ & _ & ->)]]]];
      discriminate.
  - intros H. apply escape_char_prefix_free in H. destruct H as [-> H].
    now rewrite (IH _ H).
Qed.

(** X24.  The text that the PDF export hands to the layout engine is the
    message with each character escaped on its own: [&], [<] and [>]
    become their entities, a newline becomes a line break, every other
    character stays.  Nothing is escaped twice (the [&] of an entity that
    the code has written is not escaped again), and no two messages give
    the same text. *)
Theorem safe_content_escapes_once (content : string) :
  safe_content content = escape_all content /\
  (forall a b : string,
     safe_content (a ++ b) = (safe_content a ++ safe_content b)%string) /\
  (forall other, safe_content other = safe_content content -> other = content).
Proof.
  split; [apply safe_content_escape_all|]. split.
  - intros a b. rewrite !safe_content_escape_all.
    induction a as [|c a IH]; cbn [String.append escape_all]; [reflexivity|].
    now rewrite IH, append_assoc'.
  - intros other. rewrite !safe_content_escape_all. apply escape_all_injective.
Qed.

(** A message that contains markup and an entity. *)
Example safe_content_sample :
  safe_content (String "<" (String "b" (String ">" (String newline "&lt;"))))
  = "&lt;b&gt;<br/>&amp;lt;"%string.
Proof. vm_compute. reflexivity. Qed.

End PdfFacts.

Lemma safe_content_escapes_once_witness :
  Pdf.safe_content "a<b&c" = "a&lt;b&amp;c"%string.
Proof.
  rewrite (proj1 (PdfFacts.safe_content_escapes_once "a<b&c")). reflexivity.
Defined.
